(** * Bank statement parsers: BCA (sequential) and Mandiri (positional)

    A shallow embedding of [src/parser/bca_parser.ts] (the BCA parser
    [parseBCAItems] and the Mandiri parsers [parseMandiriPage],
    [parseDirectTransactions], [parsePatternBased] with their page
    orchestration), followed by the properties of the statement parsers.

    Conventions of the embedding.
    - A JavaScript string is a [string]: the characters are taken in the
      ASCII range, where [toLowerCase], [toUpperCase], [\s] and [\d] are the
      usual ASCII notions.
    - A JavaScript number is a [jsnum]: [NaN], or the exact decimal value
      [Num q] that the IEEE double rounds; values are kept in lowest terms
      ([Qred]) so that equal numbers are equal terms.  Coordinates, which
      the PDF reader always gives as finite numbers, are rationals.
    - An array is a [list], read by index with [nth_error]; reading a
      field of [undefined] is the exception [TypeError].
    - An object compared by reference ([!==]) carries the index at which it
      was created as its identity. *)

From Stdlib Require Import String Ascii List Bool Arith ZArith QArith Qround Qabs Lia Lqa.
From Stdlib Require Import Permutation.
Import ListNotations.

Local Open Scope string_scope.
Local Open Scope list_scope.

(* ================================================================== *)
(** ** JavaScript strings *)

Module JsString.

Definition code (c : ascii) : nat := nat_of_ascii c.

Definition in_range (lo hi : nat) (c : ascii) : bool :=
  (lo <=? code c)%nat && (code c <=? hi)%nat.

(** [\d] *)
Definition is_digit (c : ascii) : bool := in_range 48 57 c.
Definition is_upper (c : ascii) : bool := in_range 65 90 c.
Definition is_lower (c : ascii) : bool := in_range 97 122 c.
(** [[A-Za-z]] *)
Definition is_alpha (c : ascii) : bool := is_upper c || is_lower c.
(** [\s]: tab, line feed, vertical tab, form feed, carriage return, space *)
Definition is_space (c : ascii) : bool := in_range 9 13 c || (code c =? 32)%nat.

Definition is_char (c d : ascii) : bool := Ascii.eqb c d.

Definition lower_char (c : ascii) : ascii :=
  if is_upper c then ascii_of_nat (code c + 32) else c.
Definition upper_char (c : ascii) : ascii :=
  if is_lower c then ascii_of_nat (code c - 32) else c.

Fixpoint map_chars (f : ascii -> ascii) (s : string) : string :=
  match s with
  | EmptyString => EmptyString
  | String c s' => String (f c) (map_chars f s')
  end.

Definition toLowerCase : string -> string := map_chars lower_char.
Definition toUpperCase : string -> string := map_chars upper_char.

(** [s.startsWith(p)] *)
Definition startsWith (s p : string) : bool := String.prefix p s.

(** [s.includes(sub)] *)
Fixpoint includes (s sub : string) : bool :=
  String.prefix sub s ||
  match s with
  | EmptyString => false
  | String _ s' => includes s' sub
  end.

Fixpoint trimStart (s : string) : string :=
  match s with
  | EmptyString => EmptyString
  | String c s' => if is_space c then trimStart s' else s
  end.

Fixpoint trimEnd (s : string) : string :=
  match s with
  | EmptyString => EmptyString
  | String c s' =>
      let t := trimEnd s' in
      if is_space c && (t =? "") then EmptyString else String c t
  end.

(** [s.trim()] *)
Definition trim (s : string) : string := trimEnd (trimStart s).

(** [s.split(sep)] for a one-character separator: never the empty array *)
Fixpoint split (sep : ascii) (s : string) : list string :=
  match s with
  | EmptyString => [EmptyString]
  | String c s' =>
      if is_char c sep then EmptyString :: split sep s'
      else match split sep s' with
           | h :: t => String c h :: t
           | [] => [String c EmptyString]
           end
  end.

(** [l.join(sep)] *)
Definition join (sep : string) (l : list string) : string := String.concat sep l.

(** [s.replace(/[cls]/g, '')]: every character of the class is removed *)
Fixpoint removeAll (cls : ascii -> bool) (s : string) : string :=
  match s with
  | EmptyString => EmptyString
  | String c s' => if cls c then removeAll cls s' else String c (removeAll cls s')
  end.

(** [s.replace(c, d)] with a string pattern: the first occurrence only *)
Fixpoint replaceFirst (c d : ascii) (s : string) : string :=
  match s with
  | EmptyString => EmptyString
  | String a s' => if is_char a c then String d s' else String a (replaceFirst c d s')
  end.

(** truthiness of a string: non-empty *)
Definition truthy (s : string) : bool := negb (s =? "").

End JsString.
Import JsString.

(* ================================================================== *)
(** ** Regular expressions

    The patterns of the parsers use character classes, sequence,
    alternation and repetition only, and are tested with [^...$]: a test
    succeeds exactly when the whole string is in the language, which
    derivatives decide. *)

Module Regex.

Inductive regex : Type :=
| Void : regex
| Eps : regex
| Cls : (ascii -> bool) -> regex
| Seq : regex -> regex -> regex
| Alt : regex -> regex -> regex
| Star : regex -> regex.

Fixpoint nullable (r : regex) : bool :=
  match r with
  | Void => false
  | Eps => true
  | Cls _ => false
  | Seq a b => nullable a && nullable b
  | Alt a b => nullable a || nullable b
  | Star _ => true
  end.

Fixpoint deriv (c : ascii) (r : regex) : regex :=
  match r with
  | Void => Void
  | Eps => Void
  | Cls p => if p c then Eps else Void
  | Seq a b =>
      if nullable a then Alt (Seq (deriv c a) b) (deriv c b)
      else Seq (deriv c a) b
  | Alt a b => Alt (deriv c a) (deriv c b)
  | Star a => Seq (deriv c a) (Star a)
  end.

Fixpoint matches (r : regex) (s : string) : bool :=
  match s with
  | EmptyString => nullable r
  | String c s' => matches (deriv c r) s'
  end.

(** [r+], [r?], [r{n}] *)
Definition Plus (r : regex) : regex := Seq r (Star r).
Definition Opt (r : regex) : regex := Alt Eps r.
Fixpoint Rep (n : nat) (r : regex) : regex :=
  match n with
  | O => Eps
  | S n' => Seq r (Rep n' r)
  end.
Definition Lit (c : ascii) : regex := Cls (is_char c).

(** [[a-b]] *)
Definition Rng (lo hi : ascii) : regex := Cls (in_range (code lo) (code hi)).

(** [r1 r2 ... rn] and [r1|r2|...|rn] *)
Fixpoint Cat (l : list regex) : regex :=
  match l with
  | [] => Eps
  | [r] => r
  | r :: l' => Seq r (Cat l')
  end.
Fixpoint Any (l : list regex) : regex :=
  match l with
  | [] => Void
  | [r] => r
  | r :: l' => Alt r (Any l')
  end.

(** [s.replace(/r$/, '')] for an unanchored start: the leftmost position
    from which the rest of the string is in the language is cut off *)
Fixpoint cutTrailing (r : regex) (s : string) : string :=
  if matches r s then EmptyString
  else match s with
       | EmptyString => EmptyString
       | String c s' => String c (cutTrailing r s')
       end.

End Regex.
Import Regex.

(* ================================================================== *)
(** ** JavaScript numbers *)

Inductive jsnum : Type :=
| NaN : jsnum
| Num : Q -> jsnum.

Module JsNumber.

Definition digit_val (c : ascii) : Z := Z.of_nat (code c - 48).

(** the digits at the head of [s], and what follows them *)
Fixpoint span_digits (s : string) : string * string :=
  match s with
  | EmptyString => (EmptyString, EmptyString)
  | String c s' =>
      if is_digit c then let (d, r) := span_digits s' in (String c d, r)
      else (EmptyString, s)
  end.

Fixpoint digits_value (acc : Z) (s : string) : Z :=
  match s with
  | EmptyString => acc
  | String c s' => digits_value (10 * acc + digit_val c) s'
  end.

(** an optional sign: whether it is a minus, and what follows it *)
Definition read_sign (s : string) : bool * string :=
  match s with
  | String "-" s' => (true, s')
  | String "+" s' => (false, s')
  | _ => (false, s)
  end.

(** [10^e] as a rational *)
Definition pow10 (e : Z) : Q :=
  match e with
  | Z0 => 1
  | Zpos p => inject_Z (10 ^ Zpos p)
  | Zneg p => 1 # (10 ^ p)
  end.

(** the exponent part [e[+-]ddd] at the head of [s], 0 when there is none *)
Definition read_exponent (s : string) : Z :=
  match s with
  | String c s' =>
      if is_char c "e" || is_char c "E" then
        let (neg, s2) := read_sign s' in
        let (ds, _) := span_digits s2 in
        if ds =? "" then 0%Z
        else if neg then (- digits_value 0 ds)%Z else digits_value 0 ds
      else 0%Z
  | EmptyString => 0%Z
  end.

(** the unsigned decimal literal at the head of [s]: [ddd], [ddd.ddd],
    [.ddd] or [ddd.], each with an optional exponent *)
Definition read_decimal (s : string) : option Q :=
  let (ip, r1) := span_digits s in
  let (fp, r2) :=
    match r1 with
    | String "." r => span_digits r
    | _ => (EmptyString, r1)
    end in
  if (ip =? "") && (fp =? "") then None
  else
    let m := digits_value 0 (ip ++ fp) in
    let e := (read_exponent r2 - Z.of_nat (String.length fp))%Z in
    Some (Qred (inject_Z m * pow10 e)).

(** [parseFloat(s)]: leading white space is skipped, then the longest
    prefix that is a signed decimal literal is read; [NaN] when there is
    none.  (The literal [Infinity] and overflow are outside [jsnum].) *)
Definition parseFloat (s : string) : jsnum :=
  let (neg, s') := read_sign (trimStart s) in
  match read_decimal s' with
  | None => NaN
  | Some q => Num (if neg then Qred (- q) else q)
  end.

(** [parseInt(s, 10)] *)
Definition parseInt (s : string) : jsnum :=
  let (neg, s') := read_sign (trimStart s) in
  let (ds, _) := span_digits s' in
  if ds =? "" then NaN
  else
    let v := digits_value 0 ds in
    Num (inject_Z (if neg then - v else v)).

(** [Math.abs], and the product with the literals [1] and [-1] *)
Definition abs (n : jsnum) : jsnum :=
  match n with
  | NaN => NaN
  | Num q => Num (Qred (Qabs q))
  end.

Definition mul (n : jsnum) (k : Q) : jsnum :=
  match n with
  | NaN => NaN
  | Num q => Num (Qred (q * k))
  end.

(** [Math.round]: the nearest integer, halves going up *)
Definition round (q : Q) : Z := Qfloor (q + (1 # 2)).

Definition Qltb (a b : Q) : bool := negb (Qle_bool b a).
Definition Qmaxb (a b : Q) : Q := if Qle_bool a b then b else a.

End JsNumber.
Import JsNumber.

(* ================================================================== *)
(** ** Data model *)

(** A text item of the PDF reader: its string, the translation part of
    its transform ([transform[4]] is x, [transform[5]] is y), and its
    extent. *)
Module Pdfjs.
Record TextItem : Type := mkTextItem {
  str : string;
  transform4 : Q;
  transform5 : Q;
  width : Q;
  height : Q
}.
End Pdfjs.
Import Pdfjs.

Inductive TrxType : Type := debit | credit | saldo_awal.

(** Modelled from the spec: [shared.ts], which declares [TrxRecord], is
    not among the sources; the fields are those of the object literals
    the parsers build (year, date, description, kind, amount, balance). *)
Record TrxRecord : Type := mkTrx {
  tahun : jsnum;
  tgl : string;
  ket : string;
  type : TrxType;
  mutasi : jsnum;
  saldo : jsnum
}.

Definition with_ket (r : TrxRecord) (k : string) : TrxRecord :=
  mkTrx (tahun r) (tgl r) k (type r) (mutasi r) (saldo r).
Definition with_type (r : TrxRecord) (t : TrxType) : TrxRecord :=
  mkTrx (tahun r) (tgl r) (ket r) t (mutasi r) (saldo r).
Definition with_mutasi (r : TrxRecord) (m : jsnum) : TrxRecord :=
  mkTrx (tahun r) (tgl r) (ket r) (type r) m (saldo r).
Definition with_saldo (r : TrxRecord) (b : jsnum) : TrxRecord :=
  mkTrx (tahun r) (tgl r) (ket r) (type r) (mutasi r) b.

(** How a call ends: with a value, with an exception, or (for the
    fuelled loops below) with the fuel exhausted. *)
Inductive JsError : Type := TypeError.

Inductive outcome (A : Type) : Type :=
| Returns : A -> outcome A
| Throws : JsError -> outcome A
| OutOfFuel : outcome A.
Arguments Returns {A} _.
Arguments Throws {A} _.
Arguments OutOfFuel {A}.

(** [l.findIndex(p)], [None] standing for -1 *)
Fixpoint findIndexFrom {A : Type} (p : A -> nat -> bool) (l : list A) (i : nat) : option nat :=
  match l with
  | [] => None
  | a :: l' => if p a i then Some i else findIndexFrom p l' (S i)
  end.

Definition findIndex {A : Type} (p : A -> nat -> bool) (l : list A) : option nat :=
  findIndexFrom p l 0.

(** [for (i = start; i < l.length; i++) if (p(l[i])) { found = i; break }] *)
Definition firstIndexAfter {A : Type} (p : A -> bool) (l : list A) (start : nat) : option nat :=
  option_map (Nat.add start) (findIndex (fun a _ => p a) (skipn start l)).

(* ================================================================== *)
(** ** The BCA parser (sequential statement parser) *)

Module BCA.

Definition digit : regex := Cls is_digit.

(** [/^(0[1-9]|[12][0-9]|3[01])\/(0[1-9]|1[0-2])$/] *)
Definition dateRgx : regex :=
  Cat [ Any [ Cat [Lit "0"; Rng "1" "9"];
              Cat [Rng "1" "2"; Rng "0" "9"];
              Cat [Lit "3"; Rng "0" "1"] ];
        Lit "/";
        Any [ Cat [Lit "0"; Rng "1" "9"];
              Cat [Lit "1"; Rng "0" "2"] ] ].

(** [/^\d{1,3}(,\d{3})*\.\d{2}$/] *)
Definition moneyRgx : regex :=
  Cat [ digit; Opt digit; Opt digit;
        Star (Cat [Lit ","; Rep 3 digit]);
        Lit ".";
        Rep 2 digit ].

Definition test (r : regex) (s : string) : bool := matches r s.

(** the two phrases that end the transaction list *)
Definition isEndMarker (s : string) : bool :=
  includes (toLowerCase s) "saldo awal :" ||
  includes (toLowerCase s) "bersambung ke halaman".

(** [currentIdx + 1 < items.length && items[currentIdx + 2].str === "DB"]:
    the index tested is not the index read. *)
Definition followedByDB (items : list TextItem) (currentIdx : nat) : outcome bool :=
  if (currentIdx + 1 <? length items)%nat then
    match nth_error items (currentIdx + 2) with
    | None => Throws TypeError
    | Some it => Returns (str it =? "DB")%string
    end
  else Returns false.

(** The inner [while] of a transaction: from [currentIdx], look for the
    amount and the balance of [rec], collecting detail lines.  The result
    is the record, the index reached and the detail lines. *)
Fixpoint scanDetails (fuel : nat) (items : list TextItem) (rec : TrxRecord)
    (currentIdx : nat) (foundMutasi : bool) (detailLines : list string)
    : outcome (TrxRecord * nat * list string) :=
  match fuel with
  | O => OutOfFuel
  | S fuel' =>
    match nth_error items currentIdx with
    | None => Returns (rec, currentIdx, detailLines)
    | Some nextItem =>
      if test dateRgx (str nextItem) then Returns (rec, currentIdx, detailLines)
      else
        let detailLines :=
          if negb foundMutasi && negb (test moneyRgx (str nextItem))
          then detailLines ++ [str nextItem] else detailLines in
        let next rec currentIdx foundMutasi :=
          if isEndMarker (str nextItem) then Returns (rec, currentIdx, detailLines)
          else scanDetails fuel' items rec currentIdx foundMutasi detailLines in
        if test moneyRgx (str nextItem) then
          let amount := parseFloat (removeAll (is_char ",") (str nextItem)) in
          match followedByDB items currentIdx with
          | Throws e => Throws e
          | OutOfFuel => OutOfFuel
          | Returns true =>
              next (with_mutasi (with_type rec debit) amount) (currentIdx + 2)%nat true
          | Returns false =>
              if negb foundMutasi then
                next (with_mutasi (with_type rec credit) amount) (currentIdx + 1)%nat true
              else
                Returns (with_saldo rec amount, (currentIdx + 1)%nat, detailLines)
          end
        else next rec (currentIdx + 1)%nat foundMutasi
    end
  end.

(** [if (currentRecord && currentRecord.tgl) txrecs.push(currentRecord)] *)
Definition pushDated (txrecs : list TrxRecord) (currentRecord : option TrxRecord)
    : list TrxRecord :=
  match currentRecord with
  | Some r => if truthy (tgl r) then txrecs ++ [r] else txrecs
  | None => txrecs
  end.

(** the detail lines are added to the description *)
Definition addDetails (rec : TrxRecord) (detailLines : list string) : TrxRecord :=
  match detailLines with
  | [] => rec
  | _ =>
      if truthy (ket rec)
      then with_ket rec (ket rec ++ " " ++ trim (join " " detailLines))
      else with_ket rec (trim (join " " detailLines))
  end.

(** [if (ket.toUpperCase() === "SALDO AWAL") type = "saldo_awal"] *)
Definition markSaldoAwal (rec : TrxRecord) : TrxRecord :=
  if (toUpperCase (ket rec) =? "SALDO AWAL")%string then with_type rec saldo_awal else rec.

(** the [else] branch of the outer loop: a token that is no date, no
    amount and no DB/CR marker extends the current description *)
Definition extendKet (currentRecord : option TrxRecord) (item : TextItem)
    : option TrxRecord :=
  match currentRecord with
  | Some r =>
      if negb (test dateRgx (str item)) && negb (test moneyRgx (str item))
         && negb (str item =? "DB")%string && negb (str item =? "CR")%string
      then Some (with_ket r (ket r ++ " " ++ str item))
      else Some r
  | None => None
  end.

(** The outer [while]: [txrecs] are the records pushed so far,
    [currentRecord] the one being built. *)
Fixpoint scanRows (fuel : nat) (items : list TextItem) (tahun : jsnum)
    (txrecs : list TrxRecord) (currentRecord : option TrxRecord) (currentIdx : nat)
    : outcome (list TrxRecord) :=
  match fuel with
  | O => OutOfFuel
  | S fuel' =>
    match nth_error items currentIdx with
    | None => Returns (pushDated txrecs currentRecord)
    | Some item =>
      if isEndMarker (str item) then Returns (pushDated txrecs currentRecord)
      else if test dateRgx (str item) then
        let txrecs := pushDated txrecs currentRecord in
        let rec := mkTrx tahun (str item) "" credit (Num 0) (Num 0) in
        let currentIdx := (currentIdx + 1)%nat in
        let '(rec, currentIdx) :=
          match nth_error items currentIdx with
          | Some it => (with_ket rec (str it), (currentIdx + 1)%nat)
          | None => (rec, currentIdx)
          end in
        let currentIdx :=
          match nth_error items currentIdx with
          | Some it => if (str it =? "CBG")%string then (currentIdx + 2)%nat else currentIdx
          | None => currentIdx
          end in
        match scanDetails (S (length items)) items rec currentIdx false [] with
        | Returns (rec, currentIdx, detailLines) =>
            let rec := markSaldoAwal (addDetails rec detailLines) in
            scanRows fuel' items tahun txrecs (Some rec) currentIdx
        | Throws e => Throws e
        | OutOfFuel => OutOfFuel
        end
      else
        scanRows fuel' items tahun txrecs (extendKet currentRecord item) (currentIdx + 1)%nat
    end
  end.

(** the period string: the first of the nine tokens after "PERIODE" that
    contains "20", the empty string when there is none *)
Definition findPeriode (items : list TextItem) (periodeIdx : nat) : string :=
  match find (fun it => includes (str it) "20")
             (firstn 9 (skipn (periodeIdx + 1) items)) with
  | Some it => str it
  | None => ""
  end.

(** [parseInt(periodParts[periodParts.length - 1], 10)] *)
Definition parseTahun (periode : string) : jsnum :=
  let periodParts := split " " (trim periode) in
  parseInt (last periodParts "").

(** the part of [parseBCAItems] after the year is known *)
Definition parseTable (items : list TextItem) (tahun : jsnum) : outcome (list TrxRecord) :=
  match findIndex (fun rec _ => (str rec =? "TANGGAL")%string) items with
  | None => Returns []
  | Some tanggalHeaderIdx =>
    match findIndex (fun r idx =>
             (Z.of_nat tanggalHeaderIdx - 5 <? Z.of_nat idx)%Z
             && (Z.of_nat idx <? Z.of_nat tanggalHeaderIdx + 5)%Z
             && (str r =? "KETERANGAN")%string) items with
    | None => Returns []
    | Some _ =>
      match firstIndexAfter (fun it => test dateRgx (str it)) items (tanggalHeaderIdx + 1) with
      | None => Returns []
      | Some startRowIdx => scanRows (S (length items)) items tahun [] None startRowIdx
      end
    end
  end.

Definition parseBCAItems (items : list TextItem) : outcome (list TrxRecord) :=
  match findIndex (fun rec _ => (str rec =? "PERIODE")%string) items with
  | None => Returns []
  | Some periodeIdx => parseTable items (parseTahun (findPeriode items periodeIdx))
  end.

(** [parseBCAStatement], from the token lists that the PDF reader gives
    for the pages: the records of the pages in page order; an exception in
    a page ends the call. *)
Fixpoint parseBCAPages (pages : list (list TextItem)) (allRecs : list TrxRecord)
    : outcome (list TrxRecord) :=
  match pages with
  | [] => Returns allRecs
  | items :: rest =>
      match parseBCAItems items with
      | Returns recs => parseBCAPages rest (allRecs ++ recs)
      | Throws e => Throws e
      | OutOfFuel => OutOfFuel
      end
  end.

Definition parseBCAStatement (pages : list (list TextItem)) : outcome (list TrxRecord) :=
  parseBCAPages pages [].

End BCA.

(* ================================================================== *)
(** ** Arrays: stable sort with a comparator, insertion-ordered maps *)

Module JsArray.

Section Sort.
Context {A : Type} (cmp : A -> A -> Q).

(** [a] goes in front of the first element it does not exceed *)
Fixpoint insert (a : A) (l : list A) : list A :=
  match l with
  | [] => [a]
  | b :: l' => if Qle_bool (cmp a b) 0 then a :: l else b :: insert a l'
  end.

(** [l.sort(cmp)]: the stable sort *)
Fixpoint sortBy (l : list A) : list A :=
  match l with
  | [] => []
  | a :: l' => insert a (sortBy l')
  end.
End Sort.

Section Map.
Context {V : Type}.

(** [if (!m.has(k)) m.set(k, []); m.get(k).push(v)] on a [Map] with
    integer keys, the entries in insertion order *)
Fixpoint mapPush (k : Z) (v : V) (m : list (Z * list V)) : list (Z * list V) :=
  match m with
  | [] => [(k, [v])]
  | (k', vs) :: m' =>
      if (k' =? k)%Z then (k', vs ++ [v]) :: m' else (k', vs) :: mapPush k v m'
  end.

(** [m.get(k) || []] *)
Fixpoint mapGet (k : Z) (m : list (Z * list V)) : list V :=
  match m with
  | [] => []
  | (k', vs) :: m' => if (k' =? k)%Z then vs else mapGet k m'
  end.
End Map.

(** [l.map((a, i) => f(a, i))] *)
Fixpoint mapi_from {A B : Type} (f : A -> nat -> B) (l : list A) (i : nat) : list B :=
  match l with
  | [] => []
  | a :: l' => f a i :: mapi_from f l' (S i)
  end.
Definition mapi {A B : Type} (f : A -> nat -> B) (l : list A) : list B := mapi_from f l 0.

End JsArray.
Import JsArray.

(* ================================================================== *)
(** ** The Mandiri parsers (row reconstruction, direct, pattern-line) *)

Module Mandiri.

(** A positioned item; [ref] is the identity of the object (the index of
    the text item it was made from), which [!==] compares. *)
Record PositionedItem : Type := mkPos {
  ref : nat;
  text : string;
  x : Q;
  y : Q;
  width : option Q;
  height : option Q
}.

Definition same (a b : PositionedItem) : bool := (ref a =? ref b)%nat.

Definition test (r : regex) (s : string) : bool := matches r s.

Definition digit : regex := Cls is_digit.
Definition space : regex := Cls is_space.
Definition alpha : regex := Cls is_alpha.
(** [[\d.,]] *)
Definition is_numchar (c : ascii) : bool := is_digit c || is_char c "." || is_char c ",".
Definition numchar : regex := Cls is_numchar.

(** [/^\d+$/] *)
Definition ordinalRgx : regex := Plus digit.
(** [/^\d{2}\s+[A-Za-z]{3}\s+\d{4}$/] *)
Definition dateRgx : regex :=
  Cat [Rep 2 digit; Plus space; Rep 3 alpha; Plus space; Rep 4 digit].
(** [/^\d{2}\s+[A-Za-z]{3}\s+\d{4}\/\d{4}$/] *)
Definition dateDupYearRgx : regex :=
  Cat [Rep 2 digit; Plus space; Rep 3 alpha; Plus space; Rep 4 digit;
       Lit "/"; Rep 4 digit].
(** [/^-[\d.,]+,\d{2}$/] *)
Definition negativeRgx : regex := Cat [Lit "-"; Plus numchar; Lit ","; Rep 2 digit].
(** [/^\+[\d.,]+,\d{2}$/] *)
Definition positiveRgx : regex := Cat [Lit "+"; Plus numchar; Lit ","; Rep 2 digit].
(** [/^[\d.,]+,\d{2}$/] *)
Definition unsignedRgx : regex := Cat [Plus numchar; Lit ","; Rep 2 digit].
(** [/^[-+]?[\d.,]+,\d{2}$/] *)
Definition signedRgx : regex :=
  Cat [Opt (Cls (fun c => is_char c "-" || is_char c "+"));
       Plus numchar; Lit ","; Rep 2 digit].
(** [/^-?[\d.,]+,\d{2}$/] *)
Definition minusRgx : regex := Cat [Opt (Lit "-"); Plus numchar; Lit ","; Rep 2 digit].
(** [/^\d{2}:\d{2}:\d{2}\s+WIB$/] *)
Definition timeRgx : regex :=
  Cat [Rep 2 digit; Lit ":"; Rep 2 digit; Lit ":"; Rep 2 digit; Plus space;
       Lit "W"; Lit "I"; Lit "B"].
(** [/\s+\d+\s*$/] *)
Definition trailingNumberRgx : regex := Cat [Plus space; Plus digit; Star space].

Definition is_dot (c : ascii) : bool := is_char c ".".
Definition is_sign (c : ascii) : bool := is_char c "+" || is_char c "-".

(** [t.replace(/\./g, '').replace(',', '.')] *)
Definition cleanNumber (t : string) : string := replaceFirst "," "." (removeAll is_dot t).
(** [t.replace(/\./g, '').replace(',', '.').replace(/[+-]/g, '')] *)
Definition cleanAmount (t : string) : string := removeAll is_sign (cleanNumber t).

Definition Qabs_lt (a b bound : Q) : bool := Qltb (Qabs (a - b)) bound.

(** [description.toLowerCase().includes('saldo awal')] overrides the kind
    that the sign gives *)
Definition isSaldoAwal (description : string) : bool :=
  includes (toLowerCase description) "saldo awal".

(** *** Rows *)

(** [Math.round(item.y / 2) * 2] *)
Definition rowKey (item : PositionedItem) : Z := (round (y item / 2) * 2)%Z.

Definition groupIntoRows (items : list PositionedItem) : list (list PositionedItem) :=
  let rows := fold_left (fun rows item => mapPush (rowKey item) item rows) items [] in
  map snd (sortBy (fun a b => inject_Z (fst b - fst a)) rows).

Definition isHeaderRow (row : list PositionedItem) : bool :=
  let rowTexts := map (fun item => toLowerCase (text item)) row in
  let has t := existsb (String.eqb t) rowTexts in
  (has "no" && has "tanggal") || (has "no" && has "date").

(** [None] stands for -1 *)
Definition findHeaderRow (rows : list (list PositionedItem)) : option nat :=
  findIndex (fun row _ => isHeaderRow row) rows.

(** *** Row reconstruction: [parseMandiriPage] *)

Definition toPositioned (item : TextItem) (i : nat) : PositionedItem :=
  mkPos i (str item) (transform4 item) (transform5 item)
        (Some (Pdfjs.width item)) (Some (Pdfjs.height item)).

(** the three amount patterns: negative, positive, without sign *)
Definition isAmountText (t : string) : bool :=
  test negativeRgx t || test positiveRgx t || test unsignedRgx t.
Definition isAmount (item : PositionedItem) : bool := isAmountText (text item).

(** the comparator of the description cells *)
Definition descOrder (a b : PositionedItem) : Q :=
  if Qltb 5 (Qabs (y a - y b)) then y b - y a else x a - x b.

(** the body of the loop over the rows below the header: [None] is
    [continue], the row gives no record *)
Definition parseRow (year : jsnum) (row : list PositionedItem) : option TrxRecord :=
  match row with
  | [] => None
  | first :: _ =>
    let firstCell := text first in
    if negb (test ordinalRgx firstCell) then None
    else
      match find (fun item => test dateRgx (text item) || test dateDupYearRgx (text item)) row with
      | None => None
      | Some dateItem =>
        let dateText :=
          if includes (text dateItem) "/" then hd "" (split "/" (text dateItem))
          else text dateItem in
        match find isAmount row with
        | None => None
        | Some amountItem =>
          let isNegative := startsWith (text amountItem) "-" in
          let amountClean := cleanAmount (text amountItem) in
          let amount := mul (parseFloat amountClean) (if isNegative then -1 else 1) in
          let remainingItems :=
            sortBy (fun a b => x b - x a)
              (filter (fun item => negb (same item amountItem)
                                   && test unsignedRgx (text item)) row) in
          match remainingItems with
          | [] => None
          | balanceItem :: _ =>
            let balance := parseFloat (cleanNumber (text balanceItem)) in
            let descItems :=
              sortBy descOrder
                (filter (fun item => negb (same item amountItem)
                                     && negb (same item balanceItem)
                                     && negb (same item dateItem)
                                     && negb (test timeRgx (text item))) row) in
            let description := trim (join " " (map text descItems)) in
            let type := if isNegative then debit else credit in
            let type := if isSaldoAwal description then saldo_awal else type in
            Some (mkTrx year dateText description type (abs amount) balance)
          end
        end
      end
  end.

Definition records_of {A : Type} (f : A -> option TrxRecord) (l : list A) : list TrxRecord :=
  flat_map (fun a => match f a with Some r => [r] | None => [] end) l.

Definition parseMandiriPage (items : list TextItem) (year : jsnum) : list TrxRecord :=
  let posItems := mapi toPositioned items in
  let rows := groupIntoRows posItems in
  match findHeaderRow rows with
  | None => []
  | Some headerRow => records_of (parseRow year) (skipn (headerRow + 1) rows)
  end.

(** *** Direct token parser: [parseDirectTransactions] *)

Definition toPoint (item : TextItem) (i : nat) : PositionedItem :=
  mkPos i (str item) (transform4 item) (transform5 item) None None.

Definition isSigned (num : PositionedItem) : bool :=
  startsWith (text num) "-" || startsWith (text num) "+".

(** the body of the loop over the dates *)
Definition parseDate (year : jsnum) (allItems numbers : list PositionedItem)
    (date : PositionedItem) : option TrxRecord :=
  let relatedNumbers :=
    sortBy (fun a b => x a - x b)
      (filter (fun num => Qabs_lt (y num) (y date) 20) numbers) in
  if (length relatedNumbers <? 2)%nat then None
  else
    match nth_error relatedNumbers (length relatedNumbers - 1) with
    | None => None
    | Some balanceItem =>
      let amountItem :=
        match find isSigned relatedNumbers with
        | Some num => Some num
        | None => nth_error relatedNumbers (length relatedNumbers - 2)
        end in
      match amountItem with
      | None => None
      | Some amountItem =>
        let balance := parseFloat (cleanNumber (text balanceItem)) in
        let isNegative := startsWith (text amountItem) "-" in
        let amount := parseFloat (cleanAmount (text amountItem)) in
        let nearbyItems :=
          filter (fun item =>
                    let verticalMatch := Qabs_lt (y item) (y date) 25 in
                    let notExcluded :=
                      negb (same item date) && negb (same item amountItem)
                      && negb (same item balanceItem)
                      && negb (test timeRgx (text item))
                      && negb (test signedRgx (text item)) in
                    verticalMatch && notExcluded) allItems in
        let description := trim (join " " (map text nearbyItems)) in
        let description := cutTrailing trailingNumberRgx description in
        let type :=
          if isSaldoAwal description then saldo_awal
          else if isNegative then debit else credit in
        let dateParts := split " " (text date) in
        let formattedDate :=
          (nth 0 dateParts "undefined" ++ " " ++ nth 1 dateParts "undefined")%string in
        Some (mkTrx year formattedDate description type amount balance)
      end
    end.

Definition parseDirectTransactions (items : list TextItem) (year : jsnum) : list TrxRecord :=
  let allItems := mapi toPoint items in
  let dates := filter (fun p => test dateRgx (text p)) allItems in
  let numbers := filter (fun p => test signedRgx (text p)) allItems in
  records_of (parseDate year allItems numbers) dates.

(** *** Pattern-line parser: [parsePatternBased] *)

Definition groupIntoLines (allText : list PositionedItem) : list (list PositionedItem) :=
  let yGroups := fold_left (fun g item => mapPush (round (y item)) item g) allText [] in
  let yGroups := map (fun kv => (fst kv, sortBy (fun a b => x a - x b) (snd kv))) yGroups in
  let sortedY := sortBy (fun a b => inject_Z (b - a)) (map fst yGroups) in
  map (fun yk => mapGet yk yGroups) sortedY.

(** the body of the loop over the lines *)
Definition parseLine (year : jsnum) (line : list PositionedItem) : option TrxRecord :=
  match line with
  | [] => None
  | first :: _ =>
    if negb (test ordinalRgx (text first)) then None
    else
      match find (fun item => test dateRgx (text item)) line with
      | None => None
      | Some dateItem =>
        let numberItems := filter (fun item => test minusRgx (text item)) line in
        if (length numberItems <? 2)%nat then None
        else
          match nth_error numberItems (length numberItems - 1),
                nth_error numberItems (length numberItems - 2) with
          | Some balanceItem, Some amountItem =>
            let isNegative := startsWith (text amountItem) "-" in
            let amountValue := parseFloat (cleanAmount (text amountItem)) in
            let balanceValue := parseFloat (cleanNumber (text balanceItem)) in
            let startX := Qmaxb (x first) (x dateItem) in
            let description :=
              fold_left (fun description item =>
                  if Qltb startX (x item) && Qltb (x item) (x amountItem)
                     && negb (same item dateItem)
                     && negb (test timeRgx (text item))
                  then (description ++ text item ++ " ")%string else description)
                line "" in
            let description := trim description in
            let type := if isNegative then debit else credit in
            let type := if isSaldoAwal description then saldo_awal else type in
            Some (mkTrx year (text dateItem) description type amountValue balanceValue)
          | _, _ => None
          end
      end
  end.

Definition parsePatternBased (items : list TextItem) (year : jsnum) : list TrxRecord :=
  let allText := mapi toPoint items in
  records_of (parseLine year) (groupIntoLines allText).

(** *** The page step of [parseMandiriStatement] *)

Inductive Strategy : Type := Standard | Direct | Pattern.

(** The three-way choice for one page, with the parsers that were
    called, in call order. *)
Definition parsePageTraced (items : list TextItem) (year : jsnum)
    : list Strategy * list TrxRecord :=
  let standardRecs := parseMandiriPage items year in
  if (0 <? length standardRecs)%nat then ([Standard], standardRecs)
  else
    let directRecs := parseDirectTransactions items year in
    if (0 <? length directRecs)%nat then ([Standard; Direct], directRecs)
    else ([Standard; Direct; Pattern], parsePatternBased items year).

Definition parsePage (items : list TextItem) (year : jsnum) : list TrxRecord :=
  snd (parsePageTraced items year).
Definition consulted (items : list TextItem) (year : jsnum) : list Strategy :=
  fst (parsePageTraced items year).

(** *** [parseMandiriStatement], from the token lists of the pages *)

(** [/(\d{2}\s+[A-Za-z]{3}\s+\d{4})\s*-\s*(\d{2}\s+[A-Za-z]{3}\s+\d{4})/] *)
Definition periodRgx : regex := Cat [dateRgx; Star space; Lit "-"; Star space; dateRgx].

(** [s.match(r)] without anchors: the rest of the string from the
    leftmost position at which a match starts *)
Fixpoint search (r : regex) (s : string) : option string :=
  if matches (Seq r (Star (Cls (fun _ => true)))) s then Some s
  else match s with
       | EmptyString => None
       | String _ s' => search r s'
       end.

(** the four digits that end the first date of a period match: after
    two digits, white space, three letters and white space *)
Definition firstDateYear (m : string) : string :=
  let afterDay := trimStart (substring 2 (String.length m - 2) m) in
  let afterMonth := trimStart (substring 3 (String.length afterDay - 3) afterDay) in
  substring 0 4 afterMonth.

(** the year of the statement: that of the period on the first page,
    2025 when there is none *)
Definition resolveYear (firstPageItems : list TextItem) : jsnum :=
  let firstPageText := join " " (map str firstPageItems) in
  match search periodRgx firstPageText with
  | Some m => parseInt (firstDateYear m)
  | None => Num 2025
  end.

(** a last page that is only a disclaimer is skipped *)
Definition isDisclaimerPage (items : list TextItem) : bool :=
  let lastPageText := join " " (map str items) in
  includes (toLowerCase lastPageText) "disclaimer"
  && negb (includes lastPageText "Tanggal")
  && negb (includes lastPageText "Date").

Fixpoint parsePages (year : jsnum) (pages : list (list TextItem)) : list TrxRecord :=
  match pages with
  | [] => []
  | [items] => if isDisclaimerPage items then [] else parsePage items year
  | items :: rest => parsePage items year ++ parsePages year rest
  end.

Definition parseMandiriStatement (pages : list (list TextItem)) : list TrxRecord :=
  parsePages (resolveYear (hd [] pages)) pages.

End Mandiri.

(* ================================================================== *)
(** ** The parser strategies, uniformly *)

Module Strategies.

Inductive strategy : Type :=
| Sequential        (* BCA.parseBCAItems *)
| RowReconstruction (* Mandiri.parseMandiriPage *)
| DirectToken       (* Mandiri.parseDirectTransactions *)
| PatternLine.      (* Mandiri.parsePatternBased *)

(** one page through one strategy; the sequential parser resolves the
    year itself, the others are given it *)
Definition run (s : strategy) (items : list TextItem) (year : jsnum)
    : outcome (list TrxRecord) :=
  match s with
  | Sequential => BCA.parseBCAItems items
  | RowReconstruction => Returns (Mandiri.parseMandiriPage items year)
  | DirectToken => Returns (Mandiri.parseDirectTransactions items year)
  | PatternLine => Returns (Mandiri.parsePatternBased items year)
  end.

(** the pattern that a balance token of the strategy matches, and the
    number read from the token *)
Definition balanceRgx (s : strategy) : regex :=
  match s with
  | Sequential => BCA.moneyRgx
  | RowReconstruction => Mandiri.unsignedRgx
  | DirectToken => Mandiri.signedRgx
  | PatternLine => Mandiri.minusRgx
  end.



(** the pattern that a date token of the strategy matches, and the date
    text that the record keeps of it *)
Definition dateAccepts (s : strategy) (t : string) : bool :=
  match s with
  | Sequential => matches BCA.dateRgx t
  | RowReconstruction => matches Mandiri.dateRgx t || matches Mandiri.dateDupYearRgx t
  | DirectToken => matches Mandiri.dateRgx t
  | PatternLine => matches Mandiri.dateRgx t
  end.

Definition dateOf (s : strategy) (t : string) : string :=
  match s with
  | Sequential => t
  | RowReconstruction => if includes t "/" then hd "" (split "/" t) else t
  | DirectToken =>
      (nth 0 (split " " t) "undefined" ++ " " ++ nth 1 (split " " t) "undefined")%string
  | PatternLine => t
  end.

(** how the date [d] of a record comes from the text [t] of its date
    token: the sequential parser copies it, the direct token parser keeps
    the first two space-separated parts, the row reconstruction and
    pattern-line parsers keep a leading part of it *)
Definition dateFrom (s : strategy) (t d : string) : Prop :=
  match s with
  | Sequential => d = t
  | DirectToken => d = dateOf DirectToken t
  | RowReconstruction | PatternLine => String.prefix d t = true
  end.

(** the amount pattern of each strategy *)
Definition amountAccepts (s : strategy) (t : string) : bool :=
  match s with
  | Sequential => matches BCA.moneyRgx t
  | RowReconstruction => Mandiri.isAmountText t
  | DirectToken => matches Mandiri.signedRgx t
  | PatternLine => matches Mandiri.minusRgx t
  end.

Definition negative (n : jsnum) : Prop :=
  match n with
  | NaN => False
  | Num q => q < 0
  end.

End Strategies.

(* ================================================================== *)
(** ** Vocabulary of the proofs *)

Module Vocabulary.

(** the scan ended, normally or by an exception, at an index not before [i] *)
Definition ends_from (i : nat) (o : outcome (TrxRecord * nat * list string)) : Prop :=
  match o with
  | Returns (_, j, _) => (i <= j)%nat
  | Throws _ => True
  | OutOfFuel => False
  end.

(** the record that the scan returns, if it returns, satisfies [P] *)
Definition holds_after (P : TrxRecord -> Prop) (o : outcome (TrxRecord * nat * list string)) : Prop :=
  match o with
  | Returns (r, _, _) => P r
  | _ => True
  end.

(** the values of a map, all keys together *)
Definition members {V} (m : list (Z * list V)) : list V := flat_map snd m.

(** every character of [s] satisfies [p] *)
Fixpoint all_chars (p : ascii -> bool) (s : string) : bool :=
  match s with
  | EmptyString => true
  | String c s' => p c && all_chars p s'
  end.

Definition unsigned_char (c : ascii) : bool := negb (Mandiri.is_sign c).

Definition nonnegative (n : jsnum) : Prop :=
  n = NaN \/ exists q, n = Num q /\ 0 <= q.

(** the language of a pattern: the strings that [^r$] accepts *)
Inductive lang : regex -> string -> Prop :=
| lang_eps : lang Eps ""
| lang_cls p c : p c = true -> lang (Cls p) (String c "")
| lang_seq a b s1 s2 : lang a s1 -> lang b s2 -> lang (Seq a b) (s1 ++ s2)
| lang_alt_l a b s : lang a s -> lang (Alt a b) s
| lang_alt_r a b s : lang b s -> lang (Alt a b) s
| lang_star_nil a : lang (Star a) ""
| lang_star_app a s1 s2 : lang a s1 -> lang (Star a) s2 -> lang (Star a) (s1 ++ s2).

(** the third character of a string *)
Definition third (s : string) : option ascii :=
  match s with
  | String _ (String _ (String c _)) => Some c
  | _ => None
  end.

(** groups of three digits, each after the separator [sep] *)
Inductive groups_of (sep : ascii) : string -> Prop :=
| groups_nil : groups_of sep ""
| groups_cons g rest :
    all_chars is_digit g = true -> String.length g = 3%nat -> groups_of sep rest ->
    groups_of sep (String sep (g ++ rest)).

(** The money grammars in the words of the specification: one to three
    digits, groups of three digits separated by [thousands], and a
    mandatory fraction of two digits after [point]. *)
Definition grouped_decimal (thousands point : ascii) (s : string) : Prop :=
  exists lead groups frac,
    s = (lead ++ groups ++ String point frac)%string
    /\ all_chars is_digit lead = true
    /\ (1 <= String.length lead <= 3)%nat
    /\ groups_of thousands groups
    /\ all_chars is_digit frac = true
    /\ String.length frac = 2%nat.

(** period-thousands, comma-decimal (Format B) *)
Definition period_thousands_comma_decimal : string -> Prop := grouped_decimal "." ",".



End Vocabulary.

(* ================================================================== *)
(** ** Sample pages *)

Module Samples.

(** a token of a BCA page (the sequential parser ignores positions) *)
Definition tok (s : string) : TextItem := mkTextItem s 0 0 0 0.
(** a cell of a Mandiri page at (x, y) *)
Definition cell (s : string) (x y : Q) : TextItem := mkTextItem s x y 0 0.

(** the period and the column headers of a BCA page *)
Definition anchors : list TextItem :=
  map tok ["PERIODE"; ":"; "JANUARI 2025"; "TANGGAL"; "KETERANGAN"; "CBG"; "MUTASI"; "SALDO"].
(** the same with a period that names no year *)
Definition anchors_no_year : list TextItem :=
  map tok ["PERIODE"; ":"; "JANUARI"; "TANGGAL"; "KETERANGAN"; "CBG"; "MUTASI"; "SALDO"].

Definition bca_debit : list TextItem :=
  anchors ++ map tok ["01/01"; "TARIKAN ATM"; "50,000.00"; "DB"; "950,000.00"].
Definition bca_debit_spaced : list TextItem :=
  anchors ++ map tok ["01/01"; "TARIKAN ATM"; "50,000.00"; " "; "DB"; "950,000.00"].
Definition bca_truncated : list TextItem :=
  anchors ++ map tok ["01/01"; "TARIKAN ATM"; "50,000.00"; "DB"].
Definition bca_no_balance : list TextItem :=
  anchors ++ map tok ["01/01"; "BIAYA ADM"].
Definition bca_saldo_awal_late : list TextItem :=
  anchors ++ map tok ["01/01"; "SALDO"; "1,000.00"; "2,000.00"; "AWAL"; "CR"].
Definition bca_no_year : list TextItem :=
  anchors_no_year ++ map tok ["01/01"; "SETORAN"; "1,000.00"; "2,000.00"; "CR"; "-"].

Definition header : list TextItem :=
  [cell "No" 30 700; cell "Tanggal" 80 700; cell "Keterangan" 200 700;
   cell "Nominal (IDR)" 400 700; cell "Saldo (IDR)" 500 700].
Definition row_credit : list TextItem :=
  [cell "1" 30 680; cell "01 Jan 2025" 80 680; cell "TRANSFER MASUK" 200 680;
   cell "+1.000.000,00" 400 680; cell "5.000.000,00" 500 680].
Definition row_debit : list TextItem :=
  [cell "1" 30 680; cell "01 Jan 2025" 80 680; cell "TRANSFER KELUAR" 200 680;
   cell "-1.000.000,00" 400 680; cell "5.000.000,00" 500 680].

Definition page_credit : list TextItem := header ++ row_credit.
Definition page_debit : list TextItem := header ++ row_debit.
(** the debit row alone, as on a page whose header row is not found *)
Definition page_headless : list TextItem := row_debit.

End Samples.

(* ================================================================== *)
(** ** The helpers of the application ([App.tsx]) *)

Module App.

(** [parts[parts.length - 1] = v]; [split] never gives the empty array *)
Fixpoint setLast (parts : list string) (v : string) : list string :=
  match parts with
  | [] => []
  | [_] => [v]
  | a :: rest => a :: setLast rest v
  end.

(** the file name of the export: the part after the last '.' is replaced *)
Definition replaceExtenstion (input newExt : string) : string :=
  join "." (setLast (split "." input) newExt).

(** the merchant codes and the tags they add, in the order tested *)
Definition merchantTags : list (string * string) :=
  [ ("UBP60146073701FFFFFF", " **(GOJEK)**");
    ("UBP60148930801", " **(SHOPEEPAY)**");
    ("UBP6014530180", " **(PEMBAYARAN KAI)**");
    ("UBP6014400190", " **(MANDIRI PULSA)**");
    ("UBP60146000101FF", " **(GRAB / OVO)**");
    ("UBP60148890801F", " **(MIDTRANS)**");
    ("UBP6014603290", " **(E-MONEY)**") ].

(** the chain of [if (keterangan.includes(code)) return keterangan + tag] *)
Fixpoint tagWith (tags : list (string * string)) (keterangan : string) : string :=
  match tags with
  | [] => keterangan
  | (code, tag) :: rest =>
      if includes keterangan code then (keterangan ++ tag)%string
      else tagWith rest keterangan
  end.

Definition formatKeterangan (keterangan : string) : string :=
  tagWith merchantTags keterangan.

Definition getRecordColor (record : TrxRecord) : string :=
  match type record with
  | credit | saldo_awal => "#2F9E44"
  | debit => "#FF0000"
  end.

(** [rupiah] formats a number with [Intl.NumberFormat]: it is a parameter *)
Definition getMutationText (rupiah : jsnum -> string) (record : TrxRecord) : string :=
  match type record with
  | credit | saldo_awal => ("+" ++ rupiah (mutasi record))%string
  | debit => ("-" ++ rupiah (mutasi record))%string
  end.

End App.

(* ================================================================== *)
(** ** Measures of tokens and records *)

Module Measures.

(** [l1] is [l2] with some elements left out, the order kept *)
Inductive subseq {A : Type} : list A -> list A -> Prop :=
| subseq_nil : subseq [] []
| subseq_skip a l1 l2 : subseq l1 l2 -> subseq l1 (a :: l2)
| subseq_take a l1 l2 : subseq l1 l2 -> subseq (a :: l1) (a :: l2).



(** the record under construction, as a list *)
Definition pending (currentRecord : option TrxRecord) : list TrxRecord :=
  match currentRecord with
  | Some r => [r]
  | None => []
  end.

(** the strings of the date tokens of a BCA page, in document order *)
Definition dateTokens (items : list TextItem) : list string :=
  filter (BCA.test BCA.dateRgx) (map str items).

End Measures.

(* ================================================================== *)
(** ** More sample pages *)

Module MoreSamples.
Import Samples.

(** a BCA page that opens with the opening balance *)
Definition bca_opening : list TextItem :=
  anchors ++ map tok ["01/01"; "SALDO AWAL"; "1,000.00";
                      "02/01"; "SETORAN"; "500.00"; "CR"; "1,500.00"].
(** a BCA page without the period label *)
Definition bca_no_periode : list TextItem :=
  map tok ["TANGGAL"; "KETERANGAN"; "01/01"; "SETORAN"; "500.00"; "1,500.00"].
(** two transactions on one BCA page *)
Definition bca_two : list TextItem :=
  anchors ++ map tok ["01/01"; "SETORAN"; "500.00"; "CR"; "1,500.00";
                      "02/01"; "TARIKAN"; "200.00"; "DB"; "1,300.00"].

(** a Mandiri page whose first row is the opening balance *)
Definition page_opening : list TextItem :=
  header ++ [cell "1" 30 680; cell "01 Jan 2025" 80 680; cell "Saldo Awal Bulan" 200 680;
             cell "0,00" 400 680; cell "5.000.000,00" 500 680].
(** a Mandiri statement: a page with the period and a table, then a page
    that is only a disclaimer *)
Definition first_page : list TextItem :=
  cell "Periode" 30 800 :: cell "01 Jan 2024 - 31 Jan 2024" 80 800 :: page_debit.
Definition disclaimer_page : list TextItem :=
  [cell "Disclaimer" 30 700; cell "Dokumen ini sah tanpa tanda tangan" 30 680].
Definition statement_pages : list (list TextItem) := [first_page; disclaimer_page].

End MoreSamples.

(* ================================================================== *)
(** ** Facts about the BCA loops *)

Module BCAFacts.
Import BCA Vocabulary.

Lemma scanDetails_unfold fuel items rec currentIdx foundMutasi detailLines :
  scanDetails (S fuel) items rec currentIdx foundMutasi detailLines =
    match nth_error items currentIdx with
    | None => Returns (rec, currentIdx, detailLines)
    | Some nextItem =>
      if test dateRgx (str nextItem) then Returns (rec, currentIdx, detailLines)
      else
        let detailLines :=
          if negb foundMutasi && negb (test moneyRgx (str nextItem))
          then detailLines ++ [str nextItem] else detailLines in
        let next rec currentIdx foundMutasi :=
          if isEndMarker (str nextItem) then Returns (rec, currentIdx, detailLines)
          else scanDetails fuel items rec currentIdx foundMutasi detailLines in
        if test moneyRgx (str nextItem) then
          let amount := parseFloat (removeAll (is_char ",") (str nextItem)) in
          match followedByDB items currentIdx with
          | Throws e => Throws e
          | OutOfFuel => OutOfFuel
          | Returns true =>
              next (with_mutasi (with_type rec debit) amount) (currentIdx + 2)%nat true
          | Returns false =>
              if negb foundMutasi then
                next (with_mutasi (with_type rec credit) amount) (currentIdx + 1)%nat true
              else
                Returns (with_saldo rec amount, (currentIdx + 1)%nat, detailLines)
          end
        else next rec (currentIdx + 1)%nat foundMutasi
    end.
Proof. reflexivity. Qed.

Lemma scanRows_unfold fuel items tahun txrecs currentRecord currentIdx :
  scanRows (S fuel) items tahun txrecs currentRecord currentIdx =
    match nth_error items currentIdx with
    | None => Returns (pushDated txrecs currentRecord)
    | Some item =>
      if isEndMarker (str item) then Returns (pushDated txrecs currentRecord)
      else if test dateRgx (str item) then
        let txrecs := pushDated txrecs currentRecord in
        let rec := mkTrx tahun (str item) "" credit (Num 0) (Num 0) in
        let currentIdx := (currentIdx + 1)%nat in
        let '(rec, currentIdx) :=
          match nth_error items currentIdx with
          | Some it => (with_ket rec (str it), (currentIdx + 1)%nat)
          | None => (rec, currentIdx)
          end in
        let currentIdx :=
          match nth_error items currentIdx with
          | Some it => if (str it =? "CBG")%string then (currentIdx + 2)%nat else currentIdx
          | None => currentIdx
          end in
        match scanDetails (S (length items)) items rec currentIdx false [] with
        | Returns (rec, currentIdx, detailLines) =>
            let rec := markSaldoAwal (addDetails rec detailLines) in
            scanRows fuel items tahun txrecs (Some rec) currentIdx
        | Throws e => Throws e
        | OutOfFuel => OutOfFuel
        end
      else
        scanRows fuel items tahun txrecs (extendKet currentRecord item) (currentIdx + 1)%nat
    end.
Proof. reflexivity. Qed.

(** *** Termination: the fuel given by [parseTable] is never exhausted *)

Lemma ends_from_le i j o : (i <= j)%nat -> ends_from j o -> ends_from i o.
Proof.
  destruct o as [[[r k] d]| |]; simpl; intros; try lia; auto.
Qed.

Lemma scanDetails_ends fuel items :
  forall rec currentIdx foundMutasi detailLines,
    (length items - currentIdx < fuel)%nat ->
    ends_from currentIdx (scanDetails fuel items rec currentIdx foundMutasi detailLines).
Proof.
  induction fuel as [|fuel IH]; intros rec i found dl Hfuel; [lia|].
  rewrite scanDetails_unfold.
  destruct (nth_error items i) as [nextItem|] eqn:Hnth; [|simpl; lia].
  assert (Hi : (i < length items)%nat) by (apply nth_error_Some; congruence).
  destruct (test dateRgx (str nextItem)); [simpl; lia|].
  cbv zeta.
  assert (Hnext : forall r j f d, (i < j)%nat ->
            ends_from i (if isEndMarker (str nextItem) then Returns (r, j, d)
                         else scanDetails fuel items r j f d)).
  { intros r j f d Hj. destruct (isEndMarker (str nextItem)); [simpl; lia|].
    apply ends_from_le with j; [lia|]. apply IH. lia. }
  destruct (test moneyRgx (str nextItem)).
  - unfold followedByDB.
    destruct (i + 1 <? length items)%nat.
    + destruct (nth_error items (i + 2)) as [it2|]; [|exact I].
      destruct (str it2 =? "DB")%string; [apply Hnext; lia|].
      destruct (negb found); [apply Hnext; lia|simpl; lia].
    + destruct (negb found); [apply Hnext; lia|simpl; lia].
  - apply Hnext; lia.
Qed.

Lemma scanRows_fuel fuel items tahun :
  forall txrecs currentRecord currentIdx,
    (length items - currentIdx < fuel)%nat ->
    scanRows fuel items tahun txrecs currentRecord currentIdx <> OutOfFuel.
Proof.
  induction fuel as [|fuel IH]; intros txrecs cur i Hfuel; [lia|].
  rewrite scanRows_unfold.
  destruct (nth_error items i) as [item|] eqn:Hnth; [|discriminate].
  assert (Hi : (i < length items)%nat) by (apply nth_error_Some; congruence).
  destruct (isEndMarker (str item)); [discriminate|].
  destruct (test dateRgx (str item)); [|apply IH; lia].
  cbv zeta.
  set (start :=
         match nth_error items (i + 1) with
         | Some it => (with_ket (mkTrx tahun (str item) "" credit (Num 0) (Num 0)) (str it),
                       (i + 1 + 1)%nat)
         | None => (mkTrx tahun (str item) "" credit (Num 0) (Num 0), (i + 1)%nat)
         end).
  assert (Hstart : (i < snd start)%nat).
  { unfold start. destruct (nth_error items (i + 1)); simpl; lia. }
  destruct start as [rec j]; simpl in Hstart.
  set (j' := match nth_error items j with
             | Some it => if (str it =? "CBG")%string then (j + 2)%nat else j
             | None => j
             end).
  assert (Hj' : (i < j')%nat).
  { unfold j'. destruct (nth_error items j) as [it|]; [destruct (str it =? "CBG")%string|]; lia. }
  pose proof (scanDetails_ends (S (length items)) items rec j' false []) as Hends.
  destruct (scanDetails (S (length items)) items rec j' false []) as [[[r k] d]| |].
  - simpl in Hends. apply IH. assert (j' <= k)%nat by (apply Hends; lia). lia.
  - discriminate.
  - exfalso. apply Hends. lia.
Qed.

Lemma parseTable_fuel items tahun : parseTable items tahun <> OutOfFuel.
Proof.
  unfold parseTable.
  destruct (findIndex _ items); [|discriminate].
  destruct (findIndex _ items); [|discriminate].
  destruct (firstIndexAfter _ items _); [|discriminate].
  apply scanRows_fuel. lia.
Qed.

(** [parseBCAItems] returns or throws: its loops terminate. *)
Lemma parseBCAItems_terminates items : parseBCAItems items <> OutOfFuel.
Proof.
  unfold parseBCAItems.
  destruct (findIndex _ items); [apply parseTable_fuel|discriminate].
Qed.

End BCAFacts.

(** *** An invariant of the records under construction *)

Module BCAInvariant.
Import BCA BCAFacts Vocabulary.

Section RecordInvariant.
Variable items : list TextItem.
Variable tahun0 : jsnum.
Variable P : TrxRecord -> Prop.

(** [P] holds of a record when it is opened at a date token, and the
    assignments of the loops keep it. *)
Hypothesis P_new : forall t, In t items -> test dateRgx (str t) = true ->
  P (mkTrx tahun0 (str t) "" credit (Num 0) (Num 0)).
Hypothesis P_ket : forall r k, P r -> P (with_ket r k).
Hypothesis P_type : forall r k, P r -> P (with_type r k).
Hypothesis P_mutasi : forall r m, P r -> P (with_mutasi r m).
Hypothesis P_saldo : forall r t, P r -> In t items -> test moneyRgx (str t) = true ->
  P (with_saldo r (parseFloat (removeAll (is_char ",") (str t)))).

Lemma scanDetails_keeps fuel :
  forall rec currentIdx foundMutasi detailLines,
    P rec -> holds_after P (scanDetails fuel items rec currentIdx foundMutasi detailLines).
Proof.
  induction fuel as [|fuel IH]; intros rec i found dl Hrec; [exact I|].
  rewrite scanDetails_unfold.
  destruct (nth_error items i) as [nextItem|] eqn:Hnth; [|exact Hrec].
  apply nth_error_In in Hnth.
  destruct (test dateRgx (str nextItem)); [exact Hrec|].
  cbv zeta.
  assert (Hnext : forall r j f d, P r ->
            holds_after P (if isEndMarker (str nextItem) then Returns (r, j, d)
                         else scanDetails fuel items r j f d)).
  { intros r j f d Hr. destruct (isEndMarker (str nextItem)); [exact Hr|]. now apply IH. }
  destruct (test moneyRgx (str nextItem)) eqn:Hmoney; [|now apply Hnext].
  destruct (followedByDB items i) as [[|]| |]; try exact I.
  - apply Hnext. now apply P_mutasi, P_type.
  - destruct (negb found).
    + apply Hnext. now apply P_mutasi, P_type.
    + simpl. now apply P_saldo.
Qed.

Lemma pushDated_keeps txrecs cur :
  Forall P txrecs -> (forall r, cur = Some r -> P r) -> Forall P (pushDated txrecs cur).
Proof.
  intros Hall Hcur. unfold pushDated.
  destruct cur as [r|]; [|exact Hall].
  destruct (truthy (tgl r)); [|exact Hall].
  apply Forall_app. split; [exact Hall|]. constructor; [now apply Hcur|constructor].
Qed.

Lemma addDetails_keeps rec dl : P rec -> P (addDetails rec dl).
Proof.
  intros H. unfold addDetails. destruct dl; [exact H|].
  destruct (truthy (ket rec)); now apply P_ket.
Qed.

Lemma markSaldoAwal_keeps rec : P rec -> P (markSaldoAwal rec).
Proof.
  intros H. unfold markSaldoAwal.
  destruct (toUpperCase (ket rec) =? "SALDO AWAL")%string; [now apply P_type|exact H].
Qed.

Lemma extendKet_keeps cur item :
  (forall r, cur = Some r -> P r) -> forall r, extendKet cur item = Some r -> P r.
Proof.
  intros Hcur r. unfold extendKet. destruct cur as [r0|]; [|discriminate].
  destruct (_ && _); intros [= <-]; [apply P_ket|]; now apply Hcur.
Qed.

Lemma scanRows_keeps fuel :
  forall txrecs currentRecord currentIdx recs,
    Forall P txrecs -> (forall r, currentRecord = Some r -> P r) ->
    scanRows fuel items tahun0 txrecs currentRecord currentIdx = Returns recs ->
    Forall P recs.
Proof.
  induction fuel as [|fuel IH]; intros txrecs cur i recs Hall Hcur; [discriminate|].
  rewrite scanRows_unfold.
  destruct (nth_error items i) as [item|] eqn:Hnth;
    [|intros [= <-]; now apply pushDated_keeps].
  apply nth_error_In in Hnth.
  destruct (isEndMarker (str item)); [intros [= <-]; now apply pushDated_keeps|].
  destruct (test dateRgx (str item)) eqn:Hdate.
  - cbv zeta.
    pose proof (P_new item Hnth Hdate) as Hnew.
    set (start :=
           match nth_error items (i + 1) with
           | Some it => (with_ket (mkTrx tahun0 (str item) "" credit (Num 0) (Num 0)) (str it),
                         (i + 1 + 1)%nat)
           | None => (mkTrx tahun0 (str item) "" credit (Num 0) (Num 0), (i + 1)%nat)
           end).
    assert (Hstart : P (fst start)).
    { unfold start. destruct (nth_error items (i + 1)); simpl; [now apply P_ket|exact Hnew]. }
    destruct start as [rec j]; simpl in Hstart.
    match goal with
    | |- context [scanDetails ?f items rec ?k false []] =>
        pose proof (scanDetails_keeps f rec k false [] Hstart) as Hin;
        destruct (scanDetails f items rec k false []) as [[[r' k'] d]| |]
    end; try discriminate.
    simpl in Hin. apply IH.
    + now apply pushDated_keeps.
    + intros r [= <-]. now apply markSaldoAwal_keeps, addDetails_keeps.
  - apply IH; [exact Hall|]. now apply extendKet_keeps.
Qed.

(** Every record that [parseTable] returns satisfies the invariant. *)
Lemma parseTable_keeps recs :
  parseTable items tahun0 = Returns recs -> Forall P recs.
Proof.
  unfold parseTable.
  destruct (findIndex _ items); [|intros [= <-]; constructor].
  destruct (findIndex _ items); [|intros [= <-]; constructor].
  destruct (firstIndexAfter _ items _); [|intros [= <-]; constructor].
  apply scanRows_keeps; [constructor|discriminate].
Qed.

End RecordInvariant.

(** the year of every record is the year given to the table scan *)
Lemma parseTable_tahun items tahun0 recs r :
  parseTable items tahun0 = Returns recs -> In r recs -> tahun r = tahun0.
Proof.
  intros Hrun Hin.
  pose proof (parseTable_keeps items tahun0 (fun r => tahun r = tahun0)) as H.
  cbv beta in H.
  assert (Hall : Forall (fun r => tahun r = tahun0) recs) by (apply H; auto).
  rewrite Forall_forall in Hall. now apply Hall.
Qed.

(** the date of every record is a token that the date pattern accepts *)
Lemma parseTable_tgl items tahun0 recs r :
  parseTable items tahun0 = Returns recs -> In r recs -> test dateRgx (tgl r) = true.
Proof.
  intros Hrun Hin.
  pose proof (parseTable_keeps items tahun0 (fun r => test dateRgx (tgl r) = true)) as H.
  cbv beta in H.
  assert (Hall : Forall (fun r => test dateRgx (tgl r) = true) recs) by (apply H; auto).
  rewrite Forall_forall in Hall. now apply Hall.
Qed.

(** the date of every record is the string of a date token of the page *)
Lemma parseTable_date_token items tahun0 recs r :
  parseTable items tahun0 = Returns recs -> In r recs ->
  exists t, In t items /\ test dateRgx (str t) = true /\ tgl r = str t.
Proof.
  intros Hrun Hin.
  pose proof (parseTable_keeps items tahun0
     (fun r => exists t, In t items /\ test dateRgx (str t) = true /\ tgl r = str t)) as H.
  cbv beta in H.
  assert (Hall : Forall (fun r => exists t, In t items /\ test dateRgx (str t) = true
                                            /\ tgl r = str t) recs).
  { apply H; auto. intros t Ht Hd. exists t. auto. }
  rewrite Forall_forall in Hall. now apply Hall.
Qed.


(** *** The year is only carried: the scan does not depend on it *)

Section YearIrrelevant.
Variable items : list TextItem.
Variables y y' : jsnum.








End YearIrrelevant.

End BCAInvariant.

(* ================================================================== *)
(** ** Facts about arrays and numbers *)

Module ArrayFacts.
Import Vocabulary.

Lemma In_insert {A} (cmp : A -> A -> Q) a b l : In a (insert cmp b l) <-> a = b \/ In a l.
Proof.
  induction l as [|c l IH]; simpl.
  - intuition.
  - destruct (Qle_bool (cmp b c) 0); simpl; [intuition|].
    rewrite IH. intuition.
Qed.

(** sorting keeps the elements *)
Lemma In_sortBy {A} (cmp : A -> A -> Q) a l : In a (sortBy cmp l) <-> In a l.
Proof.
  induction l as [|b l IH]; simpl; [tauto|].
  rewrite In_insert, IH. intuition.
Qed.

Lemma length_insert {A} (cmp : A -> A -> Q) b l : length (insert cmp b l) = S (length l).
Proof.
  induction l as [|c l IH]; simpl; [reflexivity|].
  destruct (Qle_bool (cmp b c) 0); simpl; congruence.
Qed.

Lemma length_sortBy {A} (cmp : A -> A -> Q) l : length (sortBy cmp l) = length l.
Proof.
  induction l as [|b l IH]; simpl; [reflexivity|].
  now rewrite length_insert, IH.
Qed.

Lemma In_mapPush {V} k (v a : V) m :
  In a (members (mapPush k v m)) <-> a = v \/ In a (members m).
Proof.
  unfold members. induction m as [|[k' vs] m IH]; simpl.
  - intuition.
  - destruct (k' =? k)%Z; simpl; rewrite !in_app_iff.
    + simpl. intuition.
    + rewrite IH. intuition.
Qed.

Lemma In_fold_mapPush {V} (key : V -> Z) a items :
  forall m, In a (members (fold_left (fun m v => mapPush (key v) v m) items m))
            <-> In a items \/ In a (members m).
Proof.
  induction items as [|v items IH]; intros m; simpl; [tauto|].
  rewrite IH, In_mapPush. intuition.
Qed.

Lemma In_members {V} k (vs : list V) m a : In (k, vs) m -> In a vs -> In a (members m).
Proof.
  intros Hm Ha. unfold members. apply in_flat_map. exists (k, vs). auto.
Qed.

Lemma In_mapGet {V} k (m : list (Z * list V)) a : In a (mapGet k m) -> In a (members m).
Proof.
  unfold members. induction m as [|[k' vs] m IH]; simpl; [tauto|].
  rewrite in_app_iff. destruct (k' =? k)%Z; auto.
Qed.

Lemma In_mapi_from {A B} (f : A -> nat -> B) l :
  forall i b, In b (mapi_from f l i) -> exists a j, In a l /\ b = f a j.
Proof.
  induction l as [|a l IH]; simpl; intros i b; [tauto|].
  intros [<-|H]; [exists a, i; auto|].
  destruct (IH _ _ H) as (a' & j & Ha & ->). exists a', j. auto.
Qed.

Lemma In_mapi {A B} (f : A -> nat -> B) l b :
  In b (mapi f l) -> exists a j, In a l /\ b = f a j.
Proof. apply In_mapi_from. Qed.

Lemma In_skipn {A} n (l : list A) a : In a (skipn n l) -> In a l.
Proof.
  revert l. induction n as [|n IH]; intros [|b l]; simpl; auto.
Qed.

End ArrayFacts.

Module NumberFacts.
Import Vocabulary.

Lemma removeAll_sign s : all_chars unsigned_char (removeAll Mandiri.is_sign s) = true.
Proof.
  induction s as [|c s IH]; simpl; [reflexivity|].
  destruct (Mandiri.is_sign c) eqn:Hc; [exact IH|].
  simpl. rewrite IH. unfold unsigned_char. now rewrite Hc.
Qed.

Lemma trimStart_all p s : all_chars p s = true -> all_chars p (trimStart s) = true.
Proof.
  induction s as [|c s IH]; simpl; [auto|].
  intros H. destruct (is_space c); [|exact H].
  apply andb_true_iff in H. now apply IH.
Qed.

Lemma read_sign_unsigned s :
  all_chars unsigned_char s = true -> read_sign s = (false, s).
Proof.
  destruct s as [|c s]; [reflexivity|].
  simpl. intros H. apply andb_true_iff in H. destruct H as [Hc _].
  unfold unsigned_char, Mandiri.is_sign, is_char in Hc.
  apply negb_true_iff, orb_false_iff in Hc. destruct Hc as [Hp Hm].
  apply Ascii.eqb_neq in Hp, Hm.
  unfold read_sign.
  destruct c as [[] [] [] [] [] [] [] []]; try reflexivity; congruence.
Qed.

Lemma digits_value_nonneg s : forall acc, (0 <= acc)%Z -> (0 <= digits_value acc s)%Z.
Proof.
  induction s as [|c s IH]; intros acc H; [exact H|].
  cbn [digits_value]. apply IH.
  pose proof (Nat2Z.is_nonneg (code c - 48)). unfold digit_val. lia.
Qed.

Lemma pow10_pos e : 0 < pow10 e.
Proof.
  destruct e as [|p|p]; simpl.
  - reflexivity.
  - unfold Qlt; simpl. pose proof (Z.pow_pos_nonneg 10 (Zpos p)). lia.
  - reflexivity.
Qed.

(** an unsigned decimal literal has a non-negative value *)
Lemma read_decimal_nonneg s q : read_decimal s = Some q -> 0 <= q.
Proof.
  unfold read_decimal.
  destruct (span_digits s) as [ip r1].
  destruct (match r1 with String "." r => span_digits r | _ => (EmptyString, r1) end) as [fp r2].
  destruct ((ip =? "") && (fp =? ""))%bool; [discriminate|].
  intros H.
  match type of H with
  | Some (Qred ?v) = Some _ =>
      assert (Hq : q == v) by (assert (E : q = Qred v) by congruence;
                               rewrite E; apply Qred_correct)
  end.
  clear H. apply Qle_trans with (inject_Z (digits_value 0 (ip ++ fp))
                                 * pow10 (read_exponent r2 - Z.of_nat (String.length fp)));
    [|apply Qle_lteq; right; symmetry; exact Hq].
  apply Qmult_le_0_compat.
  - unfold Qle; simpl. pose proof (digits_value_nonneg (ip ++ fp) 0). lia.
  - apply Qlt_le_weak, pow10_pos.
Qed.

(** [parseFloat] of a string without sign characters is never negative *)
Lemma parseFloat_unsigned s :
  all_chars unsigned_char s = true -> nonnegative (parseFloat s).
Proof.
  intros H. unfold parseFloat.
  rewrite (read_sign_unsigned (trimStart s)) by now apply trimStart_all.
  destruct (read_decimal (trimStart s)) as [q|] eqn:Hq; [|now left].
  right. exists q. split; [reflexivity|]. now apply read_decimal_nonneg in Hq.
Qed.

Lemma abs_nonnegative n : nonnegative (abs n).
Proof.
  destruct n as [|q]; [now left|right].
  exists (Qred (Qabs q)). split; [reflexivity|].
  apply Qle_trans with (Qabs q); [apply Qabs_nonneg|].
  apply Qle_lteq. right. symmetry. apply Qred_correct.
Qed.

Lemma nonnegative_not_negative n : nonnegative n -> ~ Strategies.negative n.
Proof.
  intros [->|(q & -> & Hq)]; simpl; [tauto|].
  intros Hneg. apply (Qlt_not_le _ _ Hneg Hq).
Qed.

End NumberFacts.

(* ================================================================== *)
(** ** Facts about patterns: derivatives decide the language *)

Module RegexFacts.
Import Vocabulary.

Lemma append_empty s1 s2 : (s1 ++ s2)%string = "" -> s1 = "" /\ s2 = "".
Proof. destruct s1; simpl; [auto|discriminate]. Qed.

Lemma lang_Eps_inv s : lang Eps s -> s = "".
Proof. now inversion 1. Qed.

Lemma lang_Cls_inv p s : lang (Cls p) s -> exists c, s = String c "" /\ p c = true.
Proof. inversion 1; subst. eauto. Qed.

Lemma lang_Seq_inv a b s :
  lang (Seq a b) s -> exists s1 s2, s = (s1 ++ s2)%string /\ lang a s1 /\ lang b s2.
Proof. inversion 1; subst. eauto. Qed.

Lemma lang_Alt_inv a b s : lang (Alt a b) s -> lang a s \/ lang b s.
Proof. inversion 1; subst; auto. Qed.

Lemma lang_Star_inv a s :
  lang (Star a) s ->
  s = "" \/ exists s1 s2, s = (s1 ++ s2)%string /\ lang a s1 /\ lang (Star a) s2.
Proof.
  inversion 1; subst; [now left|right].
  eexists _, _. repeat split; eassumption.
Qed.

Lemma nullable_sound r : nullable r = true -> lang r "".
Proof.
  induction r; simpl; intros H; try discriminate.
  - constructor.
  - apply andb_true_iff in H. destruct H.
    change (lang (Seq r1 r2) ("" ++ "")). constructor; auto.
  - apply orb_true_iff in H. destruct H; [apply lang_alt_l|apply lang_alt_r]; auto.
  - constructor.
Qed.

Lemma nullable_complete r s : lang r s -> s = "" -> nullable r = true.
Proof.
  induction 1; intros E; simpl; try reflexivity; try discriminate.
  - apply append_empty in E. destruct E. rewrite IHlang1, IHlang2; auto.
  - rewrite IHlang; auto.
  - rewrite IHlang; auto. apply orb_true_r.
Qed.

Lemma deriv_sound r : forall c s, lang (deriv c r) s -> lang r (String c s).
Proof.
  induction r; simpl; intros c s H.
  - inversion H.
  - inversion H.
  - destruct (b c) eqn:Hb; [|inversion H].
    apply lang_Eps_inv in H. subst. now constructor.
  - assert (Hleft : lang (Seq (deriv c r1) r2) s -> lang (Seq r1 r2) (String c s)).
    { intros H1. apply lang_Seq_inv in H1. destruct H1 as (s1 & s2 & -> & Ha & Hb).
      change (lang (Seq r1 r2) (String c s1 ++ s2)). constructor; auto. }
    destruct (nullable r1) eqn:Hn; [|auto].
    apply lang_Alt_inv in H. destruct H as [H|H]; [auto|].
    change (lang (Seq r1 r2) ("" ++ String c s)). constructor; auto.
    now apply nullable_sound.
  - apply lang_Alt_inv in H. destruct H; [apply lang_alt_l|apply lang_alt_r]; auto.
  - apply lang_Seq_inv in H. destruct H as (s1 & s2 & -> & Ha & Hb).
    change (lang (Star r) (String c s1 ++ s2)). constructor; auto.
Qed.

Lemma deriv_complete r w : lang r w -> forall c s, w = String c s -> lang (deriv c r) s.
Proof.
  induction 1; intros c0 s0 E; simpl.
  - discriminate.
  - injection E as <- <-. rewrite H. constructor.
  - destruct s1 as [|c1 s1'].
    + simpl in E. rewrite (nullable_complete a "" H eq_refl).
      apply lang_alt_r. now apply IHlang2.
    + simpl in E. injection E as <- <-.
      assert (Hl : lang (Seq (deriv c1 a) b) (s1' ++ s2))
        by (constructor; auto).
      destruct (nullable a); [now apply lang_alt_l|exact Hl].
  - apply lang_alt_l. now apply IHlang.
  - apply lang_alt_r. now apply IHlang.
  - discriminate.
  - destruct s1 as [|c1 s1'].
    + simpl in E. now apply IHlang2.
    + simpl in E. injection E as <- <-. constructor; auto.
Qed.

(** a test with [^r$] succeeds exactly on the strings of the language *)
Theorem matches_lang r s : matches r s = true <-> lang r s.
Proof.
  revert r. induction s as [|c s IH]; intros r; simpl.
  - split; [apply nullable_sound|intros H; now apply (nullable_complete r "")].
  - rewrite IH. split; [apply deriv_sound|intros H; now apply (deriv_complete r _ H)].
Qed.

(** *** Character classes and repetition *)

Lemma append_assoc (s1 s2 s3 : string) :
  ((s1 ++ s2) ++ s3)%string = (s1 ++ (s2 ++ s3))%string.
Proof. induction s1 as [|c s1 IH]; simpl; congruence. Qed.

Lemma append_empty_r (s : string) : (s ++ "")%string = s.
Proof. induction s as [|c s IH]; simpl; congruence. Qed.

Lemma all_chars_app p s1 s2 :
  all_chars p (s1 ++ s2) = all_chars p s1 && all_chars p s2.
Proof.
  induction s1 as [|c s1 IH]; simpl; [reflexivity|].
  now rewrite IH, andb_assoc.
Qed.


Lemma lang_Lit_inv c s : lang (Lit c) s -> s = String c "".
Proof.
  intros H. apply lang_Cls_inv in H. destruct H as (x & -> & Hx).
  unfold is_char in Hx. apply Ascii.eqb_eq in Hx. now subst.
Qed.

Lemma lang_Lit c : lang (Lit c) (String c "").
Proof. constructor. unfold is_char. apply Ascii.eqb_refl. Qed.

Lemma lang_Opt_inv r s : lang (Opt r) s -> s = "" \/ lang r s.
Proof.
  intros H. apply lang_Alt_inv in H. destruct H as [H|H]; [|now right].
  left. now apply lang_Eps_inv.
Qed.

Lemma lang_Rep_cls p n : forall s,
  lang (Rep n (Cls p)) s <-> all_chars p s = true /\ String.length s = n.
Proof.
  induction n as [|n IH]; intros s; simpl.
  - split.
    + intros H. apply lang_Eps_inv in H. now subst.
    + intros [_ H]. destruct s; [constructor|discriminate].
  - split.
    + intros H. apply lang_Seq_inv in H. destruct H as (s1 & s2 & -> & H1 & H2).
      apply lang_Cls_inv in H1. destruct H1 as (c & -> & Hc).
      apply IH in H2. destruct H2 as [Ha Hl]. simpl. now rewrite Hc, Ha, Hl.
    + intros [Ha Hl]. destruct s as [|c s]; [discriminate|].
      simpl in Ha, Hl. apply andb_true_iff in Ha. destruct Ha as [Hc Ha].
      change (lang (Seq (Cls p) (Rep n (Cls p))) (String c "" ++ s)).
      constructor; [now constructor|]. apply IH. split; [exact Ha|congruence].
Qed.

Lemma lang_Star_cls_inv p r s :
  lang r s -> r = Star (Cls p) -> all_chars p s = true.
Proof.
  induction 1; intros E; try discriminate; [reflexivity|].
  injection E as ->. apply lang_Cls_inv in H. destruct H as (c & -> & Hc).
  simpl. rewrite Hc. now apply IHlang2.
Qed.

Lemma lang_Star_cls p s : lang (Star (Cls p)) s <-> all_chars p s = true.
Proof.
  split; [intros H; now apply (lang_Star_cls_inv p _ _ H)|].
  induction s as [|c s IH]; simpl; intros H; [constructor|].
  apply andb_true_iff in H. destruct H as [Hc Hs].
  change (lang (Star (Cls p)) (String c "" ++ s)).
  constructor; [now constructor|auto].
Qed.

Lemma lang_Plus_cls p s :
  lang (Plus (Cls p)) s <-> exists c s', s = String c s' /\ p c = true /\ all_chars p s' = true.
Proof.
  unfold Plus. split.
  - intros H. apply lang_Seq_inv in H. destruct H as (s1 & s2 & -> & H1 & H2).
    apply lang_Cls_inv in H1. destruct H1 as (c & -> & Hc).
    apply lang_Star_cls in H2. exists c, s2. auto.
  - intros (c & s' & -> & Hc & Hs).
    change (lang (Seq (Cls p) (Star (Cls p))) (String c "" ++ s')).
    constructor; [now constructor|now apply lang_Star_cls].
Qed.

End RegexFacts.

(* ================================================================== *)
(** ** Facts about the date patterns *)

Module DateFacts.
Import Vocabulary RegexFacts Strategies.

Lemma lang_two_classes p q s :
  lang (Seq (Cls p) (Cls q)) s -> exists a b, s = String a (String b "").
Proof.
  intros H. apply lang_Seq_inv in H. destruct H as (s1 & s2 & -> & H1 & H2).
  apply lang_Cls_inv in H1. destruct H1 as (a & -> & _).
  apply lang_Cls_inv in H2. destruct H2 as (b & -> & _).
  exists a, b. reflexivity.
Qed.

(** a DD/MM date has '/' as its third character *)
Lemma bca_date_third t : matches BCA.dateRgx t = true -> third t = Some "/"%char.
Proof.
  intros H. apply matches_lang in H.
  apply lang_Seq_inv in H. destruct H as (s1 & s2 & -> & H1 & H2).
  apply lang_Seq_inv in H2. destruct H2 as (s3 & s4 & -> & H3 & _).
  apply lang_Lit_inv in H3. subst s3.
  assert (Hday : exists a b, s1 = String a (String b "")).
  { apply lang_Alt_inv in H1. destruct H1 as [H1|H1]; [now apply lang_two_classes in H1|].
    apply lang_Alt_inv in H1. destruct H1 as [H1|H1]; now apply lang_two_classes in H1. }
  destruct Hday as (a & b & ->). reflexivity.
Qed.

(** a textual date begins with two digits and a white space *)
Lemma mandiri_date_head R t :
  lang (Seq (Rep 2 Mandiri.digit) (Seq (Plus Mandiri.space) R)) t ->
  exists d1 d2 w rest,
    t = String d1 (String d2 (String w rest))
    /\ is_digit d1 = true /\ is_digit d2 = true /\ is_space w = true.
Proof.
  intros H. apply lang_Seq_inv in H. destruct H as (s1 & s2 & -> & H1 & H2).
  apply (lang_Rep_cls is_digit 2) in H1. destruct H1 as [Ha Hl].
  destruct s1 as [|d1 [|d2 [|c s1]]]; try discriminate.
  simpl in Ha. apply andb_true_iff in Ha. destruct Ha as [Hd1 Ha].
  apply andb_true_iff in Ha. destruct Ha as [Hd2 _].
  apply lang_Seq_inv in H2. destruct H2 as (s3 & s4 & -> & H3 & _).
  apply (lang_Plus_cls is_space) in H3. destruct H3 as (w & s' & -> & Hw & _).
  exists d1, d2, w, (s' ++ s4)%string. auto.
Qed.

Lemma dateAccepts_head s t :
  s <> Sequential -> dateAccepts s t = true ->
  exists d1 d2 w rest,
    t = String d1 (String d2 (String w rest))
    /\ is_digit d1 = true /\ is_digit d2 = true /\ is_space w = true.
Proof.
  intros Hs H. destruct s; simpl in H; [congruence| | |].
  - apply orb_true_iff in H. destruct H as [H|H]; apply matches_lang in H;
      now apply mandiri_date_head in H.
  - apply matches_lang in H. now apply mandiri_date_head in H.
  - apply matches_lang in H. now apply mandiri_date_head in H.
Qed.

Lemma all_chars_third p s c : all_chars p s = true -> third s = Some c -> p c = true.
Proof.
  destruct s as [|a [|b [|x s]]]; simpl; try discriminate.
  intros H [= <-].
  apply andb_true_iff in H. destruct H as [_ H].
  apply andb_true_iff in H. destruct H as [_ H].
  apply andb_true_iff in H. tauto.
Qed.

Lemma split_nonempty sep s : exists h t, split sep s = h :: t.
Proof.
  destruct s as [|c s]; simpl; [eauto|].
  destruct (is_char c sep); [eauto|].
  destruct (split sep s); eauto.
Qed.

(** the part before the first separator holds no separator, and is a
    prefix of the string *)
Lemma hd_split_no_sep sep s :
  all_chars (fun x => negb (is_char x sep)) (hd "" (split sep s)) = true.
Proof.
  induction s as [|c s IH]; simpl; [reflexivity|].
  destruct (is_char c sep) eqn:Hc; [reflexivity|].
  destruct (split sep s) as [|h t]; simpl in *; now rewrite Hc.
Qed.

Lemma prefix_refl s : String.prefix s s = true.
Proof.
  induction s as [|c s IH]; simpl; [reflexivity|].
  destruct (ascii_dec c c); [exact IH|congruence].
Qed.

Lemma prefix_empty s : String.prefix "" s = true.
Proof. destruct s; reflexivity. Qed.

Lemma hd_split_prefix sep s : String.prefix (hd "" (split sep s)) s = true.
Proof.
  induction s as [|c s IH]; simpl; [reflexivity|].
  destruct (is_char c sep); [reflexivity|].
  destruct (split sep s) as [|h t]; simpl in *.
  - destruct (ascii_dec c c); [apply prefix_empty|congruence].
  - destruct (ascii_dec c c); [exact IH|congruence].
Qed.

Lemma space_not_slash w : is_space w = true -> w <> "/"%char.
Proof. intros H ->. vm_compute in H. discriminate. Qed.

Lemma digit_not_space d : is_digit d = true -> is_char d " " = false.
Proof.
  intros H. destruct (is_char d " ") eqn:E; [|reflexivity].
  unfold is_char in E. apply Ascii.eqb_eq in E. subst. vm_compute in H. discriminate.
Qed.

(** the date that the direct token parser makes of a textual date has a
    white space as its third character *)
Lemma direct_date_third d1 d2 w rest :
  is_digit d1 = true -> is_digit d2 = true -> is_space w = true ->
  exists w', third (dateOf DirectToken (String d1 (String d2 (String w rest)))) = Some w'
             /\ is_space w' = true.
Proof.
  intros H1 H2 Hw. unfold dateOf. cbn [split].
  rewrite (digit_not_space d1 H1), (digit_not_space d2 H2).
  destruct (is_char w " ") eqn:Ew.
  - exists " "%char. split; reflexivity.
  - destruct (split_nonempty " " rest) as (h & t & ->).
    exists w. split; [reflexivity|exact Hw].
Qed.

(** the date of a Format-B record is never of the form DD/MM *)
Lemma formatB_date_shape s t d :
  s <> Sequential -> dateAccepts s t = true ->
  d = dateOf s t -> matches BCA.dateRgx d = false.
Proof.
  intros Hs Hacc ->.
  destruct (matches BCA.dateRgx (dateOf s t)) eqn:Hm; [exfalso|reflexivity].
  apply bca_date_third in Hm.
  destruct (dateAccepts_head s t Hs Hacc) as (d1 & d2 & w & rest & -> & H1 & H2 & Hw).
  destruct s; [congruence| | |].
  - unfold dateOf in Hm.
    destruct (includes _ "/").
    + pose proof (hd_split_no_sep "/" (String d1 (String d2 (String w rest)))) as Hno.
      pose proof (all_chars_third _ _ _ Hno Hm) as Habs.
      vm_compute in Habs. discriminate.
    + simpl in Hm. injection Hm as ->. now apply space_not_slash in Hw.
  - destruct (direct_date_third d1 d2 w rest H1 H2 Hw) as (w' & Ht & Hw').
    rewrite Ht in Hm. injection Hm as ->. now apply space_not_slash in Hw'.
  - simpl in Hm. injection Hm as ->. now apply space_not_slash in Hw.
Qed.

(** the date that a strategy keeps comes from the token as [dateFrom] says *)
Lemma dateOf_dateFrom s t : dateFrom s t (dateOf s t).
Proof.
  destruct s; simpl; try reflexivity.
  - destruct (includes t "/"); [apply hd_split_prefix|apply prefix_refl].
  - apply prefix_refl.
Qed.

End DateFacts.

(* ================================================================== *)
(** ** Facts about the money patterns *)

Module MoneyFacts.
Import Vocabulary RegexFacts Strategies.

Lemma lang_seq_intro a b s s1 s2 :
  lang a s1 -> lang b s2 -> s = (s1 ++ s2)%string -> lang (Seq a b) s.
Proof. intros Ha Hb ->. now constructor. Qed.

Lemma all_chars_impl (p q : ascii -> bool) s :
  (forall c, p c = true -> q c = true) -> all_chars p s = true -> all_chars q s = true.
Proof.
  intros Hpq. induction s as [|c s IH]; simpl; [auto|].
  intros H. apply andb_true_iff in H. destruct H as [Hc Hs].
  now rewrite (Hpq c Hc), IH.
Qed.




(** *** Format B *)

Lemma groups_numchar g : groups_of "." g -> all_chars Mandiri.is_numchar g = true.
Proof.
  induction 1 as [|g rest Hd Hl _ IH]; [reflexivity|].
  simpl. rewrite all_chars_app, IH.
  rewrite (all_chars_impl is_digit Mandiri.is_numchar g); [reflexivity| |exact Hd].
  intros c Hc. unfold Mandiri.is_numchar. now rewrite Hc.
Qed.

(** the unsigned part of the three patterns accepts the period-thousands,
    comma-decimal values *)
Lemma unsigned_accepts v :
  period_thousands_comma_decimal v ->
  lang (Seq (Plus Mandiri.numchar) (Seq (Lit ",") (Rep 2 Mandiri.digit))) v.
Proof.
  intros (lead & g & frac & -> & Hld & Hll & Hg & Hfd & Hfl).
  rewrite <- append_assoc.
  constructor.
  - destruct lead as [|d lead]; [simpl in Hll; lia|].
    apply (lang_Plus_cls Mandiri.is_numchar). exists d, (lead ++ g)%string.
    simpl in Hld. apply andb_true_iff in Hld. destruct Hld as [Hd Hld].
    split; [reflexivity|]. split; [unfold Mandiri.is_numchar; now rewrite Hd|].
    rewrite all_chars_app, (groups_numchar g Hg), andb_true_r.
    apply (all_chars_impl is_digit); [|exact Hld].
    intros c Hc. unfold Mandiri.is_numchar. now rewrite Hc.
  - apply lang_seq_intro with (String "," "") frac; [apply lang_Lit| |reflexivity].
    apply (lang_Rep_cls is_digit 2). auto.
Qed.

(** every Format-B amount pattern accepts the unsigned values and the
    values with a leading '-' *)
Theorem formatB_accepts_unsigned_and_minus s v :
  s <> Sequential -> period_thousands_comma_decimal v ->
  amountAccepts s v = true /\ amountAccepts s (String "-" v) = true.
Proof.
  intros Hs Hv. pose proof (unsigned_accepts v Hv) as Hu.
  destruct s; [congruence| | |]; unfold amountAccepts, Mandiri.isAmountText, Mandiri.test.
  - split.
    + replace (matches Mandiri.unsignedRgx v) with true
        by (symmetry; now apply matches_lang).
      now rewrite !orb_true_r.
    + replace (matches Mandiri.negativeRgx (String "-" v)) with true; [reflexivity|].
      symmetry. apply matches_lang.
      apply lang_seq_intro with (String "-" "") v; [apply lang_Lit|exact Hu|reflexivity].
  - split; apply matches_lang.
    + apply lang_seq_intro with "" v; [apply lang_alt_l; constructor|exact Hu|reflexivity].
    + apply lang_seq_intro with (String "-" "") v;
        [apply lang_alt_r; now constructor|exact Hu|reflexivity].
  - split; apply matches_lang.
    + apply lang_seq_intro with "" v; [apply lang_alt_l; constructor|exact Hu|reflexivity].
    + apply lang_seq_intro with (String "-" "") v;
        [apply lang_alt_r; apply lang_Lit|exact Hu|reflexivity].
Qed.

(** the row reconstruction and direct token patterns also accept the
    values with a leading '+' *)
Theorem row_and_direct_accept_plus s v :
  s = RowReconstruction \/ s = DirectToken -> period_thousands_comma_decimal v ->
  amountAccepts s (String "+" v) = true.
Proof.
  intros Hs Hv. pose proof (unsigned_accepts v Hv) as Hu.
  destruct Hs as [->| ->]; unfold amountAccepts, Mandiri.isAmountText, Mandiri.test.
  - replace (matches Mandiri.positiveRgx (String "+" v)) with true;
      [now rewrite orb_true_r|].
    symmetry. apply matches_lang.
    apply lang_seq_intro with (String "+" "") v; [apply lang_Lit|exact Hu|reflexivity].
  - apply matches_lang.
    apply lang_seq_intro with (String "+" "") v;
      [apply lang_alt_r; now constructor|exact Hu|reflexivity].
Qed.

(** the pattern-line pattern accepts no string with a leading '+' *)
Lemma minusRgx_rejects_plus v : matches Mandiri.minusRgx (String "+" v) = false.
Proof.
  destruct (matches Mandiri.minusRgx (String "+" v)) eqn:H; [exfalso|reflexivity].
  apply matches_lang in H.
  apply lang_Seq_inv in H. destruct H as (s1 & s2 & E & H1 & H2).
  apply lang_Opt_inv in H1. destruct H1 as [->|H1].
  - simpl in E. subst s2.
    apply lang_Seq_inv in H2. destruct H2 as (s3 & s4 & E & H3 & _).
    apply (lang_Plus_cls Mandiri.is_numchar) in H3. destruct H3 as (c & s' & -> & Hc & _).
    simpl in E. injection E as <- _. vm_compute in Hc. discriminate.
  - apply lang_Lit_inv in H1. subst s1. simpl in E. discriminate.
Qed.

End MoneyFacts.

(* ================================================================== *)
(** ** Facts about the Mandiri parsers *)

Module MandiriFacts.
Import Mandiri Vocabulary ArrayFacts NumberFacts.

Lemma In_records_of {A} (f : A -> option TrxRecord) l r :
  In r (records_of f l) <-> exists a, In a l /\ f a = Some r.
Proof.
  unfold records_of. rewrite in_flat_map. split.
  - intros (a & Ha & Hr). exists a. split; [exact Ha|].
    destruct (f a) as [r'|]; simpl in Hr; [|tauto]. destruct Hr as [->|[]]. reflexivity.
  - intros (a & Ha & Hr). exists a. split; [exact Ha|]. rewrite Hr. now left.
Qed.

(** the cells of the rows are items of the page *)
Lemma groupIntoRows_In items row a :
  In row (groupIntoRows items) -> In a row -> In a items.
Proof.
  unfold groupIntoRows. intros Hrow Ha.
  apply in_map_iff in Hrow. destruct Hrow as ([k vs] & <- & Hkv).
  apply In_sortBy in Hkv. simpl in Ha.
  pose proof (In_members _ _ _ _ Hkv Ha) as Hm.
  apply In_fold_mapPush in Hm. destruct Hm as [Hm|[]]. exact Hm.
Qed.

Lemma groupIntoLines_In items line a :
  In line (groupIntoLines items) -> In a line -> In a items.
Proof.
  unfold groupIntoLines. intros Hline Ha.
  apply in_map_iff in Hline. destruct Hline as (yk & <- & _).
  apply In_mapGet in Ha. unfold members in Ha.
  apply in_flat_map in Ha. destruct Ha as ([k vs] & Hkv & Ha).
  apply in_map_iff in Hkv. destruct Hkv as ([k' vs'] & [= <- <-] & Hkv).
  simpl in Ha. apply In_sortBy in Ha.
  pose proof (In_members _ _ _ _ Hkv Ha) as Hm.
  apply In_fold_mapPush in Hm. destruct Hm as [Hm|[]]. exact Hm.
Qed.

(** what a record of [parseRow] is made of *)
Lemma parseRow_inv year row r :
  parseRow year row = Some r ->
  exists dateItem amountItem balanceItem,
    In dateItem row /\ In amountItem row /\ In balanceItem row /\
    test dateRgx (text dateItem) || test dateDupYearRgx (text dateItem) = true /\
    isAmount amountItem = true /\
    test unsignedRgx (text balanceItem) = true /\
    tahun r = year /\
    tgl r = (if includes (text dateItem) "/" then hd "" (split "/" (text dateItem))
             else text dateItem) /\
    mutasi r = abs (mul (parseFloat (cleanAmount (text amountItem)))
                        (if startsWith (text amountItem) "-" then -1 else 1)) /\
    saldo r = parseFloat (cleanNumber (text balanceItem)) /\
    type r = (if isSaldoAwal (ket r) then saldo_awal
              else if startsWith (text amountItem) "-" then debit else credit).
Proof.
  unfold parseRow. cbv zeta.
  destruct row as [|first rest]; [discriminate|].
  destruct (negb (test ordinalRgx (text first))); [discriminate|].
  destruct (find _ (first :: rest)) as [dateItem|] eqn:Hd; [|discriminate].
  destruct (find isAmount (first :: rest)) as [amountItem|] eqn:Ha; [|discriminate].
  destruct (sortBy _ _) as [|balanceItem others] eqn:Hs; [discriminate|].
  intros H. apply (f_equal (fun o => match o with Some v => v | None => r end)) in H.
  subst r. apply find_some in Hd, Ha.
  assert (Hb : In balanceItem (balanceItem :: others)) by now left.
  rewrite <- Hs in Hb. apply In_sortBy, filter_In in Hb.
  destruct Hb as [Hb Hbt]. apply andb_true_iff in Hbt.
  exists dateItem, amountItem, balanceItem. cbn [tahun tgl ket type mutasi saldo].
  repeat split; try tauto.
Qed.

(** what a record of [parseDate] is made of *)
Lemma parseDate_inv year allItems numbers date r :
  parseDate year allItems numbers date = Some r ->
  exists amountItem balanceItem,
    In amountItem numbers /\ In balanceItem numbers /\
    tahun r = year /\
    tgl r = (nth 0 (split " " (text date)) "undefined" ++ " "
             ++ nth 1 (split " " (text date)) "undefined")%string /\
    mutasi r = parseFloat (cleanAmount (text amountItem)) /\
    saldo r = parseFloat (cleanNumber (text balanceItem)) /\
    type r = (if isSaldoAwal (ket r) then saldo_awal
              else if startsWith (text amountItem) "-" then debit else credit).
Proof.
  unfold parseDate. cbv zeta.
  set (related := sortBy _ (filter _ numbers)).
  assert (Hrel : forall a, In a related -> In a numbers).
  { intros a Ha. apply In_sortBy, filter_In in Ha. tauto. }
  destruct (length related <? 2)%nat; [discriminate|].
  destruct (nth_error related (length related - 1)) as [balanceItem|] eqn:Hb; [|discriminate].
  apply nth_error_In in Hb.
  assert (Ham : forall a,
            match find isSigned related with
            | Some num => Some num
            | None => nth_error related (length related - 2)
            end = Some a -> In a related).
  { intros a. destruct (find isSigned related) as [num|] eqn:Hf.
    - intros [= <-]. now apply find_some in Hf.
    - apply nth_error_In. }
  destruct (match find isSigned related with
            | Some num => Some num
            | None => nth_error related (length related - 2)
            end) as [amountItem|]; [|discriminate].
  intros H. apply (f_equal (fun o => match o with Some v => v | None => r end)) in H.
  subst r. exists amountItem, balanceItem. cbn [tahun tgl ket type mutasi saldo].
  repeat split; auto.
Qed.

(** what a record of [parseLine] is made of *)
Lemma parseLine_inv year line r :
  parseLine year line = Some r ->
  exists dateItem amountItem balanceItem,
    In dateItem line /\ In amountItem line /\ In balanceItem line /\
    test dateRgx (text dateItem) = true /\
    test minusRgx (text amountItem) = true /\
    test minusRgx (text balanceItem) = true /\
    tahun r = year /\
    tgl r = text dateItem /\
    mutasi r = parseFloat (cleanAmount (text amountItem)) /\
    saldo r = parseFloat (cleanNumber (text balanceItem)) /\
    type r = (if isSaldoAwal (ket r) then saldo_awal
              else if startsWith (text amountItem) "-" then debit else credit).
Proof.
  unfold parseLine. cbv zeta.
  destruct line as [|first rest]; [discriminate|].
  destruct (negb (test ordinalRgx (text first))); [discriminate|].
  destruct (find _ (first :: rest)) as [dateItem|] eqn:Hd; [|discriminate].
  set (numberItems := filter _ (first :: rest)).
  destruct (length numberItems <? 2)%nat; [discriminate|].
  destruct (nth_error numberItems (length numberItems - 1)) as [balanceItem|] eqn:Hb;
    [|discriminate].
  destruct (nth_error numberItems (length numberItems - 2)) as [amountItem|] eqn:Ha;
    [|discriminate].
  intros H. apply (f_equal (fun o => match o with Some v => v | None => r end)) in H.
  subst r. apply find_some in Hd.
  apply nth_error_In, filter_In in Hb. apply nth_error_In, filter_In in Ha.
  exists dateItem, amountItem, balanceItem. cbn [tahun tgl ket type mutasi saldo].
  repeat split; tauto.
Qed.

(** *** The cells of a row lie on one line *)

Lemma mapPush_keyed {V} (key : V -> Z) v m :
  (forall k vs, In (k, vs) m -> forall a, In a vs -> key a = k) ->
  forall k vs, In (k, vs) (mapPush (key v) v m) -> forall a, In a vs -> key a = k.
Proof.
  induction m as [|[k' vs'] m IH]; simpl; intros Hm k vs Hin a Ha.
  - destruct Hin as [[= <- <-]|[]]. destruct Ha as [->|[]]. reflexivity.
  - destruct (k' =? key v)%Z eqn:Ek.
    + apply Z.eqb_eq in Ek. destruct Hin as [[= <- <-]|Hin].
      * apply in_app_iff in Ha. destruct Ha as [Ha|[->|[]]]; [|now symmetry].
        apply (Hm k' vs'); auto.
      * apply (Hm k vs); auto.
    + destruct Hin as [[= <- <-]|Hin].
      * apply (Hm k' vs'); auto.
      * apply (IH (fun k0 vs0 H0 => Hm k0 vs0 (or_intror H0)) k vs Hin a Ha).
Qed.

Lemma fold_mapPush_keyed {V} (key : V -> Z) items :
  forall m,
    (forall k vs, In (k, vs) m -> forall a, In a vs -> key a = k) ->
    forall k vs, In (k, vs) (fold_left (fun m v => mapPush (key v) v m) items m) ->
                 forall a, In a vs -> key a = k.
Proof.
  induction items as [|v items IH]; simpl; intros m Hm; [exact Hm|].
  apply IH. now apply mapPush_keyed.
Qed.

Lemma groupIntoRows_same_key items row a b :
  In row (groupIntoRows items) -> In a row -> In b row -> rowKey a = rowKey b.
Proof.
  unfold groupIntoRows. intros Hrow Ha Hb.
  apply in_map_iff in Hrow. destruct Hrow as ([k vs] & <- & Hkv).
  apply In_sortBy in Hkv. simpl in Ha, Hb.
  assert (Hkey : forall c, In c vs -> rowKey c = k).
  { apply (fold_mapPush_keyed rowKey items [] (fun _ _ H => match H with end) k vs Hkv). }
  now rewrite (Hkey a Ha), (Hkey b Hb).
Qed.

(** two cells with the same row key are less than 2 apart *)
Lemma rowKey_close a b : rowKey a = rowKey b -> Qltb 5 (Qabs (y a - y b)) = false.
Proof.
  unfold rowKey, round. intros H.
  assert (E : Qfloor (y a / 2 + (1 # 2)) = Qfloor (y b / 2 + (1 # 2))) by lia.
  pose proof (Qfloor_le (y a / 2 + (1 # 2))) as A1.
  pose proof (Qlt_floor (y a / 2 + (1 # 2))) as A2.
  pose proof (Qfloor_le (y b / 2 + (1 # 2))) as B1.
  pose proof (Qlt_floor (y b / 2 + (1 # 2))) as B2.
  rewrite E in A1, A2. rewrite inject_Z_plus in A2, B2.
  change (inject_Z 1) with 1 in A2, B2.
  set (n := inject_Z (Qfloor (y b / 2 + (1 # 2)))) in *. clearbody n. clear E H.
  assert (Ha : y a / 2 == y a * (1 # 2)) by (unfold Qdiv; reflexivity).
  assert (Hb : y b / 2 == y b * (1 # 2)) by (unfold Qdiv; reflexivity).
  rewrite Ha in A1, A2. rewrite Hb in B1, B2.
  unfold Qltb. apply negb_false_iff, Qle_bool_iff, Qabs_Qle_condition.
  split; lra.
Qed.

(** so the comparator of the description cells orders the cells of a row
    by x alone: it is a consistent order, whose stable sort is unique *)
Lemma descOrder_in_row items row a b :
  In row (groupIntoRows items) -> In a row -> In b row -> descOrder a b = x a - x b.
Proof.
  intros Hrow Ha Hb. unfold descOrder.
  now rewrite (rowKey_close a b (groupIntoRows_same_key items row a b Hrow Ha Hb)).
Qed.

(** a positioned item of a page carries the string of one of its tokens *)
Lemma toPositioned_token items p :
  In p (mapi toPositioned items) -> exists t, In t items /\ text p = str t.
Proof.
  intros H. apply In_mapi in H. destruct H as (t & i & Ht & ->). exists t. auto.
Qed.

Lemma toPoint_token items p :
  In p (mapi toPoint items) -> exists t, In t items /\ text p = str t.
Proof.
  intros H. apply In_mapi in H. destruct H as (t & i & Ht & ->). exists t. auto.
Qed.

(** every record of a page comes from a row, a date or a line of it *)
Lemma parseMandiriPage_row items year r :
  In r (parseMandiriPage items year) ->
  exists row, parseRow year row = Some r /\
              forall p, In p row -> exists t, In t items /\ text p = str t.
Proof.
  unfold parseMandiriPage. cbv zeta.
  destruct (findHeaderRow _) as [h|]; [|intros []].
  intros H. apply In_records_of in H. destruct H as (row & Hrow & Hr).
  exists row. split; [exact Hr|].
  intros p Hp. apply toPositioned_token.
  apply ArrayFacts.In_skipn in Hrow. eapply groupIntoRows_In; eauto.
Qed.

Lemma parseDirectTransactions_date items year r :
  In r (parseDirectTransactions items year) ->
  exists allItems numbers date,
    parseDate year allItems numbers date = Some r /\
    test dateRgx (text date) = true /\
    (exists t, In t items /\ text date = str t) /\
    (forall p, In p numbers ->
       test signedRgx (text p) = true /\ exists t, In t items /\ text p = str t).
Proof.
  unfold parseDirectTransactions. cbv zeta.
  intros H. apply In_records_of in H. destruct H as (date & Hdate & Hr).
  apply filter_In in Hdate. destruct Hdate as [Hdate Htest].
  eexists _, _, date. split; [exact Hr|]. split; [exact Htest|].
  split; [now apply toPoint_token|].
  intros p Hp. apply filter_In in Hp. destruct Hp as [Hp Hpt].
  split; [exact Hpt|now apply toPoint_token].
Qed.

Lemma parsePatternBased_line items year r :
  In r (parsePatternBased items year) ->
  exists line, parseLine year line = Some r /\
               forall p, In p line -> exists t, In t items /\ text p = str t.
Proof.
  unfold parsePatternBased. cbv zeta.
  intros H. apply In_records_of in H. destruct H as (line & Hline & Hr).
  exists line. split; [exact Hr|].
  intros p Hp. apply toPoint_token. eapply groupIntoLines_In; eauto.
Qed.

End MandiriFacts.


(* ================================================================== *)
(** ** Properties of the parsers *)

Import Strategies Samples.




(** C2 (the code throws): a page that ends right after an amount and its
    DB marker makes [parseBCAItems] throw a TypeError: the guard tests
    index [currentIdx + 1], the read is at [currentIdx + 2]. *)
Theorem parseBCAItems_throws_on_truncated_page :
  BCA.parseBCAItems bca_truncated = Throws TypeError.
Proof. vm_compute. reflexivity. Qed.

(** C3 (the code classifies the example as credit): after valid anchors,
    the tokens "01/01", "TARIKAN ATM", "50,000.00", "DB", "950,000.00"
    give one record with amount 50000 and balance 950000, but of kind
    credit: the marker is looked for two tokens after the amount. *)
Theorem parseBCAItems_debit_example :
  BCA.parseBCAItems bca_debit =
    Returns [mkTrx (Num 2025) "01/01" "TARIKAN ATM" credit (Num 50000) (Num 950000)]
  /\ BCA.parseBCAItems bca_debit_spaced =
    Returns [mkTrx (Num 2025) "01/01" "TARIKAN ATM" debit (Num 50000) (Num 950000)].
Proof. split; vm_compute; reflexivity. Qed.

(** C4, as stated, fails: the direct token parser emits, for the amount
    token "-1.000.000,00", a debit record whose amount is not negative. *)
Lemma direct_amount_signed_counterexample :
  ~ (forall r, In r (Mandiri.parseDirectTransactions page_headless (Num 2025)) ->
               type r = debit -> negative (mutasi r)).
Proof.
  intros H.
  specialize (H (mkTrx (Num 2025) "01 Jan" "1 TRANSFER KELUAR" debit (Num 1000000) (Num 5000000))).
  assert (Hneg : negative (Num 1000000)) by (apply H; [vm_compute; now left|reflexivity]).
  vm_compute in Hneg. discriminate.
Qed.

(** C4 (amended): every record emitted by the direct token parser stores
    as its amount the number read from a signed-or-unsigned decimal token
    of the page after the sign characters are removed; the amount is
    never negative, the sign being carried by the kind alone, as in the
    row reconstruction and pattern-line parsers. *)
Theorem direct_amount_is_magnitude (items : list TextItem) (year : jsnum) (r : TrxRecord) :
  In r (Mandiri.parseDirectTransactions items year) ->
  (exists t, In t items /\ matches Mandiri.signedRgx (str t) = true
             /\ mutasi r = parseFloat (Mandiri.cleanAmount (str t)))
  /\ Vocabulary.nonnegative (mutasi r) /\ ~ negative (mutasi r).
Proof.
  intros Hin.
  apply MandiriFacts.parseDirectTransactions_date in Hin.
  destruct Hin as (allItems & numbers & date & Hr & _ & _ & Hnum).
  apply MandiriFacts.parseDate_inv in Hr.
  destruct Hr as (a & b & Ha & _ & _ & _ & Hm & _).
  destruct (Hnum a Ha) as (Hat & t & Ht & E).
  assert (Hnn : Vocabulary.nonnegative (mutasi r)).
  { rewrite Hm. apply NumberFacts.parseFloat_unsigned, NumberFacts.removeAll_sign. }
  split; [|split; [exact Hnn|now apply NumberFacts.nonnegative_not_negative]].
  exists t. rewrite <- E. auto.
Qed.

(** the debit row without header, through the direct token parser *)
Lemma direct_amount_is_magnitude_witness :
  (exists t, In t page_headless /\ matches Mandiri.signedRgx (str t) = true
             /\ mutasi (mkTrx (Num 2025) "01 Jan" "1 TRANSFER KELUAR" debit
                              (Num 1000000) (Num 5000000))
                = parseFloat (Mandiri.cleanAmount (str t)))
  /\ Vocabulary.nonnegative (Num 1000000) /\ ~ negative (Num 1000000).
Proof.
  apply (direct_amount_is_magnitude page_headless (Num 2025)
           (mkTrx (Num 2025) "01 Jan" "1 TRANSFER KELUAR" debit (Num 1000000) (Num 5000000))).
  vm_compute. left. reflexivity.
Defined.

(** The three Format-B strategies agree on the convention: no amount is
    negative. *)
Lemma formatB_amount_nonnegative (s : strategy) (items : list TextItem) (year : jsnum)
    (recs : list TrxRecord) (r : TrxRecord) :
  s <> Sequential -> run s items year = Returns recs -> In r recs ->
  Vocabulary.nonnegative (mutasi r).
Proof.
  intros Hs Hrun Hin.
  destruct s; [congruence| | |]; simpl in Hrun; injection Hrun as <-.
  - apply MandiriFacts.parseMandiriPage_row in Hin. destruct Hin as (row & Hr & _).
    apply MandiriFacts.parseRow_inv in Hr.
    destruct Hr as (d & a & b & _ & _ & _ & _ & _ & _ & _ & _ & Hm & _).
    rewrite Hm. apply NumberFacts.abs_nonnegative.
  - apply MandiriFacts.parseDirectTransactions_date in Hin.
    destruct Hin as (allItems & numbers & date & Hr & _).
    apply MandiriFacts.parseDate_inv in Hr.
    destruct Hr as (a & b & _ & _ & _ & _ & Hm & _).
    rewrite Hm. apply NumberFacts.parseFloat_unsigned, NumberFacts.removeAll_sign.
  - apply MandiriFacts.parsePatternBased_line in Hin. destruct Hin as (line & Hr & _).
    apply MandiriFacts.parseLine_inv in Hr.
    destruct Hr as (d & a & b & _ & _ & _ & _ & _ & _ & _ & _ & Hm & _).
    rewrite Hm. apply NumberFacts.parseFloat_unsigned, NumberFacts.removeAll_sign.
Qed.

(** C5, as stated, fails for Format B: the row reconstruction parser
    keeps the date cell "01 Jan 2025" as the record's date, which is not
    of the form DD/MM. *)
Lemma date_day_month_counterexample :
  ~ (forall recs r,
       run RowReconstruction page_credit (Num 2025) = Returns recs -> In r recs ->
       matches BCA.dateRgx (tgl r) = true).
Proof.
  intros H.
  specialize (H [mkTrx (Num 2025) "01 Jan 2025" "1 TRANSFER MASUK" credit
                       (Num 1000000) (Num 5000000)]
                (mkTrx (Num 2025) "01 Jan 2025" "1 TRANSFER MASUK" credit
                       (Num 1000000) (Num 5000000))).
  assert (Hd : matches BCA.dateRgx "01 Jan 2025" = true)
    by (apply H; [vm_compute; reflexivity|now left]).
  vm_compute in Hd. discriminate.
Qed.

(** C5 (amended): the date of every record emitted by the sequential
    parser matches DD/MM.  The date of a record emitted by a Format-B
    strategy never does: it is taken from a token of the page that
    matches the textual date pattern DD Mon YYYY, of which the direct
    token parser keeps the first two space-separated parts (DD Mon) and
    the row reconstruction and pattern-line parsers a leading part. *)
Theorem record_date_from_token (s : strategy) (items : list TextItem) (year : jsnum)
    (recs : list TrxRecord) (r : TrxRecord) :
  run s items year = Returns recs -> In r recs ->
  (exists t, In t items /\ dateAccepts s (str t) = true /\ dateFrom s (str t) (tgl r))
  /\ matches BCA.dateRgx (tgl r) = match s with Sequential => true | _ => false end.
Proof.
  intros Hrun Hin.
  assert (Htok : exists t, In t items /\ dateAccepts s (str t) = true
                           /\ tgl r = dateOf s (str t)).
  { destruct s; simpl in Hrun |- *.
    - unfold BCA.parseBCAItems in Hrun.
      destruct (findIndex _ items); [|injection Hrun as <-; destruct Hin].
      apply (BCAInvariant.parseTable_date_token _ _ _ _ Hrun Hin).
    - injection Hrun as <-.
      apply MandiriFacts.parseMandiriPage_row in Hin. destruct Hin as (row & Hr & Hrow).
      apply MandiriFacts.parseRow_inv in Hr.
      destruct Hr as (d & a & b & Hd & _ & _ & Hdt & _ & _ & _ & Htgl & _).
      destruct (Hrow d Hd) as (t & Ht & E). exists t. rewrite <- E. auto.
    - injection Hrun as <-.
      apply MandiriFacts.parseDirectTransactions_date in Hin.
      destruct Hin as (allItems & numbers & date & Hr & Hdt & (t & Ht & E) & _).
      apply MandiriFacts.parseDate_inv in Hr.
      destruct Hr as (a & b & _ & _ & _ & Htgl & _).
      exists t. rewrite <- E. auto.
    - injection Hrun as <-.
      apply MandiriFacts.parsePatternBased_line in Hin. destruct Hin as (line & Hr & Hline).
      apply MandiriFacts.parseLine_inv in Hr.
      destruct Hr as (d & a & b & Hd & _ & _ & Hdt & _ & _ & _ & Htgl & _).
      destruct (Hline d Hd) as (t & Ht & E). exists t. rewrite <- E. auto. }
  destruct Htok as (t & Ht & Hacc & Htgl). split.
  - exists t. split; [exact Ht|]. split; [exact Hacc|].
    rewrite Htgl. apply DateFacts.dateOf_dateFrom.
  - destruct s.
    + rewrite Htgl. exact Hacc.
    + apply (DateFacts.formatB_date_shape RowReconstruction (str t));
        [discriminate|exact Hacc|exact Htgl].
    + apply (DateFacts.formatB_date_shape DirectToken (str t));
        [discriminate|exact Hacc|exact Htgl].
    + apply (DateFacts.formatB_date_shape PatternLine (str t));
        [discriminate|exact Hacc|exact Htgl].
Qed.

(** the debit row without header: the direct token parser keeps "01 Jan" *)
Lemma record_date_from_token_witness :
  (exists t, In t page_headless /\ dateAccepts DirectToken (str t) = true
             /\ dateFrom DirectToken (str t) "01 Jan")
  /\ matches BCA.dateRgx "01 Jan" = false.
Proof.
  apply (record_date_from_token DirectToken page_headless (Num 2025)
           [mkTrx (Num 2025) "01 Jan" "1 TRANSFER KELUAR" debit (Num 1000000) (Num 5000000)]
           (mkTrx (Num 2025) "01 Jan" "1 TRANSFER KELUAR" debit (Num 1000000) (Num 5000000))).
  - vm_compute. reflexivity.
  - left. reflexivity.
Defined.

(** C6 (the code keeps the row number in the description): for a header
    row and the data row "1", "01 Jan 2025", "TRANSFER MASUK",
    "+1.000.000,00", "5.000.000,00" the row reconstruction parser emits
    one record of kind credit, amount 1000000, balance 5000000, whose
    description is "1 TRANSFER MASUK"; on the same row with a debit amount
    the pattern-line parser leaves the row number out. *)
Theorem parseMandiriPage_credit_example :
  Mandiri.parseMandiriPage page_credit (Num 2025) =
    [mkTrx (Num 2025) "01 Jan 2025" "1 TRANSFER MASUK" credit (Num 1000000) (Num 5000000)]
  /\ Mandiri.parsePatternBased page_debit (Num 2025) =
    [mkTrx (Num 2025) "01 Jan 2025" "TRANSFER KELUAR" debit (Num 1000000) (Num 5000000)].
Proof. split; vm_compute; reflexivity. Qed.

(** C7: the result of a Format-B page is the output of the row
    reconstruction parser when that is not empty; otherwise the output of
    the direct token parser when that is not empty; otherwise the output
    of the pattern-line parser; and a parser is called only when all the
    parsers before it returned no record. *)
Theorem page_fallback_chain (items : list TextItem) (year : jsnum) :
  let standardRecs := Mandiri.parseMandiriPage items year in
  let directRecs := Mandiri.parseDirectTransactions items year in
  let patternRecs := Mandiri.parsePatternBased items year in
  (standardRecs <> [] ->
     Mandiri.parsePage items year = standardRecs
     /\ Mandiri.consulted items year = [Mandiri.Standard])
  /\ (standardRecs = [] -> directRecs <> [] ->
     Mandiri.parsePage items year = directRecs
     /\ Mandiri.consulted items year = [Mandiri.Standard; Mandiri.Direct])
  /\ (standardRecs = [] -> directRecs = [] ->
     Mandiri.parsePage items year = patternRecs
     /\ Mandiri.consulted items year = [Mandiri.Standard; Mandiri.Direct; Mandiri.Pattern]).
Proof.
  intros standardRecs directRecs patternRecs.
  unfold Mandiri.parsePage, Mandiri.consulted, Mandiri.parsePageTraced.
  fold standardRecs directRecs patternRecs.
  destruct standardRecs as [|r1 l1]; destruct directRecs as [|r2 l2]; simpl;
    repeat split; intros; try congruence; auto.
Qed.

(** a page without header row: the direct token parser is the one used *)
Lemma page_fallback_chain_witness :
  Mandiri.parsePage page_headless (Num 2025)
    = Mandiri.parseDirectTransactions page_headless (Num 2025)
  /\ Mandiri.consulted page_headless (Num 2025) = [Mandiri.Standard; Mandiri.Direct].
Proof.
  apply (page_fallback_chain page_headless (Num 2025)).
  - vm_compute. reflexivity.
  - vm_compute. discriminate.
Defined.

(** C8 (the code misses the override): on a BCA page where "AWAL" follows
    the balance of a transaction described "SALDO", the emitted record has
    the description "SALDO AWAL" and the kind credit: the kind is decided
    before the outer loop appends the trailing token. *)
Theorem parseBCAItems_saldo_awal_late :
  BCA.parseBCAItems bca_saldo_awal_late =
    Returns [mkTrx (Num 2025) "01/01" "SALDO AWAL" credit (Num 1000) (Num 2000)].
Proof. vm_compute. reflexivity. Qed.

(** The Format-B parsers decide the kind on the final description: a
    record whose description is "saldo awal" up to case is an opening
    balance. *)
Lemma formatB_saldo_awal_override (s : strategy) (items : list TextItem) (year : jsnum)
    (recs : list TrxRecord) (r : TrxRecord) :
  s <> Sequential -> run s items year = Returns recs -> In r recs ->
  toLowerCase (ket r) = "saldo awal" -> type r = saldo_awal.
Proof.
  intros Hs Hrun Hin Hket.
  assert (Hsa : Mandiri.isSaldoAwal (ket r) = true)
    by (unfold Mandiri.isSaldoAwal; rewrite Hket; reflexivity).
  destruct s; [congruence| | |]; simpl in Hrun; injection Hrun as <-.
  - apply MandiriFacts.parseMandiriPage_row in Hin. destruct Hin as (row & Hr & _).
    apply MandiriFacts.parseRow_inv in Hr.
    destruct Hr as (d & a & b & _ & _ & _ & _ & _ & _ & _ & _ & _ & _ & Hty).
    now rewrite Hty, Hsa.
  - apply MandiriFacts.parseDirectTransactions_date in Hin.
    destruct Hin as (allItems & numbers & date & Hr & _).
    apply MandiriFacts.parseDate_inv in Hr.
    destruct Hr as (a & b & _ & _ & _ & _ & _ & _ & Hty).
    now rewrite Hty, Hsa.
  - apply MandiriFacts.parsePatternBased_line in Hin. destruct Hin as (line & Hr & _).
    apply MandiriFacts.parseLine_inv in Hr.
    destruct Hr as (d & a & b & _ & _ & _ & _ & _ & _ & _ & _ & _ & _ & Hty).
    now rewrite Hty, Hsa.
Qed.

(** C9 (the pattern-line matcher rejects '+'): the number pattern of the
    pattern-line parser rejects every string with a leading '+', such as
    "+1.000.000,00", which the patterns of the row reconstruction and
    direct token parsers accept, so that the line of the credit row gives
    no record; the three patterns accept "-1.000.000,00" and
    "1.000.000,00". *)
Theorem pattern_line_rejects_plus :
  (forall v, amountAccepts PatternLine (String "+" v) = false)
  /\ amountAccepts RowReconstruction "+1.000.000,00" = true
  /\ amountAccepts DirectToken "+1.000.000,00" = true
  /\ forallb (fun s => amountAccepts s "-1.000.000,00" && amountAccepts s "1.000.000,00")
              [RowReconstruction; DirectToken; PatternLine] = true
  /\ Mandiri.parsePatternBased row_credit (Num 2025) = [].
Proof.
  split; [exact MoneyFacts.minusRgx_rejects_plus|].
  repeat split; vm_compute; reflexivity.
Qed.



(** On the page of the witness the parser does emit a record, and its
    year is NaN. *)
Example parseBCAItems_no_year_example :
  BCA.parseBCAItems bca_no_year =
    Returns [mkTrx NaN "01/01" "SETORAN -" credit (Num 1000) (Num 2000)].
Proof. vm_compute. reflexivity. Qed.

(* ================================================================== *)
(** ** Reading money tokens *)

Module AmountFacts.
Import Vocabulary Measures RegexFacts.













End AmountFacts.

(* ================================================================== *)
(** ** The records of a BCA page: a finer invariant *)

Module BCARecords.
Import BCA BCAFacts Vocabulary Measures.

Section TwoStages.
Variable items : list TextItem.
Variable tahun0 : jsnum.
(** [Q] holds while the transaction is scanned, [P] once its kind is
    decided. *)
Variables Q P : TrxRecord -> Prop.

Hypothesis Q_new : forall t, In t items -> test dateRgx (str t) = true ->
  Q (mkTrx tahun0 (str t) "" credit (Num 0) (Num 0)).
Hypothesis Q_ket : forall r k, Q r -> Q (with_ket r k).
Hypothesis Q_amount : forall r t k, Q r -> In t items -> test moneyRgx (str t) = true ->
  k <> saldo_awal ->
  Q (with_mutasi (with_type r k) (parseFloat (removeAll (is_char ",") (str t)))).
Hypothesis Q_saldo : forall r t, Q r -> In t items -> test moneyRgx (str t) = true ->
  Q (with_saldo r (parseFloat (removeAll (is_char ",") (str t)))).
Hypothesis P_mark : forall r, Q r -> P (markSaldoAwal r).
Hypothesis P_extend : forall r t, P r -> In t items ->
  P (with_ket r (ket r ++ " " ++ str t)).

Lemma scanDetails_stage fuel :
  forall rec currentIdx foundMutasi detailLines,
    Q rec -> holds_after Q (scanDetails fuel items rec currentIdx foundMutasi detailLines).
Proof.
  induction fuel as [|fuel IH]; intros rec i found dl Hrec; [exact I|].
  rewrite scanDetails_unfold.
  destruct (nth_error items i) as [nextItem|] eqn:Hnth; [|exact Hrec].
  apply nth_error_In in Hnth.
  destruct (test dateRgx (str nextItem)); [exact Hrec|].
  cbv zeta.
  assert (Hnext : forall r j f d, Q r ->
            holds_after Q (if isEndMarker (str nextItem) then Returns (r, j, d)
                           else scanDetails fuel items r j f d)).
  { intros r j f d Hr. destruct (isEndMarker (str nextItem)); [exact Hr|]. now apply IH. }
  destruct (test moneyRgx (str nextItem)) eqn:Hmoney; [|now apply Hnext].
  destruct (followedByDB items i) as [[|]| |]; try exact I.
  - apply Hnext. apply Q_amount; auto. discriminate.
  - destruct (negb found).
    + apply Hnext. apply Q_amount; auto. discriminate.
    + simpl. now apply Q_saldo.
Qed.

Lemma addDetails_stage rec dl : Q rec -> Q (addDetails rec dl).
Proof.
  intros H. unfold addDetails. destruct dl; [exact H|].
  destruct (truthy (ket rec)); now apply Q_ket.
Qed.

Lemma extendKet_stage cur item :
  In item items -> (forall r, cur = Some r -> P r) ->
  forall r, extendKet cur item = Some r -> P r.
Proof.
  intros Hin Hcur r. unfold extendKet. destruct cur as [r0|]; [|discriminate].
  destruct (_ && _); intros [= <-]; [apply P_extend; auto|]; now apply Hcur.
Qed.

Lemma scanRows_stage fuel :
  forall txrecs currentRecord currentIdx recs,
    Forall P txrecs -> (forall r, currentRecord = Some r -> P r) ->
    scanRows fuel items tahun0 txrecs currentRecord currentIdx = Returns recs ->
    Forall P recs.
Proof.
  induction fuel as [|fuel IH]; intros txrecs cur i recs Hall Hcur; [discriminate|].
  rewrite scanRows_unfold.
  destruct (nth_error items i) as [item|] eqn:Hnth;
    [|intros [= <-]; now apply BCAInvariant.pushDated_keeps].
  apply nth_error_In in Hnth.
  destruct (isEndMarker (str item)); [intros [= <-]; now apply BCAInvariant.pushDated_keeps|].
  destruct (test dateRgx (str item)) eqn:Hdate.
  - cbv zeta.
    pose proof (Q_new item Hnth Hdate) as Hnew.
    set (start :=
           match nth_error items (i + 1) with
           | Some it => (with_ket (mkTrx tahun0 (str item) "" credit (Num 0) (Num 0)) (str it),
                         (i + 1 + 1)%nat)
           | None => (mkTrx tahun0 (str item) "" credit (Num 0) (Num 0), (i + 1)%nat)
           end).
    assert (Hstart : Q (fst start)).
    { unfold start. destruct (nth_error items (i + 1)); simpl; [now apply Q_ket|exact Hnew]. }
    destruct start as [rec j]; simpl in Hstart.
    match goal with
    | |- context [scanDetails ?f items rec ?k false []] =>
        pose proof (scanDetails_stage f rec k false [] Hstart) as Hin;
        destruct (scanDetails f items rec k false []) as [[[r' k'] d]| |]
    end; try discriminate.
    simpl in Hin. apply IH.
    + now apply BCAInvariant.pushDated_keeps.
    + intros r [= <-]. now apply P_mark, addDetails_stage.
  - apply IH; [exact Hall|]. now apply extendKet_stage.
Qed.

Lemma parseTable_stage recs :
  parseTable items tahun0 = Returns recs -> Forall P recs.
Proof.
  unfold parseTable.
  destruct (findIndex _ items); [|intros [= <-]; constructor].
  destruct (findIndex _ items); [|intros [= <-]; constructor].
  destruct (firstIndexAfter _ items _); [|intros [= <-]; constructor].
  apply scanRows_stage; [constructor|discriminate].
Qed.

End TwoStages.

(** every record of [parseBCAItems] satisfies what [parseTable] keeps *)
Lemma parseBCAItems_stage items (P : TrxRecord -> Prop) recs r :
  (forall tahun0 recs0, parseTable items tahun0 = Returns recs0 -> Forall P recs0) ->
  parseBCAItems items = Returns recs -> In r recs -> P r.
Proof.
  intros Hkeep. unfold parseBCAItems.
  destruct (findIndex _ items); [|intros [= <-] []].
  intros Hrun Hin. pose proof (Hkeep _ _ Hrun) as Hall.
  rewrite Forall_forall in Hall. now apply Hall.
Qed.

End BCARecords.

(* ================================================================== *)
(** ** Further properties: amounts *)

Module StringFacts.

Lemma map_chars_app f s1 s2 :
  map_chars f (s1 ++ s2) = (map_chars f s1 ++ map_chars f s2)%string.
Proof. induction s1 as [|c s1 IH]; simpl; congruence. Qed.

Lemma prefix_app p s1 s2 : String.prefix p s1 = true -> String.prefix p (s1 ++ s2) = true.
Proof.
  revert s1. induction p as [|a p IH]; intros s1; [intros _; apply DateFacts.prefix_empty|].
  destruct s1 as [|b s1]; simpl; [discriminate|].
  destruct (ascii_dec a b); [apply IH|discriminate].
Qed.

End StringFacts.

Import Measures.






(* ================================================================== *)
(** ** Further properties: the records of a BCA page *)



(** X4 (parseBCAItems, lines 199-210): a record of a BCA page has the
    kind opening balance only if its description begins, up to case, with
    "SALDO AWAL": the kind is set when the description is exactly that,
    and later tokens are only appended. *)
Theorem bca_saldo_awal_description (items : list TextItem) (recs : list TrxRecord)
    (r : TrxRecord) :
  BCA.parseBCAItems items = Returns recs -> In r recs ->
  type r = saldo_awal -> String.prefix "SALDO AWAL" (toUpperCase (ket r)) = true.
Proof.
  apply (BCARecords.parseBCAItems_stage items
           (fun r => type r = saldo_awal ->
                     String.prefix "SALDO AWAL" (toUpperCase (ket r)) = true)).
  intros tahun0 recs0.
  apply (BCARecords.parseTable_stage items tahun0
           (fun r => type r <> saldo_awal)
           (fun r => type r = saldo_awal ->
                     String.prefix "SALDO AWAL" (toUpperCase (ket r)) = true)).
  - intros t _ _. discriminate.
  - intros r0 k H0. exact H0.
  - intros r0 t k _ _ _ Hk. exact Hk.
  - intros r0 t H0 _ _. exact H0.
  - intros r0 H0. unfold BCA.markSaldoAwal.
    destruct (toUpperCase (ket r0) =? "SALDO AWAL")%string eqn:E.
    + intros _. apply String.eqb_eq in E. cbn [ket with_type]. rewrite E. reflexivity.
    + intros Hty. contradiction.
  - intros r0 t H0 _ Hty. cbn [ket with_ket].
    unfold toUpperCase. rewrite StringFacts.map_chars_app.
    apply StringFacts.prefix_app. now apply H0.
Qed.

(** the opening balance of a sample page *)
Lemma bca_saldo_awal_description_witness :
  String.prefix "SALDO AWAL" (toUpperCase "SALDO AWAL") = true.
Proof.
  apply (bca_saldo_awal_description MoreSamples.bca_opening
           [mkTrx (Num 2025) "01/01" "SALDO AWAL" saldo_awal (Num 1000) (Num 0);
            mkTrx (Num 2025) "02/01" "SETORAN" credit (Num 500) (Num 1500)]
           (mkTrx (Num 2025) "01/01" "SALDO AWAL" saldo_awal (Num 1000) (Num 0))).
  - vm_compute. reflexivity.
  - left. reflexivity.
  - reflexivity.
Defined.

(** X5 (parseBCAItems, lines 44-60 and 116-123): all the records of a BCA
    page carry the same year, the one read from the period of the page. *)
Theorem bca_page_one_year (items : list TextItem) (recs : list TrxRecord)
    (r r' : TrxRecord) :
  BCA.parseBCAItems items = Returns recs -> In r recs -> In r' recs ->
  tahun r = tahun r'.
Proof.
  unfold BCA.parseBCAItems.
  destruct (findIndex _ items); [|intros [= <-] []].
  intros Hrun Hr Hr'.
  rewrite (BCAInvariant.parseTable_tahun _ _ _ _ Hrun Hr).
  now rewrite (BCAInvariant.parseTable_tahun _ _ _ _ Hrun Hr').
Qed.

(** the two records of a sample page *)
Lemma bca_page_one_year_witness : Num 2025 = Num 2025.
Proof.
  apply (bca_page_one_year MoreSamples.bca_two
           [mkTrx (Num 2025) "01/01" "SETORAN" credit (Num 500) (Num 1500);
            mkTrx (Num 2025) "02/01" "TARIKAN" credit (Num 200) (Num 1300)]
           (mkTrx (Num 2025) "01/01" "SETORAN" credit (Num 500) (Num 1500))
           (mkTrx (Num 2025) "02/01" "TARIKAN" credit (Num 200) (Num 1300))).
  - vm_compute. reflexivity.
  - left. reflexivity.
  - right. left. reflexivity.
Defined.

Module AnchorFacts.

Lemma findIndexFrom_none {A} (p : A -> nat -> bool) l :
  (forall a j, In a l -> p a j = false) -> forall i, findIndexFrom p l i = None.
Proof.
  induction l as [|a l IH]; intros Hp i; simpl; [reflexivity|].
  rewrite (Hp a i (or_introl eq_refl)). apply IH. intros b j Hb. apply Hp. now right.
Qed.

Lemma firstIndexAfter_none {A} (p : A -> bool) l start :
  (forall a, In a l -> p a = false) -> firstIndexAfter p l start = None.
Proof.
  intros Hp. unfold firstIndexAfter, findIndex.
  rewrite findIndexFrom_none; [reflexivity|].
  intros a j Ha. apply Hp. now apply ArrayFacts.In_skipn in Ha.
Qed.

Lemma eqb_differs (s t : string) : s <> t -> (s =? t)%string = false.
Proof. apply String.eqb_neq. Qed.

End AnchorFacts.

(** X6 (parseBCAItems, lines 44-47 and 63-93): a page that lacks the
    token "PERIODE", the token "TANGGAL", the token "KETERANGAN" or any
    DD/MM date token gives the empty list, not an exception. *)
Theorem bca_missing_anchor (items : list TextItem) :
  (forall t, In t items -> str t <> "PERIODE")
  \/ (forall t, In t items -> str t <> "TANGGAL")
  \/ (forall t, In t items -> str t <> "KETERANGAN")
  \/ (forall t, In t items -> BCA.test BCA.dateRgx (str t) = false) ->
  BCA.parseBCAItems items = Returns [].
Proof.
  intros H. unfold BCA.parseBCAItems, BCA.parseTable.
  destruct H as [H|[H|[H|H]]].
  - unfold findIndex at 1. rewrite AnchorFacts.findIndexFrom_none; [reflexivity|].
    intros a j Ha. now apply AnchorFacts.eqb_differs, H.
  - destruct (findIndex _ items); [|reflexivity].
    unfold findIndex at 1. rewrite AnchorFacts.findIndexFrom_none; [reflexivity|].
    intros a j Ha. now apply AnchorFacts.eqb_differs, H.
  - destruct (findIndex _ items); [|reflexivity].
    destruct (findIndex _ items) as [h|]; [|reflexivity].
    unfold findIndex at 1. rewrite AnchorFacts.findIndexFrom_none; [reflexivity|].
    intros a j Ha. rewrite (AnchorFacts.eqb_differs _ _ (H a Ha)). apply andb_false_r.
  - destruct (findIndex _ items); [|reflexivity].
    destruct (findIndex _ items) as [h|]; [|reflexivity].
    destruct (findIndex _ items); [|reflexivity].
    now rewrite AnchorFacts.firstIndexAfter_none.
Qed.

(** a page with a table but no period label *)
Lemma bca_missing_anchor_witness :
  BCA.parseBCAItems MoreSamples.bca_no_periode = Returns [].
Proof.
  apply bca_missing_anchor. left.
  intros t Hin. simpl in Hin.
  repeat (destruct Hin as [<-|Hin]; [discriminate|]). destruct Hin.
Defined.

Module OrderFacts.
Import BCA BCAFacts Vocabulary.

Lemma subseq_refl {A} (l : list A) : subseq l l.
Proof. induction l; [apply subseq_nil|now apply subseq_take]. Qed.

Lemma subseq_nil_l {A} (l : list A) : subseq [] l.
Proof. induction l; [apply subseq_nil|now apply subseq_skip]. Qed.

Lemma subseq_app_r {A} (l a b : list A) : subseq l a -> subseq l (a ++ b).
Proof.
  induction 1; simpl.
  - apply subseq_nil_l.
  - now apply subseq_skip.
  - now apply subseq_take.
Qed.

Lemma subseq_snoc {A} (l a : list A) x : subseq l a -> subseq (l ++ [x]) (a ++ [x]).
Proof.
  induction 1; simpl.
  - apply subseq_take, subseq_nil.
  - now apply subseq_skip.
  - now apply subseq_take.
Qed.

Lemma subseq_trans {A} (l1 l2 l3 : list A) : subseq l1 l2 -> subseq l2 l3 -> subseq l1 l3.
Proof.
  intros H12 H23. revert l1 H12.
  induction H23 as [|a l2 l3 _ IH|a l2 l3 _ IH]; intros l1 H12.
  - exact H12.
  - apply subseq_skip. now apply IH.
  - inversion H12; subst; [apply subseq_skip|apply subseq_take]; now apply IH.
Qed.

Lemma subseq_length {A} (l1 l2 : list A) : subseq l1 l2 -> (length l1 <= length l2)%nat.
Proof. induction 1; simpl; lia. Qed.

Lemma subseq_map {A B} (f : A -> B) l1 l2 : subseq l1 l2 -> subseq (map f l1) (map f l2).
Proof.
  induction 1; simpl; [apply subseq_nil|now apply subseq_skip|now apply subseq_take].
Qed.

Lemma pushDated_subseq txrecs cur : subseq (pushDated txrecs cur) (txrecs ++ pending cur).
Proof.
  unfold pushDated, pending. destruct cur as [r|].
  - destruct (truthy (tgl r)); [apply subseq_refl|apply subseq_app_r, subseq_refl].
  - rewrite app_nil_r. apply subseq_refl.
Qed.

Lemma dateTokens_app a b : dateTokens (a ++ b) = dateTokens a ++ dateTokens b.
Proof. unfold dateTokens. now rewrite map_app, filter_app. Qed.

Lemma firstn_split {A} (l : list A) i j :
  (i <= j)%nat -> firstn j l = firstn i l ++ firstn (j - i) (skipn i l).
Proof.
  revert l j. induction i as [|i IH]; intros l j Hij.
  - simpl. now rewrite Nat.sub_0_r.
  - destruct j as [|j]; [lia|]. destruct l as [|a l]; simpl.
    + now rewrite firstn_nil.
    + f_equal. apply IH. lia.
Qed.

Lemma firstn_next {A} (l : list A) i a :
  nth_error l i = Some a -> firstn (S i) l = firstn i l ++ [a].
Proof.
  revert l. induction i as [|i IH]; intros [|b l]; simpl; try discriminate.
  - now intros [= ->].
  - intros H. f_equal. now apply IH.
Qed.

(** the date tokens met up to an index are among those met up to a later
    index *)
Lemma dateTokens_grow items l i j :
  (i <= j)%nat -> subseq l (dateTokens (firstn i items)) ->
  subseq l (dateTokens (firstn j items)).
Proof.
  intros Hij H. rewrite (firstn_split items i j Hij), dateTokens_app.
  now apply subseq_app_r.
Qed.

Lemma dateTokens_all items l i :
  subseq l (dateTokens (firstn i items)) -> subseq l (dateTokens items).
Proof.
  intros H. rewrite <- (firstn_skipn i items), dateTokens_app.
  now apply subseq_app_r.
Qed.

(** a date token at index [i] extends the dates met before [i] *)
Lemma dateTokens_date items l i j item :
  nth_error items i = Some item -> test dateRgx (str item) = true -> (i < j)%nat ->
  subseq l (dateTokens (firstn i items)) ->
  subseq (l ++ [str item]) (dateTokens (firstn j items)).
Proof.
  intros Hnth Hdate Hij H.
  apply dateTokens_grow with (S i); [lia|].
  rewrite (firstn_next items i item Hnth), dateTokens_app.
  unfold dateTokens at 2. simpl. rewrite Hdate.
  now apply subseq_snoc.
Qed.

(** the inner scan keeps the date of the record *)
Lemma scanDetails_tgl fuel items rec i found dl r j d :
  scanDetails fuel items rec i found dl = Returns (r, j, d) -> tgl r = tgl rec.
Proof.
  intros H.
  pose proof (BCAInvariant.scanDetails_keeps items (fun r0 => tgl r0 = tgl rec)
                (fun _ _ E => E) (fun _ _ E => E) (fun _ _ E _ _ => E)
                fuel rec i found dl eq_refl) as Hk.
  rewrite H in Hk. exact Hk.
Qed.

Lemma extendKet_pending cur item :
  map tgl (pending (extendKet cur item)) = map tgl (pending cur).
Proof.
  unfold extendKet. destruct cur as [r|]; [|reflexivity].
  destruct (_ && _); reflexivity.
Qed.

Lemma scanRows_order fuel items tahun :
  forall txrecs cur i recs,
    subseq (map tgl (txrecs ++ pending cur)) (dateTokens (firstn i items)) ->
    scanRows fuel items tahun txrecs cur i = Returns recs ->
    subseq (map tgl recs) (dateTokens items).
Proof.
  induction fuel as [|fuel IH]; intros txrecs cur i recs Hinv; [discriminate|].
  assert (Hend : subseq (map tgl (pushDated txrecs cur)) (dateTokens items)).
  { apply dateTokens_all with i.
    apply subseq_trans with (map tgl (txrecs ++ pending cur)); [|exact Hinv].
    apply subseq_map, pushDated_subseq. }
  rewrite scanRows_unfold.
  destruct (nth_error items i) as [item|] eqn:Hnth; [|now intros [= <-]].
  destruct (isEndMarker (str item)); [now intros [= <-]|].
  destruct (test dateRgx (str item)) eqn:Hdate.
  - cbv zeta.
    set (rec0 := mkTrx tahun (str item) "" credit (Num 0) (Num 0)).
    set (start :=
           match nth_error items (i + 1) with
           | Some it => (with_ket rec0 (str it), (i + 1 + 1)%nat)
           | None => (rec0, (i + 1)%nat)
           end).
    assert (Hstart : tgl (fst start) = str item /\ (i < snd start)%nat).
    { unfold start. destruct (nth_error items (i + 1)); simpl; split; auto; lia. }
    destruct start as [rec j]; simpl in Hstart. destruct Hstart as [Htgl Hj].
    set (j' := match nth_error items j with
               | Some it => if (str it =? "CBG")%string then (j + 2)%nat else j
               | None => j
               end).
    assert (Hj' : (i < j')%nat).
    { unfold j'. destruct (nth_error items j) as [it|];
        [destruct (str it =? "CBG")%string|]; lia. }
    pose proof (scanDetails_ends (S (length items)) items rec j' false []) as Hends.
    destruct (scanDetails (S (length items)) items rec j' false []) as [[[r k] d]| |] eqn:Hscan;
      try discriminate.
    simpl in Hends. assert (Hk : (j' <= k)%nat) by (apply Hends; lia).
    apply IH. cbn [pending]. rewrite map_app. cbn [map].
    assert (Hr : tgl (markSaldoAwal (addDetails r d)) = str item).
    { rewrite <- Htgl, <- (scanDetails_tgl _ _ _ _ _ _ _ _ _ Hscan).
      unfold markSaldoAwal, addDetails.
      destruct d; [|destruct (truthy (ket r))];
        match goal with |- context [if ?c then _ else _] => destruct c end; reflexivity. }
    rewrite Hr.
    apply dateTokens_date with i; auto; [lia|].
    apply subseq_trans with (map tgl (txrecs ++ pending cur)); [|exact Hinv].
    apply subseq_map, pushDated_subseq.
  - apply IH.
    rewrite map_app, extendKet_pending, <- map_app.
    apply dateTokens_grow with i; [lia|exact Hinv].
Qed.

Lemma parseBCAItems_order items recs :
  parseBCAItems items = Returns recs -> subseq (map tgl recs) (dateTokens items).
Proof.
  unfold parseBCAItems, parseTable.
  destruct (findIndex _ items); [|intros [= <-]; apply subseq_nil_l].
  destruct (findIndex _ items); [|intros [= <-]; apply subseq_nil_l].
  destruct (findIndex _ items); [|intros [= <-]; apply subseq_nil_l].
  destruct (firstIndexAfter _ items _) as [start|]; [|intros [= <-]; apply subseq_nil_l].
  apply scanRows_order. apply subseq_nil_l.
Qed.

End OrderFacts.

(** X7 (parseBCAItems, lines 99-218): the dates of the records of a BCA
    page are date tokens of the page in document order, each token giving
    at most one record: the records are never more than the date
    tokens. *)
Theorem bca_records_in_document_order (items : list TextItem) (recs : list TrxRecord) :
  BCA.parseBCAItems items = Returns recs ->
  subseq (map tgl recs) (dateTokens items)
  /\ (length recs <= length (dateTokens items))%nat.
Proof.
  intros H. pose proof (OrderFacts.parseBCAItems_order items recs H) as Hs.
  split; [exact Hs|].
  apply OrderFacts.subseq_length in Hs. now rewrite length_map in Hs.
Qed.

(** the two transactions of a sample page *)
Lemma bca_records_in_document_order_witness :
  subseq ["01/01"; "02/01"] (dateTokens MoreSamples.bca_two)
  /\ (2 <= length (dateTokens MoreSamples.bca_two))%nat.
Proof.
  apply (bca_records_in_document_order MoreSamples.bca_two
           [mkTrx (Num 2025) "01/01" "SETORAN" credit (Num 500) (Num 1500);
            mkTrx (Num 2025) "02/01" "TARIKAN" credit (Num 200) (Num 1300)]).
  vm_compute. reflexivity.
Defined.

Module ThrowFacts.
Import BCA BCAFacts.

(** the only read that can fail is two places after a money token that
    is the second-to-last token *)
Lemma followedByDB_throws items i e :
  followedByDB items i = Throws e -> (i + 2 = length items)%nat.
Proof.
  unfold followedByDB.
  destruct (i + 1 <? length items)%nat eqn:Hlt; [|discriminate].
  destruct (nth_error items (i + 2)) eqn:Hnth; [discriminate|].
  intros _. apply Nat.ltb_lt in Hlt. apply nth_error_None in Hnth. lia.
Qed.

Lemma scanDetails_throws fuel items :
  forall rec i found dl e,
    scanDetails fuel items rec i found dl = Throws e ->
    exists t, nth_error items (length items - 2) = Some t
              /\ test moneyRgx (str t) = true.
Proof.
  induction fuel as [|fuel IH]; intros rec i found dl e; [discriminate|].
  rewrite scanDetails_unfold.
  destruct (nth_error items i) as [nextItem|] eqn:Hnth; [|discriminate].
  destruct (test dateRgx (str nextItem)); [discriminate|].
  cbv zeta.
  destruct (test moneyRgx (str nextItem)) eqn:Hmoney.
  - destruct (followedByDB items i) as [[|]|e'|] eqn:Hdb.
    + destruct (isEndMarker (str nextItem)); [discriminate|apply IH].
    + destruct (negb found); [|discriminate].
      destruct (isEndMarker (str nextItem)); [discriminate|apply IH].
    + intros _. apply followedByDB_throws in Hdb.
      exists nextItem. split; [|exact Hmoney].
      replace (length items - 2)%nat with i by lia. exact Hnth.
    + discriminate.
  - destruct (isEndMarker (str nextItem)); [discriminate|apply IH].
Qed.

Lemma scanRows_throws fuel items tahun :
  forall txrecs cur i e,
    scanRows fuel items tahun txrecs cur i = Throws e ->
    exists t, nth_error items (length items - 2) = Some t
              /\ test moneyRgx (str t) = true.
Proof.
  induction fuel as [|fuel IH]; intros txrecs cur i e; [discriminate|].
  rewrite scanRows_unfold.
  destruct (nth_error items i) as [item|]; [|discriminate].
  destruct (isEndMarker (str item)); [discriminate|].
  destruct (test dateRgx (str item)); [|apply IH].
  cbv zeta.
  destruct (match nth_error items (i + 1) with
            | Some it => _
            | None => _
            end) as [rec j].
  match goal with
  | |- context [scanDetails ?f items rec ?k false []] =>
      pose proof (scanDetails_throws f items rec k false []) as Hin;
      destruct (scanDetails f items rec k false []) as [[[r' k'] d]|e'|]
  end; [apply IH| |discriminate].
  intros _. now apply (Hin e').
Qed.

Lemma parseBCAItems_throws items e :
  parseBCAItems items = Throws e ->
  exists t, nth_error items (length items - 2) = Some t
            /\ test moneyRgx (str t) = true.
Proof.
  unfold parseBCAItems, parseTable.
  destruct (findIndex _ items); [|discriminate].
  destruct (findIndex _ items); [|discriminate].
  destruct (findIndex _ items); [|discriminate].
  destruct (firstIndexAfter _ items _); [|discriminate].
  apply scanRows_throws.
Qed.

Lemma parseBCAPages_acc pages :
  forall recss acc,
    Forall2 (fun page recs => parseBCAItems page = Returns recs) pages recss ->
    parseBCAPages pages acc = Returns (acc ++ concat recss).
Proof.
  induction pages as [|page pages IH]; intros recss acc H; inversion H; subst; simpl.
  - now rewrite app_nil_r.
  - match goal with E : parseBCAItems page = _ |- _ => rewrite E end.
    rewrite (IH _ _ H4). now rewrite app_assoc.
Qed.

Lemma parseBCAPages_throws pages1 :
  forall acc page pages2 e,
    Forall (fun p => exists recs, parseBCAItems p = Returns recs) pages1 ->
    parseBCAItems page = Throws e ->
    parseBCAPages (pages1 ++ page :: pages2) acc = Throws e.
Proof.
  induction pages1 as [|p pages1 IH]; intros acc page pages2 e Hall Hthrow; simpl.
  - now rewrite Hthrow.
  - inversion Hall as [|? ? [recs Hp] Hrest]; subst. rewrite Hp. now apply IH.
Qed.

End ThrowFacts.

(** X8 (parseBCAItems, lines 156-165): a BCA page whose second-to-last
    token is not a money token is always parsed to a list of records: the
    only exception of the parser is the read two places after a money
    token in that position. *)
Theorem bca_returns_unless_money_before_end (items : list TextItem) :
  (forall t, nth_error items (length items - 2) = Some t ->
             BCA.test BCA.moneyRgx (str t) = false) ->
  exists recs, BCA.parseBCAItems items = Returns recs.
Proof.
  intros H.
  destruct (BCA.parseBCAItems items) as [recs|e|] eqn:Hrun.
  - now exists recs.
  - apply ThrowFacts.parseBCAItems_throws in Hrun. destruct Hrun as (t & Ht & Hm).
    rewrite (H t Ht) in Hm. discriminate.
  - now apply BCAFacts.parseBCAItems_terminates in Hrun.
Qed.

(** the sample page ends with a marker and a balance *)
Lemma bca_returns_unless_money_before_end_witness :
  exists recs, BCA.parseBCAItems MoreSamples.bca_two = Returns recs.
Proof.
  apply bca_returns_unless_money_before_end.
  intros t Ht. vm_compute in Ht. injection Ht as <-. vm_compute. reflexivity.
Defined.

(** X9 (parseBCAStatement, lines 27-36): when every page of a statement
    is parsed to a list, the statement gives the records of its pages
    concatenated in page order. *)
Theorem bca_statement_concat (pages : list (list TextItem)) (recss : list (list TrxRecord)) :
  Forall2 (fun page recs => BCA.parseBCAItems page = Returns recs) pages recss ->
  BCA.parseBCAStatement pages = Returns (concat recss).
Proof.
  intros H. unfold BCA.parseBCAStatement.
  now rewrite (ThrowFacts.parseBCAPages_acc pages recss [] H).
Qed.

(** a statement of two sample pages *)
Lemma bca_statement_concat_witness :
  BCA.parseBCAStatement [Samples.bca_debit; Samples.bca_no_balance] =
    Returns (concat [[mkTrx (Num 2025) "01/01" "TARIKAN ATM" credit (Num 50000) (Num 950000)];
                     [mkTrx (Num 2025) "01/01" "BIAYA ADM" credit (Num 0) (Num 0)]]).
Proof.
  apply bca_statement_concat.
  constructor; [vm_compute; reflexivity|].
  constructor; [vm_compute; reflexivity|].
  constructor.
Defined.

(** X10 (parseBCAStatement, lines 28-34): an exception in one page is
    the outcome of the whole statement: the records of the pages before
    it are not returned. *)
Theorem bca_statement_fails_with_page (pages1 : list (list TextItem)) (page : list TextItem)
    (pages2 : list (list TextItem)) (e : JsError) :
  Forall (fun p => exists recs, BCA.parseBCAItems p = Returns recs) pages1 ->
  BCA.parseBCAItems page = Throws e ->
  BCA.parseBCAStatement (pages1 ++ page :: pages2) = Throws e.
Proof.
  intros Hall Hthrow. unfold BCA.parseBCAStatement.
  now apply ThrowFacts.parseBCAPages_throws.
Qed.

(** a truncated page between two good ones *)
Lemma bca_statement_fails_with_page_witness :
  BCA.parseBCAStatement ([Samples.bca_debit] ++ Samples.bca_truncated :: [Samples.bca_debit])
    = Throws TypeError.
Proof.
  apply bca_statement_fails_with_page.
  - constructor; [|constructor]. eexists. vm_compute. reflexivity.
  - vm_compute. reflexivity.
Defined.

(* ================================================================== *)
(** ** Further properties: the records of a Mandiri page *)

Module FormatBFacts.
Import Mandiri Vocabulary RegexFacts Strategies.

(** what a record of a Format-B strategy is made of: a date token and a
    balance token of the page, the year given, and the kind *)
Lemma formatB_record s items year recs r :
  s <> Sequential -> run s items year = Returns recs -> In r recs ->
  tahun r = year
  /\ (type r = if isSaldoAwal (ket r) then saldo_awal else type r)
  /\ (isSaldoAwal (ket r) = false -> type r <> saldo_awal)
  /\ (exists t, In t items /\ dateAccepts s (str t) = true)
  /\ (exists t, In t items /\ matches (balanceRgx s) (str t) = true
                /\ saldo r = parseFloat (cleanNumber (str t))).
Proof.
  intros Hs Hrun Hin.
  assert (Hkind : forall neg : bool,
            type r = (if isSaldoAwal (ket r) then saldo_awal
                      else if neg then debit else credit) ->
            (type r = if isSaldoAwal (ket r) then saldo_awal else type r)
            /\ (isSaldoAwal (ket r) = false -> type r <> saldo_awal)).
  { intros neg E. destruct (isSaldoAwal (ket r)); split; auto; try discriminate.
    intros _. rewrite E. destruct neg; discriminate. }
  destruct s; [congruence| | |]; simpl in Hrun; injection Hrun as <-.
  - apply MandiriFacts.parseMandiriPage_row in Hin. destruct Hin as (row & Hr & Hrow).
    apply MandiriFacts.parseRow_inv in Hr.
    destruct Hr as (d & a & b & Hd & _ & Hb & Hdt & _ & Hbt & Hy & _ & _ & Hsal & Hty).
    destruct (Hkind _ Hty) as [K1 K2].
    destruct (Hrow d Hd) as (td & Htd & Ed). destruct (Hrow b Hb) as (tb & Htb & Eb).
    repeat split; auto.
    + exists td. rewrite <- Ed. auto.
    + exists tb. rewrite <- Eb. auto.
  - apply MandiriFacts.parseDirectTransactions_date in Hin.
    destruct Hin as (allItems & numbers & date & Hr & Hdt & (td & Htd & Ed) & Hnum).
    apply MandiriFacts.parseDate_inv in Hr.
    destruct Hr as (a & b & _ & Hb & Hy & _ & _ & Hsal & Hty).
    destruct (Hkind _ Hty) as [K1 K2].
    destruct (Hnum b Hb) as (Hbt & tb & Htb & Eb).
    repeat split; auto.
    + exists td. simpl. rewrite <- Ed. auto.
    + exists tb. simpl. rewrite <- Eb. auto.
  - apply MandiriFacts.parsePatternBased_line in Hin. destruct Hin as (line & Hr & Hline).
    apply MandiriFacts.parseLine_inv in Hr.
    destruct Hr as (d & a & b & Hd & _ & Hb & Hdt & _ & Hbt & Hy & _ & _ & Hsal & Hty).
    destruct (Hkind _ Hty) as [K1 K2].
    destruct (Hline d Hd) as (td & Htd & Ed). destruct (Hline b Hb) as (tb & Htb & Eb).
    repeat split; auto.
    + exists td. simpl. rewrite <- Ed. auto.
    + exists tb. simpl. rewrite <- Eb. auto.
Qed.

(** the records of a page come from one of the three strategies *)
Lemma parsePage_strategy items year r :
  In r (parsePage items year) ->
  exists s, s <> Sequential /\ In r (match run s items year with
                                     | Returns recs => recs
                                     | _ => []
                                     end).
Proof.
  unfold parsePage, parsePageTraced.
  destruct (0 <? length (parseMandiriPage items year))%nat.
  - intros H. exists RowReconstruction. split; [discriminate|exact H].
  - destruct (0 <? length (parseDirectTransactions items year))%nat.
    + intros H. exists DirectToken. split; [discriminate|exact H].
    + intros H. exists PatternLine. split; [discriminate|exact H].
Qed.

Lemma parsePage_record items year r :
  In r (parsePage items year) ->
  exists s recs, s <> Sequential /\ run s items year = Returns recs /\ In r recs.
Proof.
  intros H. destruct (parsePage_strategy items year r H) as (s & Hs & Hin).
  exists s. destruct s; [congruence| | |]; simpl in *; eauto.
Qed.

Lemma parsePages_page year pages r :
  In r (parsePages year pages) -> exists page, In page pages /\ In r (parsePage page year).
Proof.
  induction pages as [|page pages IH]; simpl; [tauto|].
  destruct pages as [|page' pages].
  - destruct (isDisclaimerPage page); [intros []|].
    intros H. exists page. auto.
  - intros H. apply in_app_iff in H. destruct H as [H|H].
    + exists page. auto.
    + destruct (IH H) as (p & Hp & Hr). exists p. auto.
Qed.

(** the three unsigned-or-signed patterns are within the signed one *)
Lemma balance_is_signed s t :
  s <> Sequential -> matches (balanceRgx s) t = true -> matches signedRgx t = true.
Proof.
  intros Hs H. destruct s; [congruence| |exact H|]; simpl in H;
    apply matches_lang in H; apply matches_lang.
  - apply MoneyFacts.lang_seq_intro with "" t; [apply lang_alt_l; constructor|exact H|reflexivity].
  - apply lang_Seq_inv in H. destruct H as (s1 & s2 & -> & H1 & H2).
    constructor; [|exact H2].
    apply lang_Opt_inv in H1. destruct H1 as [->|H1]; [apply lang_alt_l; constructor|].
    apply lang_Lit_inv in H1. subst s1. apply lang_alt_r. now constructor.
Qed.

End FormatBFacts.

(** X11 (parseMandiriStatement, lines 248-263 and 290-300; the three
    parsers, lines 427, 545, 688): every record of a Mandiri statement
    carries the year resolved once from the first page. *)
Theorem mandiri_statement_one_year (pages : list (list TextItem)) (r : TrxRecord) :
  In r (Mandiri.parseMandiriStatement pages) ->
  tahun r = Mandiri.resolveYear (hd [] pages).
Proof.
  unfold Mandiri.parseMandiriStatement. intros H.
  apply FormatBFacts.parsePages_page in H. destruct H as (page & _ & H).
  apply FormatBFacts.parsePage_record in H. destruct H as (s & recs & Hs & Hrun & Hin).
  now destruct (FormatBFacts.formatB_record s page _ recs r Hs Hrun Hin) as [Hy _].
Qed.

(** X12 (lines 418-423, 529-536, 679-684): a record of a Format-B
    strategy is an opening balance exactly when its description contains
    "saldo awal" up to case; it need not equal it. *)
Theorem formatB_opening_balance_iff (s : strategy) (items : list TextItem) (year : jsnum)
    (recs : list TrxRecord) (r : TrxRecord) :
  s <> Sequential -> run s items year = Returns recs -> In r recs ->
  (type r = saldo_awal <-> includes (toLowerCase (ket r)) "saldo awal" = true).
Proof.
  intros Hs Hrun Hin.
  destruct (FormatBFacts.formatB_record s items year recs r Hs Hrun Hin)
    as (_ & K1 & K2 & _).
  fold (Mandiri.isSaldoAwal (ket r)).
  destruct (Mandiri.isSaldoAwal (ket r)) eqn:E.
  - split; auto.
  - split; [intros H; now apply K2 in H|discriminate].
Qed.

(** X13 (lines 349-354, 388-392, 459-476, 639-644): a Format-B page
    without a token matching the textual date pattern, or without a token
    matching the signed decimal pattern, gives no record, whatever the
    strategy. *)
Theorem formatB_needs_date_and_number (items : list TextItem) (year : jsnum) :
  (forall t, In t items -> dateAccepts RowReconstruction (str t) = false)
  \/ (forall t, In t items -> matches Mandiri.signedRgx (str t) = false) ->
  Mandiri.parseMandiriPage items year = []
  /\ Mandiri.parseDirectTransactions items year = []
  /\ Mandiri.parsePatternBased items year = []
  /\ Mandiri.parsePage items year = [].
Proof.
  intros H.
  assert (Hnone : forall s recs, s <> Sequential -> run s items year = Returns recs ->
                    recs = []).
  { intros s recs Hs Hrun. destruct recs as [|r recs]; [reflexivity|exfalso].
    destruct (FormatBFacts.formatB_record s items year (r :: recs) r Hs Hrun (or_introl eq_refl))
      as (_ & _ & _ & (td & Htd & Hd) & (tb & Htb & Hb & _)).
    destruct H as [H|H].
    - assert (Hrow : dateAccepts RowReconstruction (str td) = true).
      { destruct s; [congruence|exact Hd| |]; simpl in Hd |- *; now rewrite Hd. }
      rewrite (H td Htd) in Hrow. discriminate.
    - apply (FormatBFacts.balance_is_signed s _ Hs) in Hb.
      rewrite (H tb Htb) in Hb. discriminate. }
  assert (H1 : Mandiri.parseMandiriPage items year = [])
    by (apply (Hnone RowReconstruction); [discriminate|reflexivity]).
  assert (H2 : Mandiri.parseDirectTransactions items year = [])
    by (apply (Hnone DirectToken); [discriminate|reflexivity]).
  assert (H3 : Mandiri.parsePatternBased items year = [])
    by (apply (Hnone PatternLine); [discriminate|reflexivity]).
  repeat split; auto.
  unfold Mandiri.parsePage, Mandiri.parsePageTraced. now rewrite H1, H2, H3.
Qed.

(** the record of the first page of the sample statement *)
Lemma mandiri_statement_one_year_witness :
  Num 2024 = Mandiri.resolveYear (hd [] MoreSamples.statement_pages).
Proof.
  apply (mandiri_statement_one_year MoreSamples.statement_pages
           (mkTrx (Num 2024) "01 Jan 2025" "1 TRANSFER KELUAR" debit
                  (Num 1000000) (Num 5000000))).
  vm_compute. left. reflexivity.
Defined.

(** the opening row of a sample page: its description only contains the
    phrase *)
Lemma formatB_opening_balance_iff_witness :
  saldo_awal = saldo_awal <->
  includes (toLowerCase "1 Saldo Awal Bulan") "saldo awal" = true.
Proof.
  apply (formatB_opening_balance_iff RowReconstruction MoreSamples.page_opening (Num 2025)
           [mkTrx (Num 2025) "01 Jan 2025" "1 Saldo Awal Bulan" saldo_awal
                  (Num 0) (Num 5000000)]
           (mkTrx (Num 2025) "01 Jan 2025" "1 Saldo Awal Bulan" saldo_awal
                  (Num 0) (Num 5000000))).
  - discriminate.
  - vm_compute. reflexivity.
  - left. reflexivity.
Defined.

(** the header row alone: no date token *)
Lemma formatB_needs_date_and_number_witness :
  Mandiri.parseMandiriPage Samples.header (Num 2025) = []
  /\ Mandiri.parseDirectTransactions Samples.header (Num 2025) = []
  /\ Mandiri.parsePatternBased Samples.header (Num 2025) = []
  /\ Mandiri.parsePage Samples.header (Num 2025) = [].
Proof.
  apply formatB_needs_date_and_number. left.
  intros t Hin. simpl in Hin.
  repeat (destruct Hin as [<-|Hin]; [vm_compute; reflexivity|]). destruct Hin.
Defined.

Module PageFacts.
Import Mandiri Vocabulary RegexFacts.

Lemma parsePages_cons year page rest :
  rest <> [] -> parsePages year (page :: rest) = parsePage page year ++ parsePages year rest.
Proof. destruct rest; [congruence|reflexivity]. Qed.

(** the pages before the last are always parsed; the last one is
    skipped when it is only a disclaimer *)
Lemma parsePages_snoc year pages last :
  parsePages year (pages ++ [last]) =
    flat_map (fun page => parsePage page year) pages
    ++ (if isDisclaimerPage last then [] else parsePage last year).
Proof.
  induction pages as [|page pages IH]; [reflexivity|].
  change ((page :: pages) ++ [last]) with (page :: (pages ++ [last])).
  rewrite parsePages_cons by (destruct pages; discriminate).
  rewrite IH. cbn [flat_map]. now rewrite app_assoc.
Qed.

Lemma includes_cons c s w :
  includes (String c s) w = String.prefix w (String c s) || includes s w.
Proof. reflexivity. Qed.

Lemma includes_app_l s1 s2 w : includes s1 w = true -> includes (s1 ++ s2) w = true.
Proof.
  induction s1 as [|c s1 IH]; intros H.
  - destruct w; [destruct s2; reflexivity|discriminate].
  - rewrite includes_cons in H.
    change ((String c s1 ++ s2)%string) with (String c (s1 ++ s2)).
    rewrite includes_cons.
    apply orb_true_iff in H. destruct H as [H|H].
    + change (String c (s1 ++ s2)) with ((String c s1 ++ s2)%string).
      now rewrite (StringFacts.prefix_app w (String c s1) s2 H).
    + rewrite (IH H). apply orb_true_r.
Qed.

Lemma includes_app_r s1 s2 w : includes s2 w = true -> includes (s1 ++ s2) w = true.
Proof.
  induction s1 as [|c s1 IH]; intros H; [exact H|].
  change ((String c s1 ++ s2)%string) with (String c (s1 ++ s2)).
  rewrite includes_cons, (IH H). apply orb_true_r.
Qed.

(** a word inside one of the strings is inside their concatenation *)
Lemma includes_join sep l s w :
  In s l -> includes s w = true -> includes (join sep l) w = true.
Proof.
  unfold join. induction l as [|a l IH]; [intros []|].
  intros Hin Hw. destruct l as [|b l].
  - destruct Hin as [->|[]]. exact Hw.
  - change (String.concat sep (a :: b :: l))
      with (a ++ sep ++ String.concat sep (b :: l))%string.
    destruct Hin as [->|Hin]; [now apply includes_app_l|].
    apply includes_app_r, includes_app_r. now apply IH.
Qed.

Lemma header_token_not_disclaimer items t :
  In t items -> includes (str t) "Tanggal" = true \/ includes (str t) "Date" = true ->
  isDisclaimerPage items = false.
Proof.
  intros Hin H. unfold isDisclaimerPage. cbv zeta.
  assert (Hs : In (str t) (map str items)) by now apply in_map.
  destruct H as [H|H].
  - rewrite (includes_join " " _ _ "Tanggal" Hs H). cbn [negb]. now rewrite andb_false_r.
  - rewrite (includes_join " " _ _ "Date" Hs H). cbn [negb]. now rewrite !andb_false_r.
Qed.

Lemma existsb_none {A} (p : A -> bool) l :
  (forall a, In a l -> p a = false) -> existsb p l = false.
Proof.
  induction l as [|a l IH]; simpl; intros H; [reflexivity|].
  rewrite (H a (or_introl eq_refl)). apply IH. intros b Hb. apply H. now right.
Qed.

(** a row with no cell of text [w] up to case *)
Lemma row_without items row w :
  (forall t, In t items -> toLowerCase (str t) <> w) ->
  In row (groupIntoRows (mapi toPositioned items)) ->
  existsb (String.eqb w) (map (fun item => toLowerCase (text item)) row) = false.
Proof.
  intros H Hrow. apply existsb_none. intros s Hs.
  apply in_map_iff in Hs. destruct Hs as (p & <- & Hp).
  destruct (MandiriFacts.toPositioned_token items p) as (t & Ht & E).
  - eapply MandiriFacts.groupIntoRows_In; eauto.
  - rewrite E. apply String.eqb_neq. intros Heq. now apply (H t Ht).
Qed.





End PageFacts.

(** X14 (parseMandiriStatement, lines 266-305): the records of a Mandiri
    statement are those of its pages in page order; every page but the
    last is parsed, and the last one is left out exactly when it is a
    disclaimer page. *)
Theorem mandiri_statement_pages (year : jsnum) (pages : list (list TextItem))
    (last : list TextItem) :
  Mandiri.parsePages year (pages ++ [last]) =
    flat_map (fun page => Mandiri.parsePage page year) pages
    ++ (if Mandiri.isDisclaimerPage last then [] else Mandiri.parsePage last year).
Proof. exact (PageFacts.parsePages_snoc year pages last). Qed.

(** X15 (parseMandiriStatement, lines 268-280): a last page that holds a
    token containing "Tanggal" or "Date" is never skipped, also when it
    mentions a disclaimer. *)
Theorem mandiri_last_page_with_header (year : jsnum) (pages : list (list TextItem))
    (last : list TextItem) (t : TextItem) :
  In t last -> includes (str t) "Tanggal" = true \/ includes (str t) "Date" = true ->
  Mandiri.parsePages year (pages ++ [last]) =
    flat_map (fun page => Mandiri.parsePage page year) pages ++ Mandiri.parsePage last year.
Proof.
  intros Hin H. rewrite PageFacts.parsePages_snoc.
  now rewrite (PageFacts.header_token_not_disclaimer last t Hin H).
Qed.

(** the sample page with its header cell "Tanggal" *)
Lemma mandiri_last_page_with_header_witness :
  Mandiri.parsePages (Num 2025) ([Samples.page_credit] ++ [Samples.page_debit]) =
    flat_map (fun page => Mandiri.parsePage page (Num 2025)) [Samples.page_credit]
    ++ Mandiri.parsePage Samples.page_debit (Num 2025).
Proof.
  apply (mandiri_last_page_with_header (Num 2025) [Samples.page_credit] Samples.page_debit
           (Samples.cell "Tanggal" 80 700)).
  - right. left. reflexivity.
  - left. vm_compute. reflexivity.
Defined.

(** X16 (parseMandiriPage and findHeaderRow, lines 334-335, 581-594): a
    page without a cell whose text is "no" up to case, or without a cell
    whose text is "tanggal" or "date" up to case, gives no record by row
    reconstruction. *)
Theorem row_reconstruction_needs_header (items : list TextItem) (year : jsnum) :
  (forall t, In t items -> toLowerCase (str t) <> "no")
  \/ (forall t, In t items -> toLowerCase (str t) <> "tanggal"
                              /\ toLowerCase (str t) <> "date") ->
  Mandiri.parseMandiriPage items year = [].
Proof.
  intros H. unfold Mandiri.parseMandiriPage. cbv zeta.
  unfold Mandiri.findHeaderRow, findIndex.
  rewrite AnchorFacts.findIndexFrom_none; [reflexivity|].
  intros row j Hrow. unfold Mandiri.isHeaderRow. cbv zeta.
  destruct H as [H|H].
  - now rewrite (PageFacts.row_without items row "no" H Hrow).
  - rewrite (PageFacts.row_without items row "tanggal" (fun t Ht => proj1 (H t Ht)) Hrow).
    rewrite (PageFacts.row_without items row "date" (fun t Ht => proj2 (H t Ht)) Hrow).
    now rewrite !andb_false_r.
Qed.

(** the debit row without its header row *)
Lemma row_reconstruction_needs_header_witness :
  Mandiri.parseMandiriPage Samples.page_headless (Num 2025) = [].
Proof.
  apply row_reconstruction_needs_header. left.
  intros t Hin. simpl in Hin.
  repeat (destruct Hin as [<-|Hin]; [vm_compute; discriminate|]). destruct Hin.
Defined.



(* ================================================================== *)
(** ** Further properties: rows and lines *)

Module GroupFacts.
Import Mandiri Vocabulary.

Section MapPush.
Context {V : Type} (key : V -> Z).

Lemma mapPush_perm k (v : V) m : Permutation (members (mapPush k v m)) (v :: members m).
Proof.
  unfold members. induction m as [|[k' vs] m IH]; simpl; [reflexivity|].
  destruct (k' =? k)%Z; simpl.
  - rewrite <- app_assoc. simpl. symmetry. apply Permutation_middle.
  - rewrite IH. symmetry. apply Permutation_middle.
Qed.

Lemma fold_mapPush_perm items :
  forall m, Permutation (members (fold_left (fun m v => mapPush (key v) v m) items m))
                        (members m ++ items).
Proof.
  induction items as [|v items IH]; intros m; simpl; [now rewrite app_nil_r|].
  rewrite IH, mapPush_perm. simpl. apply Permutation_middle.
Qed.

(** an entry after a push is an old entry, or the entry of the pushed key *)
Lemma mapPush_entry k0 (v : V) m k vs :
  In (k, vs) (mapPush k0 v m) ->
  In (k, vs) m
  \/ (k = k0 /\ (vs = [v] \/ exists vs0, In (k0, vs0) m /\ vs = vs0 ++ [v])).
Proof.
  induction m as [|[k' vs'] m IH]; simpl.
  - intros [[= <- <-]|[]]. right. auto.
  - destruct (k' =? k0)%Z eqn:E.
    + apply Z.eqb_eq in E. subst k'. intros [[= <- <-]|H]; [|auto].
      right. split; [reflexivity|]. right. exists vs'. auto.
    + intros [H|H]; [auto|].
      destruct (IH H) as [H'|(-> & [->|(vs0 & H0 & ->)])]; auto.
      right. split; [reflexivity|]. right. exists vs0. auto.
Qed.

Lemma mapPush_keys k (v : V) m :
  (In k (map fst m) /\ map fst (mapPush k v m) = map fst m)
  \/ (~ In k (map fst m) /\ map fst (mapPush k v m) = map fst m ++ [k]).
Proof.
  induction m as [|[k' vs] m IH]; simpl; [right; auto|].
  destruct (k' =? k)%Z eqn:E.
  - apply Z.eqb_eq in E. left. auto.
  - apply Z.eqb_neq in E. simpl.
    destruct IH as [[Hin Heq]|[Hnin Heq]]; rewrite Heq; [left|right]; split; auto.
    intros [H|H]; auto.
Qed.

Lemma mapPush_NoDup k (v : V) m : NoDup (map fst m) -> NoDup (map fst (mapPush k v m)).
Proof.
  intros H. destruct (mapPush_keys k v m) as [[_ ->]|[Hnin ->]]; [exact H|].
  apply NoDup_app; [exact H|repeat constructor; intros []|].
  intros a Ha [<-|[]]. contradiction.
Qed.

Lemma fold_mapPush_NoDup items :
  forall m, NoDup (map fst m) ->
            NoDup (map fst (fold_left (fun m v => mapPush (key v) v m) items m)).
Proof.
  induction items as [|v items IH]; intros m H; simpl; [exact H|].
  now apply IH, mapPush_NoDup.
Qed.

(** every group is not empty and keeps the order of the items *)
Lemma fold_mapPush_groups items :
  forall seen m,
    (forall k vs, In (k, vs) m -> vs <> [] /\ subseq vs seen) ->
    forall k vs, In (k, vs) (fold_left (fun m v => mapPush (key v) v m) items m) ->
                 vs <> [] /\ subseq vs (seen ++ items).
Proof.
  induction items as [|v items IH]; intros seen m Hm; simpl.
  - intros k vs H. rewrite app_nil_r. exact (Hm k vs H).
  - intros k vs H.
    replace (seen ++ v :: items) with ((seen ++ [v]) ++ items)
      by (rewrite <- app_assoc; reflexivity).
    apply (IH (seen ++ [v]) (mapPush (key v) v m)) with (k := k); [|exact H].
    intros k1 vs1 H1.
    destruct (mapPush_entry _ _ _ _ _ H1) as [H'|(-> & [->|(vs0 & H0 & ->)])].
    + destruct (Hm _ _ H') as [Hne Hsub]. split; [exact Hne|].
      now apply OrderFacts.subseq_app_r.
    + split; [discriminate|].
      change [v] with ([] ++ [v]). apply OrderFacts.subseq_snoc, OrderFacts.subseq_nil_l.
    + destruct (Hm _ _ H0) as [_ Hsub]. split; [destruct vs0; discriminate|].
      now apply OrderFacts.subseq_snoc.
Qed.

Lemma mapGet_found k (vs : list V) m :
  NoDup (map fst m) -> In (k, vs) m -> mapGet k m = vs.
Proof.
  induction m as [|[k' vs'] m IH]; simpl; [tauto|].
  intros Hnd [[= -> ->]|Hin].
  - now rewrite Z.eqb_refl.
  - apply NoDup_cons_iff in Hnd. destruct Hnd as [Hnin Hnd].
    destruct (k' =? k)%Z eqn:E; [|now apply IH].
    apply Z.eqb_eq in E. subst k'. exfalso. apply Hnin.
    apply in_map_iff. exists (k, vs). auto.
Qed.

Lemma mapGet_all m :
  NoDup (map fst m) -> map (fun k => mapGet k m) (map fst m) = map (@snd Z (list V)) m.
Proof.
  intros Hnd. rewrite map_map. apply map_ext_in.
  intros [k vs] Hin. simpl. now apply mapGet_found.
Qed.

End MapPush.

Section Sorting.
Context {A : Type} (cmp : A -> A -> Q) (R : A -> A -> Prop).
Hypothesis R_le : forall a b, Qle_bool (cmp a b) 0 = true -> R a b.
Hypothesis R_gt : forall a b, Qle_bool (cmp a b) 0 = false -> R b a.
Hypothesis R_trans : forall a b c, R a b -> R b c -> R a c.

Lemma insert_ordered a l : ForallOrdPairs R l -> ForallOrdPairs R (insert cmp a l).
Proof.
  induction 1 as [|b l Hb Hl IH]; simpl.
  - constructor; constructor.
  - destruct (Qle_bool (cmp a b) 0) eqn:E.
    + constructor; [|constructor; assumption].
      constructor; [now apply R_le|].
      apply Forall_forall. intros c Hc. rewrite Forall_forall in Hb.
      apply R_trans with b; [now apply R_le|now apply Hb].
    + constructor; [|exact IH].
      apply Forall_forall. intros c Hc. apply ArrayFacts.In_insert in Hc.
      destruct Hc as [->|Hc]; [now apply R_gt|]. rewrite Forall_forall in Hb. now apply Hb.
Qed.

Lemma sortBy_ordered l : ForallOrdPairs R (sortBy cmp l).
Proof.
  induction l as [|a l IH]; simpl; [constructor|now apply insert_ordered].
Qed.

End Sorting.

Lemma insert_perm {A} (cmp : A -> A -> Q) a l : Permutation (insert cmp a l) (a :: l).
Proof.
  induction l as [|b l IH]; simpl; [reflexivity|].
  destruct (Qle_bool (cmp a b) 0); [reflexivity|].
  rewrite IH. apply perm_swap.
Qed.

Lemma sortBy_perm {A} (cmp : A -> A -> Q) l : Permutation (sortBy cmp l) l.
Proof.
  induction l as [|a l IH]; simpl; [reflexivity|].
  rewrite insert_perm. now constructor.
Qed.

(** the keys in decreasing order *)
Lemma keys_descending {A} (f : A -> Z) l :
  ForallOrdPairs (fun a b => (f b <= f a)%Z) (sortBy (fun a b => inject_Z (f b - f a)) l).
Proof.
  apply sortBy_ordered.
  - intros a b H. apply Qle_bool_iff in H. unfold Qle in H. simpl in H. lia.
  - intros a b H.
    assert (Hn : ~ inject_Z (f b - f a) <= 0) by (intros Hle; apply Qle_bool_iff in Hle; congruence).
    unfold Qle in Hn. simpl in Hn. lia.
  - intros a b c. lia.
Qed.

(** cells from left to right *)
Lemma cells_ascending (l : list PositionedItem) :
  ForallOrdPairs (fun a b => x a <= x b) (sortBy (fun a b => x a - x b) l).
Proof.
  apply sortBy_ordered.
  - intros a b H. apply Qle_bool_iff in H. lra.
  - intros a b H.
    assert (Hn : ~ x a - x b <= 0) by (intros Hle; apply Qle_bool_iff in Hle; congruence).
    lra.
  - intros a b c. apply Qle_trans.
Qed.

(** ordered and distinct keys are strictly ordered, and so are the groups *)
Lemma groups_strictly_descending (key : PositionedItem -> Z)
    (l : list (Z * list PositionedItem)) :
  ForallOrdPairs (fun a b => (fst b <= fst a)%Z) l ->
  NoDup (map fst l) ->
  (forall k vs, In (k, vs) l -> forall a, In a vs -> key a = k) ->
  ForallOrdPairs (fun r1 r2 => forall a b, In a r1 -> In b r2 -> (key b < key a)%Z)
                 (map snd l).
Proof.
  induction 1 as [|[k vs] l Hk Hl IH]; simpl; intros Hnd Hkey; [constructor|].
  apply NoDup_cons_iff in Hnd. destruct Hnd as [Hnin Hnd].
  constructor.
  - apply Forall_forall. intros r2 Hr2 a b Ha Hb.
    apply in_map_iff in Hr2. destruct Hr2 as ([k2 vs2] & <- & He). simpl in Hb.
    rewrite Forall_forall in Hk. pose proof (Hk _ He) as Hle. simpl in Hle.
    rewrite (Hkey k vs (or_introl eq_refl) a Ha).
    rewrite (Hkey k2 vs2 (or_intror He) b Hb).
    assert (k2 <> k).
    { intros ->. apply Hnin. apply in_map_iff. exists (k, vs2). auto. }
    lia.
  - apply IH; [exact Hnd|]. intros k' vs' H'. apply Hkey. now right.
Qed.

Lemma concat_perm {A} (l l' : list (list A)) :
  Permutation l l' -> Permutation (concat l) (concat l').
Proof.
  intros H. rewrite <- (map_id l), <- (map_id l'), <- !flat_map_concat_map.
  now apply Permutation_flat_map.
Qed.

(** the entries of [groupIntoRows] before they are sorted *)
Lemma row_entries items :
  let rows := fold_left (fun rows item => mapPush (rowKey item) item rows) items [] in
  NoDup (map fst rows)
  /\ Permutation (members rows) items
  /\ (forall k vs, In (k, vs) rows ->
        vs <> [] /\ subseq vs items /\ forall a, In a vs -> rowKey a = k).
Proof.
  cbv zeta. split; [|split].
  - apply fold_mapPush_NoDup. constructor.
  - apply (fold_mapPush_perm rowKey items []).
  - intros k vs H.
    destruct (fold_mapPush_groups rowKey items [] [] (fun _ _ F => match F with end) k vs H)
      as [Hne Hsub].
    repeat split; auto.
    apply (MandiriFacts.fold_mapPush_keyed rowKey items [] (fun _ _ F => match F with end) k vs H).
Qed.

Lemma lines_entries items :
  let groups := fold_left (fun g item => mapPush (round (y item)) item g) items [] in
  NoDup (map fst groups)
  /\ Permutation (members groups) items
  /\ (forall k vs, In (k, vs) groups ->
        vs <> [] /\ forall a, In a vs -> round (y a) = k).
Proof.
  cbv zeta. split; [|split].
  - apply fold_mapPush_NoDup. constructor.
  - apply (fold_mapPush_perm (fun item => round (y item)) items []).
  - intros k vs H.
    destruct (fold_mapPush_groups (fun item => round (y item)) items [] []
                (fun _ _ F => match F with end) k vs H) as [Hne _].
    split; [exact Hne|].
    apply (MandiriFacts.fold_mapPush_keyed (fun item => round (y item)) items []
             (fun _ _ F => match F with end) k vs H).
Qed.

End GroupFacts.

(** X18 (groupIntoRows, lines 560-578): row grouping loses no item and
    repeats none: the rows together are a permutation of the items; no row
    is empty, the cells of a row share one row key and keep the order
    they have in the item list. *)
Theorem rows_partition (items : list Mandiri.PositionedItem) :
  Permutation (concat (Mandiri.groupIntoRows items)) items
  /\ forall row, In row (Mandiri.groupIntoRows items) ->
       row <> [] /\ subseq row items
       /\ forall a b, In a row -> In b row -> Mandiri.rowKey a = Mandiri.rowKey b.
Proof.
  destruct (GroupFacts.row_entries items) as (Hnd & Hperm & Hgroups).
  cbv zeta in Hnd, Hperm, Hgroups. unfold Mandiri.groupIntoRows. cbv zeta.
  split.
  - rewrite <- flat_map_concat_map.
    transitivity (Vocabulary.members
                    (fold_left (fun rows item => mapPush (Mandiri.rowKey item) item rows) items []));
      [|exact Hperm].
    unfold Vocabulary.members. apply Permutation_flat_map, GroupFacts.sortBy_perm.
  - intros row Hrow. apply in_map_iff in Hrow. destruct Hrow as ([k vs] & <- & He).
    apply ArrayFacts.In_sortBy in He. destruct (Hgroups k vs He) as (Hne & Hsub & Hkey).
    simpl. repeat split; auto.
    intros a b Ha Hb. now rewrite (Hkey a Ha), (Hkey b Hb).
Qed.

(** X19 (groupIntoRows, lines 575-577): the rows come from top to
    bottom: every cell of a row has a larger row key than every cell of
    the rows after it. *)
Theorem rows_top_to_bottom (items : list Mandiri.PositionedItem) :
  ForallOrdPairs
    (fun r1 r2 => forall a b, In a r1 -> In b r2 -> (Mandiri.rowKey b < Mandiri.rowKey a)%Z)
    (Mandiri.groupIntoRows items).
Proof.
  destruct (GroupFacts.row_entries items) as (Hnd & _ & Hgroups).
  cbv zeta in Hnd, Hgroups. unfold Mandiri.groupIntoRows. cbv zeta.
  apply GroupFacts.groups_strictly_descending.
  - apply (GroupFacts.keys_descending fst).
  - apply (Permutation_NoDup (l := map fst
             (fold_left (fun rows item => mapPush (Mandiri.rowKey item) item rows) items [])));
      [|exact Hnd].
    apply Permutation_map. symmetry. apply GroupFacts.sortBy_perm.
  - intros k vs He. apply ArrayFacts.In_sortBy in He. now destruct (Hgroups k vs He) as (_ & _ & Hkey).
Qed.

Module LineFacts.
Import Mandiri Vocabulary GroupFacts.

Lemma sorted_members (m : list (Z * list PositionedItem)) :
  Permutation
    (members (map (fun kv => (fst kv, sortBy (fun a b => x a - x b) (snd kv))) m))
    (members m).
Proof.
  unfold members. induction m as [|[k vs] m IH]; simpl; [reflexivity|].
  apply Permutation_app; [apply sortBy_perm|exact IH].
Qed.

(** the lines of [groupIntoLines]: each is a sorted group, and together
    they are the groups *)
Lemma lines_of_groups items :
  let groups := fold_left (fun g item => mapPush (round (y item)) item g) items [] in
  let sorted := map (fun kv => (fst kv, sortBy (fun a b => x a - x b) (snd kv))) groups in
  let sortedY := sortBy (fun a b => inject_Z (b - a)) (map fst sorted) in
  groupIntoLines items = map (fun yk => mapGet yk sorted) sortedY
  /\ NoDup sortedY
  /\ Permutation (map (fun yk => mapGet yk sorted) sortedY) (map snd sorted)
  /\ forall yk, In yk sortedY ->
       exists vs, In (yk, vs) groups
                  /\ mapGet yk sorted = sortBy (fun a b => x a - x b) vs.
Proof.
  cbv zeta.
  destruct (lines_entries items) as (Hnd & _ & _). cbv zeta in Hnd.
  set (groups := fold_left (fun g item => mapPush (round (y item)) item g) items []) in *.
  set (sorted := map (fun kv => (fst kv, sortBy (fun a b => x a - x b) (snd kv))) groups).
  assert (Hkeys : map fst sorted = map fst groups).
  { unfold sorted. rewrite map_map. reflexivity. }
  assert (Hnd' : NoDup (map fst sorted)) by now rewrite Hkeys.
  split; [reflexivity|]. split; [|split].
  - apply (Permutation_NoDup (l := map fst sorted)); [|exact Hnd'].
    symmetry. apply sortBy_perm.
  - rewrite <- (mapGet_all sorted Hnd').
    apply Permutation_map, sortBy_perm.
  - intros yk Hyk. apply ArrayFacts.In_sortBy in Hyk.
    rewrite Hkeys in Hyk. apply in_map_iff in Hyk. destruct Hyk as ([k vs] & <- & He).
    exists vs. split; [exact He|]. simpl.
    apply mapGet_found; [exact Hnd'|].
    unfold sorted. apply in_map_iff. exists (k, vs). auto.
Qed.

End LineFacts.

(** X20 (parsePatternBased, lines 607-628): line grouping loses no item
    and repeats none: the lines together are a permutation of the items;
    no line is empty, the tokens of a line share one rounded y and go
    from left to right. *)
Theorem lines_partition (items : list Mandiri.PositionedItem) :
  Permutation (concat (Mandiri.groupIntoLines items)) items
  /\ forall line, In line (Mandiri.groupIntoLines items) ->
       line <> []
       /\ ForallOrdPairs (fun a b => Mandiri.x a <= Mandiri.x b) line
       /\ forall a b, In a line -> In b line ->
            round (Mandiri.y a) = round (Mandiri.y b).
Proof.
  destruct (LineFacts.lines_of_groups items) as (Hlines & _ & Hperm & Hline).
  destruct (GroupFacts.lines_entries items) as (_ & Hitems & Hgroups).
  cbv zeta in Hlines, Hperm, Hline, Hitems, Hgroups.
  rewrite Hlines. split.
  - rewrite (GroupFacts.concat_perm _ _ Hperm), <- flat_map_concat_map.
    fold (Vocabulary.members
            (map (fun kv => (fst kv, sortBy (fun a b => Mandiri.x a - Mandiri.x b) (snd kv)))
                 (fold_left (fun g item => mapPush (round (Mandiri.y item)) item g) items []))).
    now rewrite LineFacts.sorted_members.
  - intros line Hin. apply in_map_iff in Hin. destruct Hin as (yk & <- & Hyk).
    destruct (Hline yk Hyk) as (vs & He & ->).
    destruct (Hgroups yk vs He) as [Hne Hkey].
    split; [|split].
    + intros E. apply Hne. apply length_zero_iff_nil.
      now rewrite <- (ArrayFacts.length_sortBy (fun a b => Mandiri.x a - Mandiri.x b)), E.
    + apply GroupFacts.cells_ascending.
    + intros a b Ha Hb. apply ArrayFacts.In_sortBy in Ha, Hb.
      now rewrite (Hkey a Ha), (Hkey b Hb).
Qed.

(** X21 (parsePatternBased, lines 624-628): the lines come from top to
    bottom: every token of a line has a larger rounded y than every token
    of the lines after it. *)
Theorem lines_top_to_bottom (items : list Mandiri.PositionedItem) :
  ForallOrdPairs
    (fun l1 l2 => forall a b, In a l1 -> In b l2 ->
                              (round (Mandiri.y b) < round (Mandiri.y a))%Z)
    (Mandiri.groupIntoLines items).
Proof.
  destruct (LineFacts.lines_of_groups items) as (Hlines & Hnd & _ & Hline).
  destruct (GroupFacts.lines_entries items) as (_ & _ & Hgroups).
  cbv zeta in Hlines, Hnd, Hline, Hgroups.
  rewrite Hlines.
  set (sorted := map (fun kv => (fst kv, sortBy (fun a b => Mandiri.x a - Mandiri.x b) (snd kv)))
                     (fold_left (fun g item => mapPush (round (Mandiri.y item)) item g) items [])) in *.
  set (sortedY := sortBy (fun a b => inject_Z (b - a)) (map fst sorted)) in *.
  replace (map (fun yk => mapGet yk sorted) sortedY)
    with (map snd (map (fun yk => (yk, mapGet yk sorted)) sortedY))
    by (rewrite map_map; reflexivity).
  apply (GroupFacts.groups_strictly_descending (fun a => round (Mandiri.y a))).
  - assert (Hdesc : ForallOrdPairs (fun a b => (b <= a)%Z) sortedY)
      by apply (GroupFacts.keys_descending (fun k => k)).
    clear -Hdesc. induction Hdesc as [|k l Hk _ IH]; simpl; constructor; auto.
    apply Forall_forall. intros e He. apply in_map_iff in He. destruct He as (k' & <- & Hk').
    rewrite Forall_forall in Hk. simpl. now apply Hk.
  - rewrite map_map. simpl. now rewrite map_id.
  - intros k vs He a Ha. apply in_map_iff in He. destruct He as (yk & [= <- <-] & Hyk).
    destruct (Hline yk Hyk) as (vs & Hg & E). rewrite E in Ha.
    apply ArrayFacts.In_sortBy in Ha. now apply (proj2 (Hgroups yk vs Hg)).
Qed.

Module YearFacts.
Import Mandiri Vocabulary RegexFacts.












End YearFacts.


Module TextFacts.
Import BCA.

(** two token lists with the same texts *)
Section SameTexts.

Variables items items' : list Pdfjs.TextItem.
Hypothesis Htexts : map Pdfjs.str items = map Pdfjs.str items'.

Lemma same_length : length items = length items'.
Proof. now rewrite <- (length_map Pdfjs.str items), Htexts, length_map. Qed.

Lemma same_nth i :
  option_map Pdfjs.str (nth_error items i) = option_map Pdfjs.str (nth_error items' i).
Proof. now rewrite <- !nth_error_map, Htexts. Qed.

Lemma followedByDB_text currentIdx :
  followedByDB items currentIdx = followedByDB items' currentIdx.
Proof.
  unfold followedByDB. rewrite same_length.
  pose proof (same_nth (currentIdx + 2)) as E.
  destruct (nth_error items (currentIdx + 2)) as [a|],
           (nth_error items' (currentIdx + 2)) as [a'|];
    simpl in E; try discriminate; [|reflexivity].
  injection E as E. now rewrite E.
Qed.

Lemma scanDetails_text fuel : forall rec currentIdx foundMutasi detailLines,
  scanDetails fuel items rec currentIdx foundMutasi detailLines
  = scanDetails fuel items' rec currentIdx foundMutasi detailLines.
Proof.
  induction fuel as [|fuel IH]; intros rec currentIdx foundMutasi detailLines;
    [reflexivity|].
  cbn [scanDetails].
  pose proof (same_nth currentIdx) as E.
  destruct (nth_error items currentIdx) as [a|],
           (nth_error items' currentIdx) as [a'|];
    simpl in E; try discriminate; [|reflexivity].
  injection E as E. rewrite <- E, <- followedByDB_text. cbv zeta.
  destruct (test dateRgx (Pdfjs.str a)); [reflexivity|].
  destruct (test moneyRgx (Pdfjs.str a)).
  - destruct (followedByDB items currentIdx) as [[|]| |]; try reflexivity.
    + destruct (isEndMarker (Pdfjs.str a)); [reflexivity|apply IH].
    + destruct (negb foundMutasi); [|reflexivity].
      destruct (isEndMarker (Pdfjs.str a)); [reflexivity|apply IH].
  - destruct (isEndMarker (Pdfjs.str a)); [reflexivity|apply IH].
Qed.

Lemma scanRows_text tahun fuel : forall txrecs currentRecord currentIdx,
  scanRows fuel items tahun txrecs currentRecord currentIdx
  = scanRows fuel items' tahun txrecs currentRecord currentIdx.
Proof.
  induction fuel as [|fuel IH]; intros txrecs currentRecord currentIdx; [reflexivity|].
  cbn [scanRows].
  pose proof (same_nth currentIdx) as E.
  destruct (nth_error items currentIdx) as [a|],
           (nth_error items' currentIdx) as [a'|];
    simpl in E; try discriminate; [|reflexivity].
  injection E as E. rewrite <- E.
  destruct (isEndMarker (Pdfjs.str a)); [reflexivity|].
  unfold extendKet. rewrite <- E.
  destruct (test dateRgx (Pdfjs.str a)); [|apply IH].
  cbv zeta. rewrite <- same_length.
  pose proof (same_nth (currentIdx + 1)) as E1.
  destruct (nth_error items (currentIdx + 1)) as [b|] eqn:Eb,
           (nth_error items' (currentIdx + 1)) as [b'|] eqn:Eb';
    simpl in E1; try discriminate; cbv beta iota.
  - injection E1 as E1. rewrite <- E1.
    pose proof (same_nth (currentIdx + 1 + 1)) as E2.
    destruct (nth_error items (currentIdx + 1 + 1)) as [c|],
             (nth_error items' (currentIdx + 1 + 1)) as [c'|];
      simpl in E2; try discriminate.
    + injection E2 as E2. rewrite <- E2, <- scanDetails_text.
      destruct (scanDetails _ _ _ _ _ _) as [[[r i] d]| |]; try reflexivity. apply IH.
    + rewrite <- scanDetails_text.
      destruct (scanDetails _ _ _ _ _ _) as [[[r i] d]| |]; try reflexivity. apply IH.
  - rewrite Eb, Eb', <- scanDetails_text.
    destruct (scanDetails _ _ _ _ _ _) as [[[r i] d]| |]; try reflexivity. apply IH.
Qed.

End SameTexts.

Lemma findIndexFrom_text (p : string -> nat -> bool) : forall items items' i,
  map Pdfjs.str items = map Pdfjs.str items' ->
  findIndexFrom (fun it idx => p (Pdfjs.str it) idx) items i
  = findIndexFrom (fun it idx => p (Pdfjs.str it) idx) items' i.
Proof.
  induction items as [|a items IH]; intros [|a' items'] i H; try discriminate;
    [reflexivity|].
  injection H as Ha H. simpl. rewrite Ha. destruct (p _ i); [reflexivity|now apply IH].
Qed.

Lemma skipn_text n : forall items items',
  map Pdfjs.str items = map Pdfjs.str items' ->
  map Pdfjs.str (skipn n items) = map Pdfjs.str (skipn n items').
Proof. intros items items' H. now rewrite <- !skipn_map, H. Qed.

Lemma firstn_text n : forall items items',
  map Pdfjs.str items = map Pdfjs.str items' ->
  map Pdfjs.str (firstn n items) = map Pdfjs.str (firstn n items').
Proof. intros items items' H. now rewrite <- !firstn_map, H. Qed.

Lemma find_text (q : string -> bool) : forall items items',
  map Pdfjs.str items = map Pdfjs.str items' ->
  option_map Pdfjs.str (find (fun it => q (Pdfjs.str it)) items)
  = option_map Pdfjs.str (find (fun it => q (Pdfjs.str it)) items').
Proof.
  induction items as [|a items IH]; intros [|a' items'] H; try discriminate;
    [reflexivity|].
  injection H as Ha H. simpl. rewrite <- Ha.
  destruct (q (Pdfjs.str a)); [simpl; now rewrite Ha|now apply IH].
Qed.

Lemma findPeriode_text items items' periodeIdx :
  map Pdfjs.str items = map Pdfjs.str items' ->
  findPeriode items periodeIdx = findPeriode items' periodeIdx.
Proof.
  intros H. unfold findPeriode.
  pose proof (find_text (fun s => includes s "20") _ _
                (firstn_text 9 _ _ (skipn_text (periodeIdx + 1) _ _ H))) as E.
  destruct (find _ (firstn 9 (skipn (periodeIdx + 1) items))),
           (find _ (firstn 9 (skipn (periodeIdx + 1) items')));
    simpl in E; congruence.
Qed.

Lemma parseTable_text items items' tahun :
  map Pdfjs.str items = map Pdfjs.str items' ->
  parseTable items tahun = parseTable items' tahun.
Proof.
  intros H. unfold parseTable, findIndex, firstIndexAfter, findIndex.
  rewrite (findIndexFrom_text (fun s _ => (s =? "TANGGAL")%string) items items' 0 H).
  destruct (findIndexFrom _ items' 0) as [t|]; [|reflexivity].
  rewrite (findIndexFrom_text
             (fun s idx => (Z.of_nat t - 5 <? Z.of_nat idx)%Z
                           && (Z.of_nat idx <? Z.of_nat t + 5)%Z
                           && (s =? "KETERANGAN")%string) items items' 0 H).
  destruct (findIndexFrom _ items' 0) as [k|]; [|reflexivity].
  rewrite (findIndexFrom_text (fun s _ => test dateRgx s) _ _ 0
             (skipn_text (t + 1) _ _ H)).
  destruct (findIndexFrom _ (skipn (t + 1) items') 0) as [s|]; [|reflexivity].
  simpl option_map. cbv iota.
  rewrite (same_length _ _ H). apply scanRows_text, H.
Qed.

Lemma parseBCAItems_text items items' :
  map Pdfjs.str items = map Pdfjs.str items' ->
  parseBCAItems items = parseBCAItems items'.
Proof.
  intros H. unfold parseBCAItems, findIndex.
  rewrite (findIndexFrom_text (fun s _ => (s =? "PERIODE")%string) items items' 0 H).
  destruct (findIndexFrom _ items' 0) as [p|]; [|reflexivity].
  rewrite (findPeriode_text _ _ p H). now apply parseTable_text.
Qed.

End TextFacts.

(** X23 (parseBCAItems, lines 38-221): the sequential parser reads the
    texts of the tokens only: two pages whose tokens have the same texts,
    whatever their positions and sizes, give the same result. *)
Theorem bca_reads_text_only (items items' : list Pdfjs.TextItem) :
  map Pdfjs.str items = map Pdfjs.str items' ->
  BCA.parseBCAItems items = BCA.parseBCAItems items'.
Proof. apply TextFacts.parseBCAItems_text. Qed.

Lemma bca_reads_text_only_witness :
  BCA.parseBCAItems Samples.bca_debit
  = BCA.parseBCAItems
      (map (fun it => Pdfjs.mkTextItem (Pdfjs.str it) 0 0 0 0) Samples.bca_debit).
Proof. apply (bca_reads_text_only Samples.bca_debit). reflexivity. Defined.

Module DirectFacts.
Import Mandiri.

Lemma records_of_subseq {A B} (f : A -> option TrxRecord) (g : TrxRecord -> B) (h : A -> B) l :
  (forall a r, f a = Some r -> g r = h a) ->
  subseq (map g (records_of f l)) (map h l).
Proof.
  intros Hf. unfold records_of. induction l as [|a l IH]; simpl; [apply subseq_nil|].
  destruct (f a) as [r|] eqn:E; simpl.
  - rewrite (Hf a r E). now apply subseq_take.
  - now apply subseq_skip.
Qed.

Lemma filter_points (P : string -> bool) items : forall i,
  map text (filter (fun p => P (text p)) (mapi_from toPoint items i))
  = filter P (map Pdfjs.str items).
Proof.
  induction items as [|a items IH]; intros i; simpl; [reflexivity|].
  destruct (P (Pdfjs.str a)); simpl; now rewrite IH.
Qed.

End DirectFacts.

(** X24 (parseDirectTransactions, lines 459-554): the direct token
    parser gives at most one record for each date token, in the order of
    the date tokens in the token stream; the date of a record is the first
    two space-separated parts of its token. *)
Theorem direct_records_follow_dates (items : list Pdfjs.TextItem) (year : jsnum) :
  subseq (map tgl (Mandiri.parseDirectTransactions items year))
         (map (Strategies.dateOf Strategies.DirectToken)
              (filter (Mandiri.test Mandiri.dateRgx) (map Pdfjs.str items)))
  /\ (length (Mandiri.parseDirectTransactions items year)
      <= length (filter (Mandiri.test Mandiri.dateRgx) (map Pdfjs.str items)))%nat.
Proof.
  assert (H : subseq (map tgl (Mandiri.parseDirectTransactions items year))
                (map (Strategies.dateOf Strategies.DirectToken)
                     (filter (Mandiri.test Mandiri.dateRgx) (map Pdfjs.str items)))).
  { unfold Mandiri.parseDirectTransactions. cbv zeta.
    rewrite <- (DirectFacts.filter_points (Mandiri.test Mandiri.dateRgx) items 0), map_map.
    apply DirectFacts.records_of_subseq.
    intros date r Hr. apply MandiriFacts.parseDate_inv in Hr.
    destruct Hr as (a & b & _ & _ & _ & Htgl & _). exact Htgl. }
  split; [exact H|].
  apply OrderFacts.subseq_length in H. now rewrite !length_map in H.
Qed.

Module AppFacts.
Import App.

Lemma split_app sep a b :
  split sep (a ++ String sep b) = split sep a ++ split sep b.
Proof.
  induction a as [|c a IH]; simpl.
  - unfold is_char. now rewrite Ascii.eqb_refl.
  - destruct (is_char c sep); [now rewrite IH|].
    rewrite IH. destruct (DateFacts.split_nonempty sep a) as (h & t & ->). reflexivity.
Qed.

Lemma split_no_sep sep s :
  Vocabulary.all_chars (fun c => negb (is_char c sep)) s = true -> split sep s = [s].
Proof.
  induction s as [|c s IH]; simpl; [reflexivity|]. intros H.
  apply andb_true_iff in H. destruct H as [Hc Hs].
  apply negb_true_iff in Hc. now rewrite Hc, (IH Hs).
Qed.

(** joining the parts with the separator gives the string back *)
Lemma join_split sep s : join (String sep "") (split sep s) = s.
Proof.
  unfold join. induction s as [|c s IH]; simpl; [reflexivity|].
  destruct (DateFacts.split_nonempty sep s) as (h & t & E). rewrite E in *.
  destruct (is_char c sep) eqn:Hc.
  - apply Ascii.eqb_eq in Hc. subst c.
    change (String.concat (String sep "") ("" :: h :: t))
      with (String sep (String.concat (String sep "") (h :: t))).
    now rewrite IH.
  - destruct t as [|h' t]; simpl in *; now rewrite IH.
Qed.

Lemma setLast_snoc l e v : setLast (l ++ [e]) v = l ++ [v].
Proof.
  induction l as [|a l IH]; [reflexivity|].
  simpl. rewrite IH. destruct (l ++ [e]) eqn:E; [|reflexivity].
  now destruct l.
Qed.

Lemma join_snoc sep h t v :
  join sep ((h :: t) ++ [v]) = (join sep (h :: t) ++ sep ++ v)%string.
Proof.
  unfold join. revert h. induction t as [|a t IH]; intros h; [reflexivity|].
  change (String.concat sep ((h :: a :: t) ++ [v]))
    with (h ++ sep ++ String.concat sep ((a :: t) ++ [v]))%string.
  rewrite IH.
  change (String.concat sep (h :: a :: t))
    with (h ++ sep ++ String.concat sep (a :: t))%string.
  now rewrite !RegexFacts.append_assoc.
Qed.

Lemma append_same k t : (k ++ t)%string = k -> t = "".
Proof. induction k as [|c k IH]; simpl; [auto|]. intros [= H]. auto. Qed.

Lemma tagWith_unchanged tags k :
  (forall code tag, In (code, tag) tags -> tag <> "") ->
  (tagWith tags k = k
   <-> forall code tag, In (code, tag) tags -> includes k code = false).
Proof.
  induction tags as [|[code tag] tags IH]; simpl; intros Hne.
  - split; [intros _ c t []|reflexivity].
  - destruct (includes k code) eqn:E.
    + split.
      * intros H. apply append_same in H. now destruct (Hne code tag (or_introl eq_refl)).
      * intros H. specialize (H code tag (or_introl eq_refl)). congruence.
    + rewrite IH by (intros c t Hin; apply (Hne c t); now right).
      split.
      * intros H c t [[= <- <-]|Hin]; [exact E|now apply (H c t)].
      * intros H c t Hin. apply (H c t). now right.
Qed.

Lemma tagWith_prefix tags k : String.prefix k (tagWith tags k) = true.
Proof.
  induction tags as [|[code tag] tags IH]; simpl; [apply DateFacts.prefix_refl|].
  destruct (includes k code); [|exact IH].
  apply StringFacts.prefix_app, DateFacts.prefix_refl.
Qed.

End AppFacts.

(** X25 (replaceExtenstion, App.tsx lines 118-122): a file name without a
    dot is replaced by the new extension as a whole: the default name
    "bank_statement" gives the file name "csv". *)
Theorem replaceExtenstion_without_dot (input newExt : string) :
  Vocabulary.all_chars (fun c => negb (is_char c ".")) input = true ->
  App.replaceExtenstion input newExt = newExt.
Proof.
  intros H. unfold App.replaceExtenstion. now rewrite (AppFacts.split_no_sep _ _ H).
Qed.

Lemma replaceExtenstion_without_dot_witness :
  App.replaceExtenstion "bank_statement" "csv" = "csv".
Proof. apply (replaceExtenstion_without_dot "bank_statement" "csv"). reflexivity. Defined.

(** X26 (replaceExtenstion, App.tsx lines 118-122): of a file name with
    a dot, the part after the last dot is replaced and the rest is
    kept. *)
Theorem replaceExtenstion_with_dot (base ext newExt : string) :
  Vocabulary.all_chars (fun c => negb (is_char c ".")) ext = true ->
  App.replaceExtenstion (base ++ "." ++ ext) newExt = (base ++ "." ++ newExt)%string.
Proof.
  intros H. unfold App.replaceExtenstion.
  change (base ++ "." ++ ext)%string with (base ++ String "." ext)%string.
  rewrite AppFacts.split_app, (AppFacts.split_no_sep _ _ H), AppFacts.setLast_snoc.
  destruct (DateFacts.split_nonempty "." base) as (h & t & E).
  rewrite E, AppFacts.join_snoc, <- E.
  change "."%string with (String "."%char "") at 1.
  now rewrite AppFacts.join_split.
Qed.

Lemma replaceExtenstion_with_dot_witness :
  App.replaceExtenstion ("e-statement.2024" ++ "." ++ "pdf") "csv"
  = ("e-statement.2024" ++ "." ++ "csv")%string.
Proof. apply (replaceExtenstion_with_dot "e-statement.2024" "pdf" "csv"). reflexivity. Defined.

(** X27 (formatKeterangan, App.tsx lines 219-237): the description is
    always kept as the beginning of the result, and the result is the
    description itself exactly when it contains none of the merchant
    codes. *)
Theorem formatKeterangan_unchanged_iff (keterangan : string) :
  String.prefix keterangan (App.formatKeterangan keterangan) = true
  /\ (App.formatKeterangan keterangan = keterangan
      <-> forall code tag, In (code, tag) App.merchantTags ->
                           includes keterangan code = false).
Proof.
  split; [apply AppFacts.tagWith_prefix|].
  apply AppFacts.tagWith_unchanged.
  intros code tag Hin. unfold App.merchantTags in Hin. simpl in Hin.
  repeat (destruct Hin as [[= <- <-]|Hin]; [discriminate|]). destruct Hin.
Qed.

(** X28 (getMutationText and getRecordColor, App.tsx lines 197-217): the
    sign and the colour of a row agree, whatever the number format: the
    text starts with "-" exactly when the colour is red, and this is so
    exactly for debits. *)
Theorem sign_and_colour_agree (rupiah : jsnum -> string) (record : TrxRecord) :
  (String.prefix "-" (App.getMutationText rupiah record) = true
   <-> App.getRecordColor record = "#FF0000")
  /\ (App.getRecordColor record = "#FF0000" <-> type record = debit).
Proof.
  unfold App.getMutationText, App.getRecordColor.
  destruct (type record); simpl; repeat split; intros; try discriminate;
    try reflexivity; apply DateFacts.prefix_empty.
Qed.
